(** * OSCAHR proxy: registry, service directories and control protocol

    A shallow embedding of [proxy_scenario/proxy.py] (class [Proxy]) and of
    the prompts of [common/prompt.py] it calls, with the properties of the
    device registry proved about it.

    - The registry [self._registered_devices] is whatever [json.loads]
      returned, so it is modelled as a JSON-shaped Python value ([pyval]);
      a [dict] is an association list in insertion order, because the
      loader compares the list of keys of every device entry.
    - The service directory tree is a finite map from the name of a device
      directory to its client authorization files.
    - Methods are computations in a state and exception monad over [world];
      [world] also records the effects on the three stores in order. *)

From Stdlib Require Import ZArith String Ascii List Bool Lia.
From stdpp Require Import base option gmap strings list.

Set Warnings "-clear-no-such-hyp".
Import ListNotations.

Local Open Scope string_scope.
Local Open Scope Z_scope.

(** ** Python values *)

(** The values [json.loads] builds (numbers are integers; floats are left
    out).  Keys of a JSON object are strings. *)
#[warnings="-register-all"]
Inductive pyval : Type :=
| PNone
| PBool (b : bool)
| PInt (z : Z)
| PStr (s : string)
| PList (l : list pyval)
| PDict (d : list (string * pyval)).

(** [d.get(k)] on the items of a dict. *)
Fixpoint dict_get {V : Type} (k : string) (d : list (string * V)) : option V :=
  match d with
  | [] => None
  | (k', v) :: d' => if String.eqb k k' then Some v else dict_get k d'
  end.

(** [d[k] = v]: an existing key keeps its position, a new key goes last. *)
Fixpoint dict_set {V : Type} (k : string) (v : V) (d : list (string * V))
  : list (string * V) :=
  match d with
  | [] => [(k, v)]
  | (k', v') :: d' =>
      if String.eqb k k' then (k', v) :: d' else (k', v') :: dict_set k v d'
  end.

(** The items left by [d.pop(k)]: the key is gone. *)
Fixpoint dict_del {V : Type} (k : string) (d : list (string * V))
  : list (string * V) :=
  match d with
  | [] => []
  | (k', v') :: d' =>
      if String.eqb k k' then dict_del k d' else (k', v') :: dict_del k d'
  end.

Definition dict_keys {V : Type} (d : list (string * V)) : list string :=
  map fst d.

(** Python's [==] on these values.  Lists compare in order, dicts compare
    key by key whatever the insertion order, and [True == 1]. *)
Fixpoint py_eq (a b : pyval) : bool :=
  match a, b with
  | PNone, PNone => true
  | PBool x, PBool y => Bool.eqb x y
  | PBool x, PInt z => Z.eqb z (if x then 1 else 0)
  | PInt z, PBool x => Z.eqb z (if x then 1 else 0)
  | PInt x, PInt y => Z.eqb x y
  | PStr x, PStr y => String.eqb x y
  | PList l1, PList l2 =>
      (fix go (l1 l2 : list pyval) : bool :=
         match l1, l2 with
         | [], [] => true
         | x :: l1', y :: l2' => py_eq x y && go l1' l2'
         | _, _ => false
         end) l1 l2
  | PDict d1, PDict d2 =>
      Nat.eqb (length d1) (length d2) &&
      (fix go (d : list (string * pyval)) : bool :=
         match d with
         | [] => true
         | (k, v) :: d' =>
             match dict_get k d2 with
             | Some v' => py_eq v v'
             | None => false
             end && go d'
         end) d1
  | _, _ => false
  end.

(** ** Exceptions *)

(** The messages of the [TypeError]s: the five the loader raises itself and
    those the interpreter raises on a value of the wrong type. *)
Inductive type_error_msg : Type :=
| StructureMismatch (device_name : string)
| InvalidIpAddress (device_name : string)
| InvalidPort (device_name : string)
| InvalidOnionAddress (device_name : string)
| InvalidPublicKey (client_name device_name : string)
| NotIterable
| NotSubscriptable
| NotAnInteger.

Inductive exn : Type :=
| TypeError (msg : type_error_msg)
| AttributeError
| KeyError (k : string)
| ValueError
| FileNotFoundError
| OSError
| KeyboardInterrupt
| ControlProtocolError.

(** Evaluation of an expression that may raise. *)
Inductive result (A : Type) : Type :=
| Val (a : A)
| Exc (e : exn).
Arguments Val {A} a.
Arguments Exc {A} e.

#[global] Instance result_ret : MRet result := fun A a => Val a.
#[global] Instance result_bind : MBind result := fun A B f r =>
  match r with
  | Val a => f a
  | Exc e => Exc e
  end.

(** [d[k]] on the items of a dict. *)
Definition dict_item {V : Type} (d : list (string * V)) (k : string) : result V :=
  match dict_get k d with
  | Some x => Val x
  | None => Exc (KeyError k)
  end.

(** [d.pop(k)]: the value removed and the items that are left. *)
Definition dict_pop {V : Type} (d : list (string * V)) (k : string)
  : result (V * list (string * V)) :=
  x ← dict_item d k;
  mret (x, dict_del k d).

(** [k in d.keys()] *)
Definition dict_has {V : Type} (d : list (string * V)) (k : string) : bool :=
  bool_decide (is_Some (dict_get k d)).

(** [v[k]] *)
Definition subscript (v : pyval) (k : string) : result pyval :=
  match v with
  | PDict d => dict_item d k
  | _ => Exc (TypeError NotSubscriptable)
  end.

(** [v.items()] *)
Definition items (v : pyval) : result (list (string * pyval)) :=
  match v with
  | PDict d => Val d
  | _ => Exc AttributeError
  end.

(** [[*v]]: the keys of a dict, the elements of a list, the characters of
    a string. *)
Definition unpack (v : pyval) : result (list pyval) :=
  match v with
  | PDict d => Val (map PStr (dict_keys d))
  | PList l => Val l
  | PStr s =>
      Val (map (fun c => PStr (String c EmptyString)) (list_ascii_of_string s))
  | _ => Exc (TypeError NotIterable)
  end.

(** [v[k] = x] *)
Definition set_item (v : pyval) (k : string) (x : pyval) : result pyval :=
  match v with
  | PDict d => Val (PDict (dict_set k x d))
  | _ => Exc (TypeError NotSubscriptable)
  end.

(** [v.update({k: x})] *)
Definition update (v : pyval) (k : string) (x : pyval) : result pyval :=
  match v with
  | PDict d => Val (PDict (dict_set k x d))
  | _ => Exc AttributeError
  end.

(** [v.pop(k)] for a string [k]: the value removed and the dict that is
    left. *)
Definition pop (v : pyval) (k : string) : result (pyval * pyval) :=
  match v with
  | PDict d => '(x, d') ← dict_pop d k; mret (x, PDict d')
  | PList _ => Exc (TypeError NotAnInteger)
  | _ => Exc AttributeError
  end.

(** [k in v.keys()] *)
Definition has_key (v : pyval) (k : string) : result bool :=
  match v with
  | PDict d => Val (dict_has d k)
  | _ => Exc AttributeError
  end.

(** [v is None] *)
Definition is_None (v : pyval) : bool :=
  match v with
  | PNone => true
  | _ => false
  end.

(** The entry of a device as [_add_device] builds it. *)
Definition device_entry (ip_address port onion_address : pyval)
  (clients : list (string * pyval)) : pyval :=
  PDict [("ip_address", ip_address); ("port", port);
         ("onion_address", onion_address); ("clients", PDict clients)].

(** A [for] loop whose body may raise, in either monad. *)
Fixpoint for_each {m : Type -> Type} `{!MBind m, !MRet m} {A : Type}
  (l : list A) (body : A -> m unit) : m unit :=
  match l with
  | [] => mret tt
  | x :: l' => body x ;; for_each l' body
  end.

(** A [for] loop that updates a local variable. *)
Fixpoint for_fold {m : Type -> Type} `{!MBind m, !MRet m} {A S : Type}
  (l : list A) (s : S) (body : S -> A -> m S) : m S :=
  match l with
  | [] => mret s
  | x :: l' => s' ← body s x; for_fold l' s' body
  end.

(** ** The three stores and what happens to them *)

(** [onion_services/<device>/authorized_clients/<client>.auth]: a device
    directory is known by its name and holds, beside the key material of
    the daemon, one authorization file per client, which holds the
    client's public key.  Names are single path components. *)
Abbreviation auth_files := (gmap string string).
Abbreviation service_dirs := (gmap string auth_files).

(** The effects on the stores, in the order they happen. *)
Inductive event : Type :=
| EvSave (snapshot : pyval)
| EvMoveDir (old_name new_name : string)
| EvRmtree (device_name : string)
| EvMoveAuth (device_name old_name new_name : string)
| EvUnlink (device_name client_name : string)
| EvCreateService (device_name client_name : string)
| EvWriteAuth (device_name client_name : string)
| EvStartService (device_name : string)
| EvStartTor
| EvTerminateTor
| EvWait.

Inductive level : Type := Debug | Info | Warning | Error | Printed.

Inductive message : Type :=
| OnionAddressChanged (device : string)
| ServicesStarted (service_counter : Z)
| NoRegisteredDevice
| IPv6Unsupported
| AddingDevice
| EnterOnionAddress (onion_address : pyval)
| DeviceAdded (device_name : string)
| DeviceDeleted (device_name : string)
| IpAddressChanged (device_name : string) (old_ip new_ip : pyval)
| PortChanged (device_name : string) (old_port new_port : pyval)
| DeviceRenamed (device_name new_device_name : string)
| ClientRenamed (client_name new_client_name : string)
| ClientAdded (client_name device_name : string)
| ClientDeleted (client_name device_name : string)
| LastClientDeleted
| NameAssigned (name : string)
| SameIpAndPort (name : string)
| SameIp (name : string).

Record world : Type := World {
  registered_devices : list (string * pyval);
  registered_devices_file : option pyval;
  onion_service_main_dir : service_dirs;
  answers : list string;
  effects : list event;
  logged : list (level * message)
}.

Definition with_devices (d : list (string * pyval)) (w : world) : world :=
  World d (registered_devices_file w) (onion_service_main_dir w)
        (answers w) (effects w) (logged w).
Definition with_file (f : option pyval) (w : world) : world :=
  World (registered_devices w) f (onion_service_main_dir w)
        (answers w) (effects w) (logged w).
Definition with_dirs (t : service_dirs) (w : world) : world :=
  World (registered_devices w) (registered_devices_file w) t
        (answers w) (effects w) (logged w).
Definition with_answers (a : list string) (w : world) : world :=
  World (registered_devices w) (registered_devices_file w)
        (onion_service_main_dir w) a (effects w) (logged w).
Definition with_effect (e : event) (w : world) : world :=
  World (registered_devices w) (registered_devices_file w)
        (onion_service_main_dir w) (answers w) (effects w ++ [e]) (logged w).
Definition with_log (l : level) (m : message) (w : world) : world :=
  World (registered_devices w) (registered_devices_file w)
        (onion_service_main_dir w) (answers w) (effects w)
        (logged w ++ [(l, m)]).

(** A method call returns or raises, and leaves a world either way. *)
Inductive outcome (A : Type) : Type :=
| Ok (a : A) (w : world)
| Raise (e : exn) (w : world).
Arguments Ok {A} a w.
Arguments Raise {A} e w.

Definition final {A : Type} (o : outcome A) : world :=
  match o with
  | Ok _ w => w
  | Raise _ w => w
  end.

Definition M (A : Type) : Type := world -> outcome A.

#[global] Instance M_ret : MRet M := fun A a w => Ok a w.
#[global] Instance M_bind : MBind M := fun A B f c w =>
  match c w with
  | Ok a w' => f a w'
  | Raise e w' => Raise e w'
  end.

Definition raise {A : Type} (e : exn) : M A := fun w => Raise e w.

Definition lift {A : Type} (r : result A) : M A := fun w =>
  match r with
  | Val a => Ok a w
  | Exc e => Raise e w
  end.

Definition get_devices : M (list (string * pyval)) :=
  fun w => Ok (registered_devices w) w.
Definition put_devices (d : list (string * pyval)) : M unit :=
  fun w => Ok tt (with_devices d w).
Definition get_dirs : M service_dirs :=
  fun w => Ok (onion_service_main_dir w) w.
Definition put_dirs (t : service_dirs) : M unit :=
  fun w => Ok tt (with_dirs t w).
Definition emit (e : event) : M unit := fun w => Ok tt (with_effect e w).
Definition log (l : level) (m : message) : M unit :=
  fun w => Ok tt (with_log l m w).

(** The snapshots written to the registry file, oldest first. *)
Definition saves (t : list event) : list pyval :=
  omap (fun e => match e with EvSave s => Some s | _ => None end) t.

(** ** pathlib and shutil on the service directories *)

(** [onion_service_dir.exists()] *)
Definition dir_exists (onion_service_dir : string) : M bool :=
  t ← get_dirs;
  mret (bool_decide (is_Some (t !! onion_service_dir))).

(** [onion_service_dir.replace(new_onion_service_dir)]: the source must
    exist; a directory cannot replace another one that holds files, and a
    service directory always holds the daemon's files. *)
Definition replace_dir (onion_service_dir new_onion_service_dir : string)
  : M unit :=
  t ← get_dirs;
  match t !! onion_service_dir with
  | None => raise FileNotFoundError
  | Some d =>
      if bool_decide (onion_service_dir = new_onion_service_dir)
      then emit (EvMoveDir onion_service_dir new_onion_service_dir)
      else
        match t !! new_onion_service_dir with
        | Some _ => raise OSError
        | None =>
            put_dirs (<[new_onion_service_dir := d]> (delete onion_service_dir t));;
            emit (EvMoveDir onion_service_dir new_onion_service_dir)
        end
  end.

(** [shutil.rmtree(onion_service_dir)] *)
Definition rmtree (onion_service_dir : string) : M unit :=
  t ← get_dirs;
  match t !! onion_service_dir with
  | None => raise FileNotFoundError
  | Some _ =>
      put_dirs (delete onion_service_dir t);;
      emit (EvRmtree onion_service_dir)
  end.

(** [client_file.unlink()] for the authorization file of [client_name]. *)
Definition unlink (onion_service_dir client_name : string) : M unit :=
  t ← get_dirs;
  match t !! onion_service_dir with
  | None => raise FileNotFoundError
  | Some auth =>
      match auth !! client_name with
      | None => raise FileNotFoundError
      | Some _ =>
          put_dirs (<[onion_service_dir := delete client_name auth]> t);;
          emit (EvUnlink onion_service_dir client_name)
      end
  end.

(** [old_onion_service_auth_file.replace(new_onion_service_auth_file)]: a
    file silently replaces an existing file. *)
Definition replace_auth (onion_service_dir client_name new_client_name : string)
  : M unit :=
  t ← get_dirs;
  match t !! onion_service_dir with
  | None => raise FileNotFoundError
  | Some auth =>
      match auth !! client_name with
      | None => raise FileNotFoundError
      | Some key =>
          put_dirs (<[onion_service_dir :=
                        <[new_client_name := key]> (delete client_name auth)]> t);;
          emit (EvMoveAuth onion_service_dir client_name new_client_name)
      end
  end.

(** ** What the sources call but do not contain *)

(** The validators of [common/validation.py] that the loader applies to
    the values of a device entry.  Their code is not part of the sources,
    so the development is parametric in them. *)
Class Validation : Type := {
  validate_ip_address : pyval -> bool;
  validate_port : pyval -> bool;
  validate_onion_v3_address : pyval -> bool;
  validate_base32_key : pyval -> bool
}.

Inductive ip_class : Type := IPv4Address | IPv6Address.

(** The functions of the Python library the methods use on strings:
    [type(ipaddress.ip_address(s))] ([None] when it raises [ValueError]),
    [int(s)] (likewise) and [s.strip()]. *)
Class Builtins : Type := {
  ip_address_type : string -> option ip_class;
  int_of_str : string -> option Z;
  strip : string -> string
}.

(** What the Tor daemon answers to the calls of [common/tor_server.py],
    given the directory tree it finds: the onion address of a created or
    started service ([None] when the call raises), and whether writing a
    client authorization succeeds. *)
Class TorDaemon : Type := {
  created_address :
    service_dirs -> string -> string -> Z -> string -> string -> option string;
  started_address : service_dirs -> string -> pyval -> pyval -> option string;
  auth_written : service_dirs -> string -> string -> string -> bool
}.

Section Proxy.

Context {validation : Validation} {builtins : Builtins} {daemon : TorDaemon}.

(** *** common/tor_server.py and the configuration object *)

(** Modelled from the spec: [self._config.start_tor()] of the absent
    configuration class starts the daemon process that backs the control
    protocol. *)
Definition start_tor : M unit := emit EvStartTor.

(** Modelled from the spec: [self._config.terminate_tor()] of the absent
    configuration class stops that process. *)
Definition terminate_tor : M unit := emit EvTerminateTor.

(** Modelled from the spec: [self._config.tor_proc.wait()] of the absent
    configuration class blocks until the daemon process terminates. *)
Definition tor_proc_wait : M unit := emit EvWait.

(** Modelled from the spec: [tor.create_disk_v3_onion_service] of the
    absent [common/tor_server.py] is [createService(dir, controlEndpoint,
    publicKey, port, ip, clientName) -> address]; it creates the onion
    service in the device directory with an initial client authorization
    for (clientName, publicKey), and on failure nothing is created on
    disk. *)
Definition create_disk_v3_onion_service
  (onion_service_dir public_key : string) (port : Z)
  (ip_address client_name : string) : M string :=
  t ← get_dirs;
  match created_address t onion_service_dir public_key port ip_address client_name with
  | None => raise ControlProtocolError
  | Some onion_service_address =>
      put_dirs (<[onion_service_dir := {[client_name := public_key]}]> t);;
      emit (EvCreateService onion_service_dir client_name);;
      mret onion_service_address
  end.

(** Modelled from the spec: [tor.start_disk_v3_onion_service] of the absent
    [common/tor_server.py] is [startService(dir, controlEndpoint, port, ip)
    -> address]; it (re)starts the onion service from the stored
    directory. *)
Definition start_disk_v3_onion_service
  (onion_service_dir : string) (port ip_address : pyval) : M string :=
  t ← get_dirs;
  match started_address t onion_service_dir port ip_address with
  | None => raise ControlProtocolError
  | Some onion_service_address =>
      emit (EvStartService onion_service_dir);;
      mret onion_service_address
  end.

(** Modelled from the spec: [tor.add_disk_v3_onion_service_auth] of the
    absent [common/tor_server.py] is [addClientAuthorization(dir,
    publicKey, clientName)]; it writes the authorization artifact of the
    client, one file per client named by the client. *)
Definition add_disk_v3_onion_service_auth
  (onion_service_dir public_key client_name : string) : M unit :=
  t ← get_dirs;
  if auth_written t onion_service_dir public_key client_name
  then
    put_dirs (<[onion_service_dir :=
                  <[client_name := public_key]> (default ∅ (t !! onion_service_dir))]> t);;
    emit (EvWriteAuth onion_service_dir client_name)
  else raise ControlProtocolError.

(** Modelled from the spec: [tor.check_existing_onion_service_auth] of the
    absent [common/tor_server.py] is [hasAnyClientAuthorization(dir) ->
    bool]; it tells whether any client authorization artifact remains for
    the device. *)
Definition check_existing_onion_service_auth (onion_service_dir : string)
  : M bool :=
  t ← get_dirs;
  mret (match t !! onion_service_dir with
        | Some auth => negb (bool_decide (auth = ∅))
        | None => false
        end).

(** *** Proxy: the registry file *)

(** [_set_registered_devices] *)
Definition _set_registered_devices : M unit := fun w =>
  let snapshot := PDict (registered_devices w) in
  Ok tt (with_effect (EvSave snapshot) (with_file (Some snapshot) w)).

Definition values : list pyval :=
  [PStr "ip_address"; PStr "port"; PStr "onion_address"; PStr "clients"].

(** The body of the loop over the devices in [_get_registered_devices]. *)
Definition validate_device (device_name : string) (device_value : pyval)
  : result unit :=
  keys ← unpack device_value;
  if negb (py_eq (PList values) (PList keys))
  then Exc (TypeError (StructureMismatch device_name))
  else
    ip_address ← subscript device_value "ip_address";
    if negb (validate_ip_address ip_address)
    then Exc (TypeError (InvalidIpAddress device_name))
    else
      port ← subscript device_value "port";
      if negb (validate_port port)
      then Exc (TypeError (InvalidPort device_name))
      else
        onion_address ← subscript device_value "onion_address";
        if negb (validate_onion_v3_address onion_address)
        then Exc (TypeError (InvalidOnionAddress device_name))
        else
          clients ← subscript device_value "clients";
          clients_items ← items clients;
          for_each clients_items (fun '(client_name, public_key) =>
            if negb (validate_base32_key public_key)
            then Exc (TypeError (InvalidPublicKey client_name device_name))
            else mret tt).

(** What [_get_registered_devices] does with the content of the file. *)
Definition validate_file (registered_devices : pyval)
  : result (list (string * pyval)) :=
  devices ← items registered_devices;
  for_each devices (fun '(device_name, device_value) =>
    validate_device device_name device_value);;
  mret devices.

(** [_get_registered_devices] *)
Definition _get_registered_devices : M (list (string * pyval)) := fun w =>
  match registered_devices_file w with
  | None => Ok [] w
  | Some registered_devices => lift (validate_file registered_devices) w
  end.

(** [__init__]: the registry of the object is what the loader returns. *)
Definition __init__ : M unit :=
  registered_devices ← _get_registered_devices;
  put_devices registered_devices.

(** *** common/prompt.py *)

(** The operator's answers are the texts [questionary] returns, that is,
    after its [validate] callback accepted them; [unsafe_ask] raises
    [KeyboardInterrupt] when the operator stops answering.  Every loop asks
    once per iteration, so it is written by recursion on the answers that
    are left. *)
Definition set_answers (a : list string) : M unit :=
  fun w => Ok tt (with_answers a w).

(** [int(s)] *)
Definition int (s : string) : result Z :=
  match int_of_str s with
  | Some z => Val z
  | None => Exc ValueError
  end.

(** [ipaddress.ip_address(s)], up to the class of the address. *)
Definition ip_address_class (s : string) : result ip_class :=
  match ip_address_type s with
  | Some c => Val c
  | None => Exc ValueError
  end.

(** [a and b], where [b] is evaluated only if [a] holds. *)
Definition and_then (a : bool) (b : M bool) : M bool :=
  if a then b else mret false.

Fixpoint prompt_device_name_loop (registered_devices : list (string * pyval))
  (script : list string) : M string :=
  match script with
  | [] => raise KeyboardInterrupt
  | answer :: script' =>
      set_answers script';;
      let device_name := strip answer in
      if dict_has registered_devices device_name
      then
        log Warning (NameAssigned device_name);;
        prompt_device_name_loop registered_devices script'
      else mret device_name
  end.

(** [prompt_device_name(registered_devices)] *)
Definition prompt_device_name (registered_devices : list (string * pyval))
  : M string :=
  fun w => prompt_device_name_loop registered_devices (answers w) w.

Fixpoint prompt_client_name_loop (registered_devices : list (string * pyval))
  (device_name : option string) (script : list string) : M string :=
  match script with
  | [] => raise KeyboardInterrupt
  | answer :: script' =>
      set_answers script';;
      let client_name := strip answer in
      match device_name with
      | None => mret client_name
      | Some "" => mret client_name
      | Some device_name' =>
          assigned ← lift (device_value ← dict_item registered_devices device_name';
                           clients ← subscript device_value "clients";
                           has_key clients client_name);
          if (assigned : bool)
          then
            log Warning (NameAssigned client_name);;
            prompt_client_name_loop registered_devices device_name script'
          else mret client_name
      end
  end.

(** [prompt_client_name(registered_devices, device_name=False)]; [None] is
    the default [False], and an empty name is as false as it. *)
Definition prompt_client_name (registered_devices : list (string * pyval))
  (device_name : option string) : M string :=
  fun w => prompt_client_name_loop registered_devices device_name (answers w) w.

(** The body of the loop over the devices in [prompt_ip_address]. *)
Definition prompt_ip_address_body (port : pyval) (ip_address : string)
  (duplicate : bool) (item : string * pyval) : M bool :=
  let '(name, value) := item in
  same_pair ← and_then (negb (is_None port))
    (ip ← lift (subscript value "ip_address");
     and_then (py_eq ip (PStr ip_address))
       (p ← lift (subscript value "port"); mret (py_eq p port)));
  duplicate ← (if (same_pair : bool)
               then log Warning (SameIpAndPort name);; mret true
               else mret duplicate);
  same_ip ← and_then (is_None port)
    (ip ← lift (subscript value "ip_address");
     mret (py_eq ip (PStr ip_address)));
  if (same_ip : bool)
  then log Warning (SameIp name);; mret true
  else mret duplicate.

Fixpoint prompt_ip_address_loop
  (registered_devices : option (list (string * pyval))) (port : pyval)
  (script : list string) : M string :=
  match script with
  | [] => raise KeyboardInterrupt
  | ip_address :: script' =>
      set_answers script';;
      duplicate ← match registered_devices with
                  | None => mret false
                  | Some devices =>
                      for_fold devices false (prompt_ip_address_body port ip_address)
                  end;
      if (duplicate : bool)
      then prompt_ip_address_loop registered_devices port script'
      else mret ip_address
  end.

(** [prompt_ip_address(registered_devices=None, port=None)] *)
Definition prompt_ip_address
  (registered_devices : option (list (string * pyval))) (port : pyval)
  : M string :=
  fun w => prompt_ip_address_loop registered_devices port (answers w) w.

(** The body of the loop over the devices in [prompt_port]. *)
Definition prompt_port_body (ip_address : pyval) (port : Z)
  (duplicate : bool) (item : string * pyval) : M bool :=
  let '(name, value) := item in
  same_pair ←
    (ip ← lift (subscript value "ip_address");
     and_then (py_eq ip ip_address)
       (p ← lift (subscript value "port"); mret (py_eq p (PInt port))));
  if (same_pair : bool)
  then log Warning (SameIpAndPort name);; mret true
  else mret duplicate.

Fixpoint prompt_port_loop
  (registered_devices : option (list (string * pyval))) (ip_address : pyval)
  (script : list string) : M Z :=
  match script with
  | [] => raise KeyboardInterrupt
  | answer :: script' =>
      set_answers script';;
      port ← lift (int answer);
      duplicate ← match registered_devices with
                  | Some devices =>
                      if is_None ip_address then mret false
                      else for_fold devices false (prompt_port_body ip_address port)
                  | None => mret false
                  end;
      if (duplicate : bool)
      then prompt_port_loop registered_devices ip_address script'
      else mret port
  end.

(** [prompt_port(registered_devices=None, ip_address=None)] *)
Definition prompt_port
  (registered_devices : option (list (string * pyval))) (ip_address : pyval)
  : M Z :=
  fun w => prompt_port_loop registered_devices ip_address (answers w) w.

(** [prompt_public_key()] *)
Definition prompt_public_key : M string := fun w =>
  match answers w with
  | [] => Raise KeyboardInterrupt w
  | public_key :: script' => Ok public_key (with_answers script' w)
  end.

(** *** Proxy: access to the registry *)

(** [registered_devices[device_name][key]] *)
Definition stored_item (registered_devices : list (string * pyval))
  (device_name key : string) : result pyval :=
  device_value ← dict_item registered_devices device_name;
  subscript device_value key.

(** [self._registered_devices[device_name][key]] *)
Definition device_item (device_name key : string) : M pyval :=
  devices ← get_devices;
  lift (stored_item devices device_name key).

(** [self._registered_devices[device_name][key] = x]: the entry is changed
    in place, inside the registry. *)
Definition set_device_item (device_name key : string) (x : pyval) : M unit :=
  devices ← get_devices;
  device_value ← lift (dict_item devices device_name);
  device_value' ← lift (set_item device_value key x);
  put_devices (dict_set device_name device_value' devices).

(** [self._registered_devices[device_name]["clients"]] changed in place by
    a method of [dict]. *)
Definition change_clients (device_name : string)
  (method : pyval -> result pyval) : M unit :=
  devices ← get_devices;
  device_value ← lift (dict_item devices device_name);
  clients ← lift (subscript device_value "clients");
  clients' ← lift (method clients);
  match device_value with
  | PDict d =>
      put_devices (dict_set device_name (PDict (dict_set "clients" clients' d)) devices)
  | _ => mret tt
  end.

(** *** Proxy: the methods *)

(** The loop over the devices in [start_proxy]. *)
Definition start_proxy_body (service_counter : Z) (device : string) : M Z :=
  let onion_service_dir := device in
  port ← device_item device "port";
  ip_address ← device_item device "ip_address";
  onion_service_address ← start_disk_v3_onion_service onion_service_dir port ip_address;
  onion_address ← device_item device "onion_address";
  if negb (py_eq (PStr onion_service_address) onion_address)
  then log Warning (OnionAddressChanged device);; mret service_counter
  else mret (service_counter + 1).

Definition start_services : M Z :=
  devices ← get_devices;
  for_fold (dict_keys devices) 0 start_proxy_body.

(** [start_proxy] *)
Definition start_proxy : M unit :=
  start_tor;;
  service_counter ← start_services;
  if 1 <=? service_counter
  then log Info (ServicesStarted service_counter);; tor_proc_wait
  else log Error NoRegisteredDevice.

(** [_add_device] *)
Definition _add_device : M unit :=
  devices ← get_devices;
  device_name ← prompt_device_name devices;
  ip_address ← prompt_ip_address None PNone;
  class ← lift (ip_address_class ip_address);
  match class with
  | IPv6Address => log Error IPv6Unsupported
  | IPv4Address =>
      port ← prompt_port (Some devices) (PStr ip_address);
      client_name ← prompt_client_name devices None;
      public_key ← prompt_public_key;
      let onion_service_dir := device_name in
      log Info AddingDevice;;
      start_tor;;
      onion_service_address ←
        create_disk_v3_onion_service onion_service_dir public_key port
          ip_address client_name;
      terminate_tor;;
      let new_device :=
        PDict [("ip_address", PStr ip_address);
               ("port", PInt port);
               ("onion_address", PStr onion_service_address);
               ("clients", PDict [(client_name, PStr public_key)])] in
      devices ← get_devices;
      put_devices (dict_set device_name new_device devices);;
      _set_registered_devices;;
      log Printed (EnterOnionAddress (PStr onion_service_address));;
      log Info (DeviceAdded device_name)
  end.

(** [_delete_device] *)
Definition _delete_device (onion_service_dir device_name : string) : M unit :=
  rmtree onion_service_dir;;
  devices ← get_devices;
  '(_, devices') ← lift (dict_pop devices device_name);
  put_devices devices';;
  _set_registered_devices;;
  log Info (DeviceDeleted device_name).

(** [_manage_registered_devices], the branch "Change IP address". *)
Definition change_ip_address (device_name : string) : M unit :=
  old_ip_address ← device_item device_name "ip_address";
  devices ← get_devices;
  port ← device_item device_name "port";
  ip_address ← prompt_ip_address (Some devices) port;
  class ← lift (ip_address_class ip_address);
  match class with
  | IPv6Address => log Error IPv6Unsupported
  | IPv4Address =>
      set_device_item device_name "ip_address" (PStr ip_address);;
      _set_registered_devices;;
      log Info (IpAddressChanged device_name old_ip_address (PStr ip_address))
  end.

(** [_manage_registered_devices], the branch "Change webinterface port". *)
Definition change_webinterface_port (device_name : string) : M unit :=
  old_port ← device_item device_name "port";
  devices ← get_devices;
  ip_address ← device_item device_name "ip_address";
  port ← prompt_port (Some devices) ip_address;
  set_device_item device_name "port" (PInt port);;
  _set_registered_devices;;
  log Info (PortChanged device_name old_port (PInt port)).

(** [_manage_registered_devices], the branch "Rename device"; it returns
    the new values of the local variables [device_name] and
    [onion_service_dir]. *)
Definition rename_device (onion_service_dir device_name : string)
  : M (string * string) :=
  devices ← get_devices;
  new_device_name ← prompt_device_name devices;
  let new_onion_service_dir := new_device_name in
  replace_dir onion_service_dir new_onion_service_dir;;
  devices ← get_devices;
  '(device_value, devices') ← lift (dict_pop devices device_name);
  put_devices (dict_set new_device_name device_value devices');;
  _set_registered_devices;;
  log Info (DeviceRenamed device_name new_device_name);;
  mret (new_device_name, new_device_name).

(** [_add_client] *)
Definition _add_client (device_name client_name public_key : string) : M unit :=
  let onion_service_dir := device_name in
  present ← dir_exists onion_service_dir;
  if negb present
  then raise FileNotFoundError
  else
    add_disk_v3_onion_service_auth onion_service_dir public_key client_name;;
    change_clients device_name
      (fun clients => update clients client_name (PStr public_key));;
    _set_registered_devices;;
    log Info (ClientAdded client_name device_name).

(** [_manage_clients], the branch "Add a new client". *)
Definition add_new_client (device_name : string) : M unit :=
  devices ← get_devices;
  client_name ← prompt_client_name devices (Some device_name);
  public_key ← prompt_public_key;
  _add_client device_name client_name public_key;;
  onion_address ← device_item device_name "onion_address";
  log Printed (EnterOnionAddress onion_address).

(** [_manage_registered_clients], the branch "Rename client"; it returns
    the new value of the local variable [client_name]. *)
Definition rename_client (onion_service_dir device_name client_name : string)
  : M string :=
  devices ← get_devices;
  new_client_name ← prompt_client_name devices (Some device_name);
  replace_auth onion_service_dir client_name new_client_name;;
  change_clients device_name
    (fun clients =>
       '(public_key, clients') ← pop clients client_name;
       set_item clients' new_client_name public_key);;
  _set_registered_devices;;
  log Info (ClientRenamed client_name new_client_name);;
  mret new_client_name.

(** [_delete_client] *)
Definition _delete_client (onion_service_dir device_name client_name : string)
  : M unit :=
  unlink onion_service_dir client_name;;
  change_clients device_name
    (fun clients => '(_, clients') ← pop clients client_name; mret clients');;
  _set_registered_devices;;
  log Info (ClientDeleted client_name device_name);;
  remaining ← check_existing_onion_service_auth onion_service_dir;
  if negb remaining
  then
    log Debug LastClientDeleted;;
    _delete_device onion_service_dir device_name
  else mret tt.

(** *** Proxy: the menus *)

(** What the operator can pick in the menus of [manage_devices],
    [_manage_registered_devices], [_manage_clients] and
    [_manage_registered_clients] that changes something. *)
Inductive operation : Type :=
| AddDevice
| ChangeIpAddress (device_name : string)
| ChangePort (device_name : string)
| RenameDevice (device_name : string)
| DeleteDevice (device_name : string)
| AddClient (device_name : string)
| RenameClient (device_name client_name : string)
| DeleteClient (device_name client_name : string).

(** The menus call the methods with the directory of the device,
    [self._onion_service_main_dir / device_name]. *)
Definition perform (o : operation) : M unit :=
  match o with
  | AddDevice => _add_device
  | ChangeIpAddress device_name => change_ip_address device_name
  | ChangePort device_name => change_webinterface_port device_name
  | RenameDevice device_name => rename_device device_name device_name;; mret tt
  | DeleteDevice device_name => _delete_device device_name device_name
  | AddClient device_name => add_new_client device_name
  | RenameClient device_name client_name =>
      rename_client device_name device_name client_name;; mret tt
  | DeleteClient device_name client_name =>
      _delete_client device_name device_name client_name
  end.

End Proxy.

(** ** common/prompt.py: the prompt for an onion address *)

(** The warning of [prompt_onion_address]: the address is registered for
    the device.  The prompt returns the warnings it logged. *)
Inductive onion_warning : Type :=
| OnionAddressRegistered (onion_address device : string).

(** The body of the loop over the devices in [prompt_onion_address]. *)
Definition prompt_onion_address_body (registered_devices : list (string * pyval))
  (onion_address : string) (state : bool * list onion_warning) (device : string)
  : M (bool * list onion_warning) :=
  let '(duplicate, warned) := state in
  registered ← lift (stored_item registered_devices device "onion_address");
  if py_eq (PStr onion_address) registered
  then mret (true, (warned ++ [OnionAddressRegistered onion_address device])%list)
  else mret (duplicate, warned).

Fixpoint prompt_onion_address_loop (registered_devices : list (string * pyval))
  (script : list string) (warned : list onion_warning)
  : M (string * list onion_warning) :=
  match script with
  | [] => raise KeyboardInterrupt
  | onion_address :: script' =>
      set_answers script';;
      '(duplicate, warned') ←
        for_fold (dict_keys registered_devices) (false, warned)
          (prompt_onion_address_body registered_devices onion_address);
      if (duplicate : bool)
      then prompt_onion_address_loop registered_devices script' warned'
      else mret (onion_address, warned')
  end.

(** [prompt_onion_address(registered_devices)] *)
Definition prompt_onion_address (registered_devices : list (string * pyval))
  : M (string * list onion_warning) :=
  fun w => prompt_onion_address_loop registered_devices (answers w) [] w.

(** ** The menus *)

(** [questionary.select] and [questionary.confirm] are not among the
    sources.  As for the text prompts, an answer of the operator is what
    [unsafe_ask] returns: for a selection the text that was picked, which
    the menus compare with their choices, and for a confirmation a text
    that [confirmation] reads as [True] or [False]. *)
Class Questionary := {
  confirmation : string -> bool
}.

(** The messages of the branches that show a stored value, with the values
    they print; a menu returns the ones it logged. *)
Inductive shown : Type :=
| NetworkShown (device_name : string) (ip_address port : pyval)
| OnionAddressShown (device_name : string) (onion_address : pyval)
| PublicKeyShown (client_name : string) (public_key : pyval).

(** A [while True] loop of a menu asks at least once per iteration, and the
    calls inside ask as well; it is written with fuel, [None] being a loop
    that ran out of it. *)
Definition L (A : Type) : Type := world -> option (outcome A).

Definition L_ret {A : Type} (a : A) : L A := fun w => Some (Ok a w).

Definition L_bind {A B : Type} (f : A -> L B) (c : L A) : L B := fun w =>
  match c w with
  | Some (Ok a w') => f a w'
  | Some (Raise e w') => Some (Raise e w')
  | None => None
  end.

#[global] Instance L_mret : MRet L := @L_ret.
#[global] Instance L_mbind : MBind L := @L_bind.

(** A call that needs no fuel. *)
Definition once {A : Type} (c : M A) : L A := fun w => Some (c w).

(** [v.keys()] *)
Definition keys (v : pyval) : result (list string) :=
  match v with
  | PDict d => Val (dict_keys d)
  | _ => Exc AttributeError
  end.

(** [sorted(l)] on strings. *)
Fixpoint insert_sorted (s : string) (l : list string) : list string :=
  match l with
  | [] => [s]
  | s' :: l' => if String.leb s s' then s :: l else s' :: insert_sorted s l'
  end.

Definition sorted (l : list string) : list string :=
  fold_right insert_sorted [] l.

Section Menus.

Context {validation : Validation} {builtins : Builtins} {daemon : TorDaemon}
  {questionary : Questionary}.

Definition _NEW_DEVICE_STRING : string := "Add a new smart home device".
Definition _REGISTERED_DEVICES_STRING : string := "Manage registered smart home devices".
Definition _NEW_CLIENT_STRING : string := "Add a new client".
Definition _REGISTERED_CLIENTS_STRING : string := "Manage registered clients".
Definition _BACK_TO_MAIN_STRING : string := "Back to main menu".
Definition _BACK_TO_DEVICE_STRING : string := "Back to device menu".
Definition _BACK_TO_CLIENT_STRING : string := "Back to client menu".
Definition _EXIT_STRING : string := "Exit".
Definition _CHOICES_REGISTERED_DEVICE : list string :=
  ["Manage clients";
   "View IP address and port";
   "Change IP address";
   "Change webinterface port";
   "View Onion address";
   "Rename device";
   "Delete device";
   _BACK_TO_MAIN_STRING].
Definition _CHOICES_CLIENT : list string :=
  ["View public client authorization key";
   "Rename client";
   "Delete client";
   "Back to client menu"].

(** [choices[i]] for an index of the list. *)
Definition choice (choices : list string) (i : nat) : string := nth i choices "".

(** [questionary.select(message, choices=choices).unsafe_ask()]: the next
    answer.  The choices are what the operator is shown; the answer is not
    restricted to them, so that no run of the program is left out. *)
Definition select (choices : list string) : M string := fun w =>
  match answers w with
  | [] => Raise KeyboardInterrupt w
  | answer :: script' => Ok answer (with_answers script' w)
  end.

(** [questionary.confirm(message, default=False).unsafe_ask()] *)
Definition confirm : M bool := fun w =>
  match answers w with
  | [] => Raise KeyboardInterrupt w
  | answer :: script' => Ok (confirmation answer) (with_answers script' w)
  end.

(** [_manage_registered_clients]; [client_name] is the local variable the
    branch "Rename client" updates. *)
Fixpoint _manage_registered_clients_loop (fuel : nat)
  (onion_service_dir device_name client_name : string) (seen : list shown)
  : L (list shown) :=
  match fuel with
  | O => fun _ => None
  | S fuel' =>
      answer_client_operation ← once (select _CHOICES_CLIENT);
      if String.eqb answer_client_operation (choice _CHOICES_CLIENT 0)
      then
        public_key ← once (devices ← get_devices;
                           lift (clients ← stored_item devices device_name "clients";
                                 subscript clients client_name));
        _manage_registered_clients_loop fuel' onion_service_dir device_name
          client_name (seen ++ [PublicKeyShown client_name public_key])
      else if String.eqb answer_client_operation (choice _CHOICES_CLIENT 1)
      then
        new_client_name ← once (rename_client onion_service_dir device_name client_name);
        _manage_registered_clients_loop fuel' onion_service_dir device_name
          new_client_name seen
      else if String.eqb answer_client_operation (choice _CHOICES_CLIENT 2)
      then
        confirmed ← once confirm;
        if (confirmed : bool)
        then
          once (_delete_client onion_service_dir device_name client_name);;
          mret seen
        else
          _manage_registered_clients_loop fuel' onion_service_dir device_name
            client_name seen
      else if String.eqb answer_client_operation (choice _CHOICES_CLIENT 3)
      then mret seen
      else
        _manage_registered_clients_loop fuel' onion_service_dir device_name
          client_name seen
  end.

(** Every iteration takes an answer, so one more unit of fuel than there
    are answers is enough. *)
Definition _manage_registered_clients
  (onion_service_dir device_name client_name : string) (seen : list shown)
  : L (list shown) := fun w =>
  _manage_registered_clients_loop (S (length (answers w))) onion_service_dir
    device_name client_name seen w.

(** [_manage_clients] *)
Fixpoint _manage_clients_loop (fuel : nat) (onion_service_dir device_name : string)
  (seen : list shown) : L (list shown) :=
  match fuel with
  | O => fun _ => None
  | S fuel' =>
      answer_operation ← once (select [_NEW_CLIENT_STRING; _REGISTERED_CLIENTS_STRING;
                                       _BACK_TO_DEVICE_STRING]);
      if String.eqb answer_operation _NEW_CLIENT_STRING
      then
        once (add_new_client device_name);;
        _manage_clients_loop fuel' onion_service_dir device_name seen
      else if String.eqb answer_operation _REGISTERED_CLIENTS_STRING
      then
        names ← once (devices ← get_devices;
                      lift (clients ← stored_item devices device_name "clients";
                            keys clients));
        answer_client ← once (select (sorted names ++ [_BACK_TO_CLIENT_STRING]));
        if String.eqb answer_client _BACK_TO_CLIENT_STRING
        then _manage_clients_loop fuel' onion_service_dir device_name seen
        else
          seen' ← _manage_registered_clients onion_service_dir device_name
                    answer_client seen;
          remaining ← once (check_existing_onion_service_auth onion_service_dir);
          if negb remaining
          then mret seen'
          else _manage_clients_loop fuel' onion_service_dir device_name seen'
      else if String.eqb answer_operation _BACK_TO_DEVICE_STRING
      then mret seen
      else _manage_clients_loop fuel' onion_service_dir device_name seen
  end.

Definition _manage_clients (onion_service_dir device_name : string)
  (seen : list shown) : L (list shown) := fun w =>
  _manage_clients_loop (S (length (answers w))) onion_service_dir device_name seen w.

(** [_manage_registered_devices]; [device_name] and [onion_service_dir] are
    the local variables the branch "Rename device" updates. *)
Fixpoint _manage_registered_devices_loop (fuel : nat)
  (onion_service_dir device_name : string) (seen : list shown) : L (list shown) :=
  match fuel with
  | O => fun _ => None
  | S fuel' =>
      answer_operation ← once (select _CHOICES_REGISTERED_DEVICE);
      if String.eqb answer_operation (choice _CHOICES_REGISTERED_DEVICE 0)
      then
        seen' ← _manage_clients onion_service_dir device_name seen;
        remaining ← once (check_existing_onion_service_auth onion_service_dir);
        if negb remaining
        then mret seen'
        else _manage_registered_devices_loop fuel' onion_service_dir device_name seen'
      else if String.eqb answer_operation (choice _CHOICES_REGISTERED_DEVICE 1)
      then
        ip_address ← once (device_item device_name "ip_address");
        port ← once (device_item device_name "port");
        _manage_registered_devices_loop fuel' onion_service_dir device_name
          (seen ++ [NetworkShown device_name ip_address port])
      else if String.eqb answer_operation (choice _CHOICES_REGISTERED_DEVICE 2)
      then
        once (change_ip_address device_name);;
        _manage_registered_devices_loop fuel' onion_service_dir device_name seen
      else if String.eqb answer_operation (choice _CHOICES_REGISTERED_DEVICE 3)
      then
        once (change_webinterface_port device_name);;
        _manage_registered_devices_loop fuel' onion_service_dir device_name seen
      else if String.eqb answer_operation (choice _CHOICES_REGISTERED_DEVICE 4)
      then
        onion_address ← once (device_item device_name "onion_address");
        _manage_registered_devices_loop fuel' onion_service_dir device_name
          (seen ++ [OnionAddressShown device_name onion_address])
      else if String.eqb answer_operation (choice _CHOICES_REGISTERED_DEVICE 5)
      then
        '(new_device_name, new_onion_service_dir) ←
          once (rename_device onion_service_dir device_name);
        _manage_registered_devices_loop fuel' new_onion_service_dir new_device_name seen
      else if String.eqb answer_operation (choice _CHOICES_REGISTERED_DEVICE 6)
      then
        confirmed ← once confirm;
        if (confirmed : bool)
        then
          once (_delete_device onion_service_dir device_name);;
          mret seen
        else _manage_registered_devices_loop fuel' onion_service_dir device_name seen
      else if String.eqb answer_operation (choice _CHOICES_REGISTERED_DEVICE 7)
      then mret seen
      else _manage_registered_devices_loop fuel' onion_service_dir device_name seen
  end.

(** The directory of the device is
    [self._onion_service_main_dir / device_name]. *)
Definition _manage_registered_devices (device_name : string) (seen : list shown)
  : L (list shown) := fun w =>
  _manage_registered_devices_loop (S (length (answers w))) device_name device_name
    seen w.

(** [manage_devices] *)
Fixpoint manage_devices_loop (fuel : nat) (seen : list shown) : L (list shown) :=
  match fuel with
  | O => fun _ => None
  | S fuel' =>
      answer_operation ← once (select [_NEW_DEVICE_STRING; _REGISTERED_DEVICES_STRING;
                                       _EXIT_STRING]);
      if String.eqb answer_operation _NEW_DEVICE_STRING
      then
        once _add_device;;
        manage_devices_loop fuel' seen
      else if String.eqb answer_operation _REGISTERED_DEVICES_STRING
      then
        devices ← once get_devices;
        answer_device ← once (select (sorted (dict_keys devices)
                                      ++ [_BACK_TO_MAIN_STRING]));
        if String.eqb answer_device _BACK_TO_MAIN_STRING
        then manage_devices_loop fuel' seen
        else
          seen' ← _manage_registered_devices answer_device seen;
          manage_devices_loop fuel' seen'
      else if String.eqb answer_operation _EXIT_STRING
      then mret seen
      else manage_devices_loop fuel' seen
  end.

Definition manage_devices : L (list shown) := fun w =>
  manage_devices_loop (S (length (answers w))) [] w.

End Menus.

(** The operator confirms with [y]. *)
Module Keys.

#[export] Instance questionary : Questionary := {|
  confirmation := fun answer => String.eqb answer "y" || String.eqb answer "Y"
|}.

End Keys.

(** ** Instances to run the model on *)

Module Sample.

(** The builtins on the texts of the examples.  A character of a string
    stands for its code point, so the strings are the texts of characters
    below U+0100; on these the three functions below follow CPython 3.11
    ([int] with its default limit of 4300 digits). *)

Definition code (c : ascii) : nat := nat_of_ascii c.

Definition is_digit (c : ascii) : bool :=
  let n := nat_of_ascii c in (48 <=? n)%nat && (n <=? 57)%nat.

Definition is_hex_digit (c : ascii) : bool :=
  let n := nat_of_ascii c in
  is_digit c || ((97 <=? n)%nat && (n <=? 102)%nat)
  || ((65 <=? n)%nat && (n <=? 70)%nat).

Definition is_base32_upper (c : ascii) : bool :=
  let n := nat_of_ascii c in
  ((65 <=? n)%nat && (n <=? 90)%nat) || ((50 <=? n)%nat && (n <=? 55)%nat).

Definition is_base32_lower (c : ascii) : bool :=
  let n := nat_of_ascii c in
  ((97 <=? n)%nat && (n <=? 122)%nat) || ((50 <=? n)%nat && (n <=? 55)%nat).

(** [c.isspace()]: the characters [str.strip] removes. *)
Definition is_space (c : ascii) : bool :=
  let n := nat_of_ascii c in
  (n =? 32)%nat || ((9 <=? n)%nat && (n <=? 13)%nat)
  || ((28 <=? n)%nat && (n <=? 31)%nat) || (n =? 133)%nat || (n =? 160)%nat.

(** The white space [int] skips around a number: the ASCII one of C, and
    the white space that is not ASCII. *)
Definition is_int_space (c : ascii) : bool :=
  let n := nat_of_ascii c in
  (n =? 32)%nat || ((9 <=? n)%nat && (n <=? 13)%nat)
  || (n =? 133)%nat || (n =? 160)%nat.

Fixpoint lstrip (space : ascii -> bool) (l : list ascii) : list ascii :=
  match l with
  | [] => []
  | c :: l' => if space c then lstrip space l' else l
  end.

Definition strip_both (space : ascii -> bool) (l : list ascii) : list ascii :=
  rev (lstrip space (rev (lstrip space l))).

(** [s.strip()] *)
Definition strip_spaces (s : string) : string :=
  string_of_list_ascii (strip_both is_space (list_ascii_of_string s)).

(** Decimal digits to a number. *)
Fixpoint decimal (acc : Z) (l : list ascii) : option Z :=
  match l with
  | [] => Some acc
  | c :: l' =>
      if is_digit c
      then decimal (10 * acc + Z.of_nat (nat_of_ascii c - 48)) l'
      else None
  end.

(** The digits of a number as [int] reads them, with single underscores
    between digits: the number and how many digits it has. *)
Fixpoint grouped_decimal (acc : Z) (digits : nat) (after_digit : bool)
  (l : list ascii) : option (Z * nat) :=
  match l with
  | [] => if after_digit then Some (acc, digits) else None
  | c :: l' =>
      if is_digit c
      then grouped_decimal (10 * acc + Z.of_nat (nat_of_ascii c - 48)) (S digits)
             true l'
      else if (nat_of_ascii c =? 95)%nat && after_digit
      then grouped_decimal acc digits false l'
      else None
  end.

(** [int(s)]: white space around, a sign, digits. *)
Definition decimal_of_str (s : string) : option Z :=
  let l := strip_both is_int_space (list_ascii_of_string s) in
  let '(sign, l') :=
    match l with
    | c :: l' =>
        if (nat_of_ascii c =? 43)%nat then (1, l')
        else if (nat_of_ascii c =? 45)%nat then (-1, l')
        else (1, l)
    | [] => (1, l)
    end in
  match grouped_decimal 0 0 false l' with
  | Some (z, digits) => if (digits <=? 4300)%nat then Some (sign * z) else None
  | None => None
  end.

(** [l.split(sep)] for a separator of one character. *)
Fixpoint split_at (sep : nat) (cur : list ascii) (l : list ascii)
  : list (list ascii) :=
  match l with
  | [] => [rev cur]
  | c :: l' =>
      if (nat_of_ascii c =? sep)%nat
      then rev cur :: split_at sep [] l'
      else split_at sep (c :: cur) l'
  end.

(** The parts of a string between dots. *)
Definition split_dots (cur : list ascii) (l : list ascii) : list (list ascii) :=
  split_at 46 cur l.

Definition has_char (n : nat) (l : list ascii) : bool :=
  existsb (fun c => (nat_of_ascii c =? n)%nat) l.

(** An octet of an IPv4 address: one to three digits, no leading zero,
    at most 255. *)
Definition is_octet (l : list ascii) : bool :=
  match l with
  | [] => false
  | c :: l' =>
      (length l <=? 3)%nat &&
      negb ((nat_of_ascii c =? 48)%nat && negb (length l' =? 0)%nat) &&
      match decimal 0 l with
      | Some z => z <=? 255
      | None => false
      end
  end.

Definition is_ipv4_text (l : list ascii) : bool :=
  let parts := split_dots [] l in
  (length parts =? 4)%nat && forallb is_octet parts.

(** [ipaddress.IPv4Address(s)] does not raise. *)
Definition is_ipv4 (s : string) : bool := is_ipv4_text (list_ascii_of_string s).

(** A group of an IPv6 address: one to four hexadecimal digits. *)
Definition is_hextet (l : list ascii) : bool :=
  negb (length l =? 0)%nat && (length l <=? 4)%nat && forallb is_hex_digit l.

Definition is_empty (l : list ascii) : bool := (length l =? 0)%nat.

(** The position of the first empty part. *)
Fixpoint first_empty (parts : list (list ascii)) : nat :=
  match parts with
  | [] => 0
  | part :: parts' => if is_empty part then 0 else S (first_empty parts')
  end.

(** The groups of an IPv6 address without its scope, as
    [_ip_int_from_string] checks them: an IPv4 address may stand for the
    last two groups, and one [::] for one group or more. *)
Definition is_ipv6_groups (l : list ascii) : bool :=
  let parts := split_at 58 [] l in
  negb (is_empty l) && (3 <=? length parts)%nat &&
  let last_part := List.last parts [] in
  let embedded := has_char 46 last_part in
  (negb embedded || is_ipv4_text last_part) &&
  let parts := if embedded
               then (removelast parts ++ [["0"%char]; ["0"%char]])%list
               else parts in
  let n := length parts in
  (n <=? 9)%nat &&
  let inner := removelast (List.tl parts) in
  let skips := length (List.filter is_empty inner) in
  match skips with
  | O =>
      (n =? 8)%nat && forallb is_hextet parts
  | S O =>
      let skip_index := S (first_empty inner) in
      let starts_empty := is_empty (List.hd [] parts) in
      let ends_empty := is_empty (List.last parts []) in
      let parts_hi := (if starts_empty then skip_index - 1 else skip_index)%nat in
      let parts_lo := (if ends_empty then n - skip_index - 2
                       else n - skip_index - 1)%nat in
      negb (starts_empty && negb (parts_hi =? 0)%nat) &&
      negb (ends_empty && negb (parts_lo =? 0)%nat) &&
      (parts_hi + parts_lo <=? 7)%nat &&
      forallb is_hextet (take parts_hi parts) &&
      forallb is_hextet (drop (n - parts_lo) parts)
  | _ => false
  end.

(** [ipaddress.IPv6Address(s)] does not raise: no [/], an optional scope
    after [%], which is not empty and holds no [%], and the groups. *)
Definition is_ipv6 (s : string) : bool :=
  let l := list_ascii_of_string s in
  negb (has_char 47 l) &&
  match split_at 37 [] l with
  | [address] => is_ipv6_groups address
  | [address; scope] => negb (is_empty scope) && is_ipv6_groups address
  | _ => false
  end.

(** [type(ipaddress.ip_address(s))] *)
Definition address_type (s : string) : option ip_class :=
  if is_ipv4 s then Some IPv4Address
  else if is_ipv6 s then Some IPv6Address
  else None.

#[export] Instance builtins : Builtins := {|
  ip_address_type := address_type;
  int_of_str := decimal_of_str;
  strip := strip_spaces
|}.

(** Modelled from the spec: [validation.validate_ip_address] of the absent
    [common/validation.py] checks that the IP address is well formed; this
    one accepts the strings the address parser above accepts. *)
Definition sample_validate_ip_address (v : pyval) : bool :=
  match v with
  | PStr s => bool_decide (is_Some (address_type s))
  | _ => false
  end.

(** Modelled from the spec: [validation.validate_port] of the absent
    [common/validation.py] checks the port range, an integer from 1 to
    65535. *)
Definition sample_validate_port (v : pyval) : bool :=
  match v with
  | PInt z => (1 <=? z) && (z <=? 65535)
  | _ => false
  end.

(** Modelled from the spec: [validation.validate_onion_v3_address] of the
    absent [common/validation.py] checks the format of the onion address;
    this one accepts base32 text that ends in [.onion]. *)
Definition sample_validate_onion_v3_address (v : pyval) : bool :=
  match v with
  | PStr s =>
      let l := list_ascii_of_string s in
      let n := (length l - 6)%nat in
      (1 <=? n)%nat && forallb is_base32_lower (take n l)
      && String.eqb (string_of_list_ascii (drop n l)) ".onion"
  | _ => false
  end.

(** Modelled from the spec: [validation.validate_base32_key] of the absent
    [common/validation.py] checks that the public key is a string over a
    fixed alphabet; this one accepts non-empty base32 text. *)
Definition sample_validate_base32_key (v : pyval) : bool :=
  match v with
  | PStr s =>
      let l := list_ascii_of_string s in
      (1 <=? length l)%nat && forallb is_base32_upper l
  | _ => false
  end.

#[export] Instance validation : Validation := {|
  validate_ip_address := sample_validate_ip_address;
  validate_port := sample_validate_port;
  validate_onion_v3_address := sample_validate_onion_v3_address;
  validate_base32_key := sample_validate_base32_key
|}.

(** A daemon that answers every call, always with the same address. *)
Definition daemon_up (address : string) : TorDaemon := {|
  created_address := fun _ _ _ _ _ _ => Some address;
  started_address := fun _ _ _ _ => Some address;
  auth_written := fun _ _ _ _ => true
|}.

(** A daemon that fails every call. *)
Definition daemon_down : TorDaemon := {|
  created_address := fun _ _ _ _ _ _ => None;
  started_address := fun _ _ _ _ => None;
  auth_written := fun _ _ _ _ => false
|}.

(** The registry of the cascade example, with the directory of device A. *)
Definition device_A : pyval :=
  PDict [("ip_address", PStr "10.0.0.5");
         ("port", PInt 8080);
         ("onion_address", PStr "abcd...onion");
         ("clients", PDict [("c1", PStr "KEY1")])].

Definition world_A (script : list string) : world := {|
  registered_devices := [("A", device_A)];
  registered_devices_file := Some (PDict [("A", device_A)]);
  onion_service_main_dir := {[ "A" := {[ "c1" := "KEY1" ]} ]};
  answers := script;
  effects := [];
  logged := []
|}.

(** Values the validators above accept, and files to load. *)
Definition onion_1 : string :=
  "abcdefghijklmnopqrstuvwxyz234567abcdefghijklmnopqrstuvwx.onion".
Definition key_1 : string :=
  "ABCDEFGHIJKLMNOPQRSTUVWXYZ234567ABCDEFGHIJKLMNOPQRST".

Definition file_world (x : pyval) : world := {|
  registered_devices := [];
  registered_devices_file := Some x;
  onion_service_main_dir := ∅;
  answers := [];
  effects := [];
  logged := []
|}.


Definition device_1 (clients : list (string * pyval)) : pyval :=
  device_entry (PStr "10.0.0.5") (PInt 8080) (PStr onion_1) clients.

Definition file_clash : pyval :=
  PDict [("A", device_1 [("c1", PStr key_1)]); ("B", device_1 [])].

Definition onion_2 : string :=
  "bcdefghijklmnopqrstuvwxyz234567abcdefghijklmnopqrstuvwxy.onion".

(** Two devices with their directories; the daemon will find the address of
    the second one changed. *)
Definition devices_AB : list (string * pyval) :=
  [("A", device_entry (PStr "10.0.0.5") (PInt 8080) (PStr onion_1)
           [("c1", PStr key_1)]);
   ("B", device_entry (PStr "10.0.0.6") (PInt 8080) (PStr onion_2)
           [("c1", PStr key_1)])].

Definition world_AB : world := {|
  registered_devices := devices_AB;
  registered_devices_file := Some (PDict devices_AB);
  onion_service_main_dir :=
    {[ "A" := {[ "c1" := key_1 ]}; "B" := {[ "c1" := key_1 ]} ]};
  answers := [];
  effects := [];
  logged := []
|}.

End Sample.

(** ** Notions the properties are stated with *)

Section Notions.

Context {validation : Validation}.

(** The device entries the loader lets through: a dict with the four keys
    in the order of [values], whose values the validators accept and whose
    clients are a dict of accepted keys. *)
Definition device_accepted (device_value : pyval) : bool :=
  match device_value with
  | PDict [(k1, ip_address); (k2, port); (k3, onion_address); (k4, PDict clients)] =>
      String.eqb k1 "ip_address" && String.eqb k2 "port"
      && String.eqb k3 "onion_address" && String.eqb k4 "clients"
      && validate_ip_address ip_address && validate_port port
      && validate_onion_v3_address onion_address
      && forallb (fun kv => validate_base32_key kv.2) clients
  | _ => false
  end.








End Notions.

(** The three stores of the coordinator. *)
Definition stores (w : world)
  : list (string * pyval) * option pyval * service_dirs :=
  (registered_devices w, registered_devices_file w, onion_service_main_dir w).

(** A computation that leaves the world in relation [R] to the one it
    started from, whether it returns or raises. *)
Definition preserves {A : Type} (R : relation world) (c : M A) : Prop :=
  forall w, R w (final (c w)).

(** Only the answers and the log may differ. *)
Definition only_talked (w w' : world) : Prop :=
  stores w' = stores w /\ effects w' = effects w.

(** The three stores are the same. *)
Definition same_stores (w w' : world) : Prop := stores w' = stores w.

(** The registry and its file are the same and nothing was saved. *)
Definition registry_kept (w w' : world) : Prop :=
  registered_devices w' = registered_devices w /\
  registered_devices_file w' = registered_devices_file w /\
  saves (effects w') = saves (effects w).

(** A computation that, when it raises, leaves the stores as they were. *)
Definition raises_cleanly {A : Type} (c : M A) : Prop :=
  forall w e w', c w = Raise e w' -> stores w' = stores w.

(** The authorization files of a device directory are those of the
    clients of its registry entry. *)
Definition mirrors (auth : auth_files) (clients : list (string * pyval)) : Prop :=
  dom auth = list_to_set (dict_keys clients).

(** An entry with the four keys in order and a mapping of clients: the
    shape the loader lets through and every method keeps. *)
Definition entry_shaped (device_value : pyval) : bool :=
  match device_value with
  | PDict [(k1, _); (k2, _); (k3, _); (k4, PDict _)] =>
      String.eqb k1 "ip_address" && String.eqb k2 "port"
      && String.eqb k3 "onion_address" && String.eqb k4 "clients"
  | _ => false
  end.

Definition registry_shaped (devices : list (string * pyval)) : bool :=
  forallb (fun kv => entry_shaped kv.2) devices.

(** Whether a device entry has this IP address and this port. *)
Definition same_pair (ip_address port : pyval) (device_value : pyval) : bool :=
  match subscript device_value "ip_address", subscript device_value "port" with
  | Val i, Val p => py_eq i ip_address && py_eq p port
  | _, _ => false
  end.

(** The pair is the one of a registered device, whichever it is. *)
Definition pair_assigned (devices : list (string * pyval))
  (ip_address port : pyval) : bool :=
  existsb (fun kv => same_pair ip_address port kv.2) devices.

(** The wording of the specification: the pair is the one of a device
    other than the device being changed. *)
Definition collides_with_another (devices : list (string * pyval))
  (device_name : string) (ip_address port : pyval) : bool :=
  existsb (fun kv => negb (String.eqb kv.1 device_name)
                     && same_pair ip_address port kv.2) devices.

(** What a successful change of one field of a device leaves behind. *)
Definition field_changed (device_name key : string) (x : pyval) (w w' : world) : Prop :=
  stored_item (registered_devices w') device_name key = Val x /\
  (forall key', key' <> key ->
     stored_item (registered_devices w') device_name key'
     = stored_item (registered_devices w) device_name key') /\
  (forall other, other <> device_name ->
     dict_get other (registered_devices w') = dict_get other (registered_devices w)) /\
  registered_devices_file w' = Some (PDict (registered_devices w')) /\
  onion_service_main_dir w' = onion_service_main_dir w /\
  effects w' = (effects w ++ [EvSave (PDict (registered_devices w'))])%list.

(** A device of the registry is in order when its entry has the shape the
    loader lets through, it has a client, and its directory holds the
    authorization files of its clients and no other. *)
Definition device_coherent (t : service_dirs) (item : string * pyval) : bool :=
  match item.2 with
  | PDict [(k1, _); (k2, _); (k3, _); (k4, PDict clients)] =>
      String.eqb k1 "ip_address" && String.eqb k2 "port"
      && String.eqb k3 "onion_address" && String.eqb k4 "clients"
      && negb (bool_decide (clients = []))
      && match t !! item.1 with
         | Some auth =>
             bool_decide (dom auth = list_to_set (C := gset string) (dict_keys clients))
         | None => false
         end
  | _ => false
  end.

(** The registry and the directories agree: no name is registered twice
    and every registered device is in order. *)
Definition coherent (w : world) : bool :=
  bool_decide (NoDup (dict_keys (registered_devices w)))
  && forallb (device_coherent (onion_service_main_dir w)) (registered_devices w).

(** Every device entry of a snapshot has at least one client. *)
Definition every_device_has_a_client (snapshot : pyval) : bool :=
  match snapshot with
  | PDict devices =>
      forallb (fun kv => match subscript kv.2 "clients" with
                         | Val (PDict (_ :: _)) => true
                         | _ => false
                         end) devices
  | _ => false
  end.

(** The computation returned. *)
Definition returned {A : Type} (out : outcome A) : Prop :=
  match out with
  | Ok _ _ => True
  | Raise _ _ => False
  end.

(** After the computation the stores agree again if it returned, and
    every snapshot it saved gives every device a client. *)
Definition settled {A : Type} (w : world) (out : outcome A) : Prop :=
  (returned out -> coherent (final out) = true) /\
  exists new,
    effects (final out) = (effects w ++ new)%list /\
    Forall (fun s => every_device_has_a_client s = true) (saves new).

(** A snapshot that lists a device with no client. *)
Definition clientless (device_name : string) (snapshot : pyval) : Prop :=
  exists devices entry,
    snapshot = PDict devices /\
    dict_get device_name devices = Some entry /\
    subscript entry "clients" = Val (PDict []).

(** Effects in which every snapshot saved gives every device a client,
    but the one saved between the removal of the last authorization file
    of a device and the removal of its directory.  That snapshot lists
    this device with no client and every other device with a client, and
    it is replaced at once by the same snapshot without the device: the
    entries of [dict_del device_name devices] are the entries of [devices]
    under the other names. *)
Inductive lasting : list event -> Prop :=
| lasting_nil : lasting []
| lasting_other (e : event) (es : list event) :
    (forall s, e <> EvSave s) -> lasting es -> lasting (e :: es)
| lasting_save (s : pyval) (es : list event) :
    every_device_has_a_client s = true -> lasting es -> lasting (EvSave s :: es)
| lasting_cascade (device_name client_name : string)
    (devices : list (string * pyval)) (es : list event) :
    clientless device_name (PDict devices) ->
    every_device_has_a_client (PDict (dict_del device_name devices)) = true ->
    lasting es ->
    lasting (EvUnlink device_name client_name :: EvSave (PDict devices)
             :: EvRmtree device_name
             :: EvSave (PDict (dict_del device_name devices)) :: es).

(** After the computation the stores agree again if it returned, and the
    effects it added are lasting. *)
Definition kept {A : Type} (w : world) (out : outcome A) : Prop :=
  (returned out -> coherent (final out) = true) /\
  exists new, effects (final out) = (effects w ++ new)%list /\ lasting new.

(** Whether the address the daemon returns for a registered device is the
    one stored for it. *)
Definition address_confirmed {daemon : TorDaemon} (t : service_dirs)
  (devices : list (string * pyval)) (device : string) : bool :=
  match stored_item devices device "port",
        stored_item devices device "ip_address",
        stored_item devices device "onion_address" with
  | Val port, Val ip_address, Val onion_address =>
      match started_address t device port ip_address with
      | Some onion_service_address =>
          py_eq (PStr onion_service_address) onion_address
      | None => false
      end
  | _, _, _ => false
  end.

(** Structural equality of JSON values whatever the order of the keys of a
    mapping: two mappings are equal when every key leads to equal values in
    both. *)
#[warnings="-register-all"]
Inductive same_json : pyval -> pyval -> Prop :=
| same_None : same_json PNone PNone
| same_Bool (b : bool) : same_json (PBool b) (PBool b)
| same_Int (z : Z) : same_json (PInt z) (PInt z)
| same_Str (s : string) : same_json (PStr s) (PStr s)
| same_List (l1 l2 : list pyval) :
    Forall2 same_json l1 l2 -> same_json (PList l1) (PList l2)
| same_Dict (d1 d2 : list (string * pyval)) :
    (forall k, option_Forall2 same_json (dict_get k d1) (dict_get k d2)) ->
    same_json (PDict d1) (PDict d2).

(** ** Notions for the prompts and the single methods *)

(** Whether a device entry has this IP address. *)
Definition same_ip (ip_address : pyval) (device_value : pyval) : bool :=
  match subscript device_value "ip_address" with
  | Val i => py_eq i ip_address
  | Exc _ => false
  end.

(** The IP address is the one of a registered device. *)
Definition ip_assigned (devices : list (string * pyval)) (ip_address : pyval)
  : bool :=
  existsb (fun kv => same_ip ip_address kv.2) devices.

(** The warnings for the answers a prompt for a name refused. *)
Definition names_refused {builtins : Builtins} (rejected : list string)
  : list (level * message) :=
  map (fun r => (Warning, NameAssigned (strip r))) rejected.

(** The world after a prompt took its answer. *)
Definition talked (w : world) (rest : list string)
  (said : list (level * message)) : world :=
  World (registered_devices w) (registered_devices_file w)
        (onion_service_main_dir w) rest (effects w) (logged w ++ said).

(** What the prompt for an IP address compares an answer with. *)
Definition ip_refused (devices : option (list (string * pyval))) (port : pyval)
  (answer : string) : bool :=
  match devices with
  | None => false
  | Some devices =>
      if is_None port then ip_assigned devices (PStr answer)
      else pair_assigned devices (PStr answer) port
  end.

(** What the prompt for a port compares an answer, read as a number,
    with. *)
Definition port_refused (devices : option (list (string * pyval)))
  (ip_address : pyval) (port : Z) : bool :=
  match devices with
  | None => false
  | Some devices =>
      if is_None ip_address then false
      else pair_assigned devices ip_address (PInt port)
  end.


(** The warnings [start_proxy] logs for the devices whose address is not
    the stored one. *)
Definition changed_addresses {daemon : TorDaemon} (t : service_dirs)
  (devices : list (string * pyval)) (keys : list string)
  : list (level * message) :=
  map (fun device => (Warning, OnionAddressChanged device))
    (List.filter (fun device => negb (address_confirmed t devices device)) keys).

(** The IP address and the port of a device entry, when they are a string
    and an integer. *)
Definition network_pair (device_value : pyval) : option (string * Z) :=
  match subscript device_value "ip_address", subscript device_value "port" with
  | Val (PStr ip_address), Val (PInt port) => Some (ip_address, port)
  | _, _ => None
  end.

Definition network_pairs (devices : list (string * pyval))
  : list (option (string * Z)) :=
  map (fun kv => network_pair kv.2) devices.

(** Every device has an IP address and a port, and no two devices have the
    same of both. *)
Definition pairs_distinct (devices : list (string * pyval)) : bool :=
  bool_decide (NoDup (network_pairs devices) /\ None ∉ network_pairs devices).

(** ** Notions for the menus *)

(** What a run of the menus does to the world: it talks, and it performs
    operations. *)
Inductive managed {builtins : Builtins} {daemon : TorDaemon}
  : world -> world -> Prop :=
| managed_talked (w w' : world) : only_talked w w' -> managed w w'
| managed_performed (o : operation) (w w1 w' : world) :
    perform o w = Ok tt w1 -> managed w1 w' -> managed w w'
| managed_then (w w1 w' : world) : managed w w1 -> managed w1 w' -> managed w w'.

(** The outcome of a run: the world is reached through talk and operations,
    and an exception is the one of an operation, or was raised while
    talking. *)
Definition managed_outcome {builtins : Builtins} {daemon : TorDaemon} {A : Type}
  (w : world) (out : outcome A) : Prop :=
  match out with
  | Ok _ w' => managed w w'
  | Raise e w' =>
      exists w1, managed w w1 /\
                 (only_talked w1 w' \/ exists o, perform o w1 = Raise e w')
  end.

(** The answers that are left are not more than before. *)
Definition answers_left (w w' : world) : Prop :=
  (length (answers w') <= length (answers w))%nat.

(** The answers are the same. *)
Definition same_answers (w w' : world) : Prop := answers w' = answers w.

(** The loop ends in every world with fewer answers than [fuel], and
    leaves answers of that world. *)
Definition ends_under {A : Type} (fuel : nat) (c : L A) : Prop :=
  forall w, (length (answers w) < fuel)%nat ->
    exists out, c w = Some out /\ answers_left w (final out).

Definition ends {A : Type} (c : L A) : Prop :=
  forall w, exists out, c w = Some out /\ answers_left w (final out).

(** Whatever [c] returns, [c'] returns. *)
Definition extended {A : Type} (c c' : L A) : Prop :=
  forall w out, c w = Some out -> c' w = Some out.

(** Two calls that end alike: both return, or both raise the same
    exception, and they leave the same world. *)
Definition same_run {A B : Type} (a : outcome A) (b : outcome B) : Prop :=
  match a, b with
  | Ok _ w1, Ok _ w2 => w1 = w2
  | Raise e1 w1, Raise e2 w2 => e1 = e2 /\ w1 = w2
  | _, _ => False
  end.

(** Every outcome of the menu is the outcome of a run of talk and
    operations. *)
Definition runs {builtins : Builtins} {daemon : TorDaemon} {A : Type} (c : L A)
  : Prop :=
  forall w out, c w = Some out -> managed_outcome w out.

(** The registry file holds the registry; before the first save there is
    no file and no device. *)
Definition in_sync (w : world) : Prop :=
  match registered_devices_file w with
  | Some file => file = PDict (registered_devices w)
  | None => registered_devices w = []
  end.

(** A call that, when it returns, has saved the registry. *)
Definition saves_last {A : Type} (c : M A) : Prop :=
  forall w a w', c w = Ok a w' -> in_sync w'.

(** A call that, when it returns, has not left the file behind the
    registry. *)
Definition keeps_sync {A : Type} (c : M A) : Prop :=
  forall w a w', in_sync w -> c w = Ok a w' -> in_sync w'.

(** ** Notions for the prompt for an onion address *)

(** The address is the one stored for the device. *)
Definition onion_address_of (devices : list (string * pyval))
  (onion_address device : string) : bool :=
  match stored_item devices device "onion_address" with
  | Val registered => py_eq (PStr onion_address) registered
  | Exc _ => false
  end.

(** The address is the one of a registered device. *)
Definition onion_assigned (devices : list (string * pyval)) (onion_address : string)
  : bool :=
  existsb (onion_address_of devices onion_address) (dict_keys devices).

(** The warnings for an address that is refused, one for each device that
    has it. *)
Definition onion_warnings (devices : list (string * pyval)) (onion_address : string)
  : list onion_warning :=
  map (OnionAddressRegistered onion_address)
    (List.filter (onion_address_of devices onion_address) (dict_keys devices)).

(** ** Dictionaries *)

Section Dictionaries.

Context {V : Type}.
Implicit Types (d : list (string * V)) (k : string) (v : V).

Lemma dict_get_set k k' v d :
  dict_get k' (dict_set k v d) = if String.eqb k' k then Some v else dict_get k' d.
Proof.
  induction d as [|[k0 v0] d IH]; simpl.
  - destruct (String.eqb_spec k' k); reflexivity.
  - destruct (String.eqb_spec k k0) as [->|Hk]; simpl.
    + destruct (String.eqb_spec k' k0); reflexivity.
    + rewrite IH. destruct (String.eqb_spec k' k0) as [->|]; [|reflexivity].
      destruct (String.eqb_spec k0 k); congruence.
Qed.

Lemma dict_get_del k k' d :
  dict_get k' (dict_del k d) = if String.eqb k' k then None else dict_get k' d.
Proof.
  induction d as [|[k0 v0] d IH]; simpl.
  - destruct (String.eqb k' k); reflexivity.
  - destruct (String.eqb_spec k k0) as [->|Hk]; simpl.
    + rewrite IH. destruct (String.eqb_spec k' k0); reflexivity.
    + rewrite IH. destruct (String.eqb_spec k' k0) as [->|]; [|reflexivity].
      destruct (String.eqb_spec k0 k); congruence.
Qed.

Lemma dict_get_In k v d : dict_get k d = Some v -> In (k, v) d.
Proof.
  induction d as [|[k0 v0] d IH]; simpl; [discriminate|].
  destruct (String.eqb_spec k k0) as [->|]; [|auto].
  intros [= ->]. auto.
Qed.

Lemma dict_get_None k d : dict_get k d = None <-> ~ In k (dict_keys d).
Proof.
  induction d as [|[k0 v0] d IH]; simpl; [tauto|].
  destruct (String.eqb_spec k k0) as [->|Hk].
  - split; [discriminate|]. intros H. exfalso. auto.
  - rewrite IH. split; [intros H [E|E]; congruence|tauto].
Qed.

Lemma dict_has_false k d : dict_has d k = false <-> ~ In k (dict_keys d).
Proof.
  unfold dict_has. rewrite bool_decide_eq_false, <- dict_get_None.
  rewrite <- eq_None_not_Some. reflexivity.
Qed.

Lemma dict_keys_set_new k v d :
  ~ In k (dict_keys d) -> dict_set k v d = (d ++ [(k, v)])%list.
Proof.
  induction d as [|[k0 v0] d IH]; simpl; [reflexivity|].
  intros H. destruct (String.eqb_spec k k0) as [->|]; [tauto|].
  rewrite IH; tauto.
Qed.

Lemma dict_keys_set_old k v d :
  In k (dict_keys d) -> dict_keys (dict_set k v d) = dict_keys d.
Proof.
  induction d as [|[k0 v0] d IH]; simpl; [tauto|].
  destruct (String.eqb_spec k k0) as [->|Hk]; [reflexivity|].
  intros [E|H]; [congruence|]. simpl. f_equal. auto.
Qed.

Lemma dict_keys_del k d : dict_keys (dict_del k d) = filter (fun x => x <> k) (dict_keys d).
Proof.
  induction d as [|[k0 v0] d IH]; simpl; [reflexivity|].
  destruct (String.eqb_spec k k0) as [->|Hk].
  - rewrite IH. rewrite filter_cons_False; [reflexivity|]. simpl. tauto.
  - simpl. rewrite IH. rewrite filter_cons_True; [reflexivity|]. simpl. congruence.
Qed.

Lemma Forall_dict_set (P : string * V -> Prop) k v d :
  Forall P d -> P (k, v) -> (forall v', In (k, v') d -> P (k, v)) ->
  Forall P (dict_set k v d).
Proof.
  intros Hd Hv _. induction Hd as [|[k0 v0] d H0 Hd IH]; simpl.
  - constructor; [assumption|constructor].
  - destruct (String.eqb_spec k k0) as [->|]; constructor; auto.
Qed.

Lemma Forall_dict_del (P : string * V -> Prop) k d :
  Forall P d -> Forall P (dict_del k d).
Proof.
  induction 1 as [|[k0 v0] d H0 Hd IH]; simpl; [constructor|].
  destruct (String.eqb k k0); [assumption|constructor; assumption].
Qed.

End Dictionaries.

(** ** The loader *)

Section LoaderProofs.
Context {validation : Validation}.

Lemma py_eq_str_l s x : py_eq (PStr s) x = true <-> x = PStr s.
Proof.
  split.
  - destruct x; simpl; try discriminate.
    intros H. apply String.eqb_eq in H. congruence.
  - intros ->. simpl. apply String.eqb_refl.
Qed.

Lemma py_eq_values l : py_eq (PList values) (PList l) = true <-> l = values.
Proof.
  split.
  - unfold values.
    do 5 (try destruct l as [|? l]); try (simpl; discriminate);
      try (simpl; rewrite ?andb_false_r; discriminate).
    change (py_eq (PStr "ip_address") p && (py_eq (PStr "port") p0 &&
            (py_eq (PStr "onion_address") p1 && (py_eq (PStr "clients") p2 && true))) = true
            -> [p; p0; p1; p2] = [PStr "ip_address"; PStr "port"; PStr "onion_address"; PStr "clients"]).
    rewrite !andb_true_iff, !py_eq_str_l. intros (-> & -> & -> & -> & _). reflexivity.
  - intros ->. reflexivity.
Qed.

Lemma for_each_clients device_name clients :
  for_each (m := result) clients (fun '(client_name, public_key) =>
     if negb (validate_base32_key public_key)
     then Exc (TypeError (InvalidPublicKey client_name device_name))
     else mret tt) = Val tt <->
  forallb (fun kv => validate_base32_key kv.2) clients = true.
Proof.
  induction clients as [|[c k] clients IH]; simpl; [tauto|].
  destruct (validate_base32_key k); simpl; [exact IH|].
  split; discriminate.
Qed.

Lemma validate_device_accepted device_name device_value :
  validate_device device_name device_value = Val tt <->
  device_accepted device_value = true.
Proof.
  unfold validate_device.
  destruct device_value as [| | |s|l|d]; simpl unpack; cbn [mbind result_bind];
    try (simpl; split; discriminate).
  - destruct (py_eq (PList values) _) eqn:E; simpl; [|split; discriminate].
    apply py_eq_values in E. exfalso.
    destruct s as [|c1 [|c2 s]]; simpl in E; try discriminate.
  - destruct (py_eq (PList values) _) eqn:E; simpl; split; discriminate.
  - destruct (py_eq (PList values) _) eqn:E; simpl.
    + apply py_eq_values in E. unfold values, dict_keys in E.
      destruct d as [|[k1 v1] [|[k2 v2] [|[k3 v3] [|[k4 v4] [|? ?]]]]]; try discriminate.
      simpl in E. injection E as -> -> -> ->. 
      cbn.
      destruct (validate_ip_address v1); cbn; [|destruct v4; split; discriminate].
      destruct (validate_port v2); cbn; [|destruct v4; split; discriminate].
      destruct (validate_onion_v3_address v3); cbn; [|destruct v4; split; discriminate].
      destruct v4; cbn; try (split; discriminate).
      apply for_each_clients.
    + split; [discriminate|]. intros H. exfalso.
      destruct d as [|[k1 v1] [|[k2 v2] [|[k3 v3] [|[k4 v4] [|? ?]]]]]; try discriminate;
        destruct v4; try discriminate. simpl in H.
      rewrite !andb_true_iff, !String.eqb_eq in H.
      destruct H as (((((((-> & ->) & ->) & ->) & _) & _) & _) & _).
      discriminate.
Qed.

Lemma for_each_devices devices :
  for_each (m := result) devices (fun '(device_name, device_value) =>
     validate_device device_name device_value) = Val tt <->
  forallb (fun kv => device_accepted kv.2) devices = true.
Proof.
  induction devices as [|[n v] devices IH]; simpl; [tauto|].
  rewrite andb_true_iff, <- IH, <- (validate_device_accepted n v).
  destruct (validate_device n v) as [[]|e]; simpl; [tauto|].
  split; [discriminate|]. intros [? _]. discriminate.
Qed.


Lemma validate_file_ok x devices :
  validate_file x = Val devices <->
  x = PDict devices /\ forallb (fun kv => device_accepted kv.2) devices = true.
Proof.
  unfold validate_file. destruct x; simpl; try (split; [discriminate|intros [? _]; discriminate]).
  split.
  - intros H. destruct (for_each d _) as [[]|e] eqn:E; simpl in H; [|discriminate].
    injection H as <-. split; [reflexivity|]. apply for_each_devices. exact E.
  - intros [[= ->] H]. apply for_each_devices in H. rewrite H. reflexivity.
Qed.



Lemma pyval_strong_ind (P : pyval -> Prop) :
  P PNone -> (forall b, P (PBool b)) -> (forall z, P (PInt z)) ->
  (forall s, P (PStr s)) ->
  (forall l, Forall P l -> P (PList l)) ->
  (forall d, Forall (fun kv => P kv.2) d -> P (PDict d)) ->
  forall v, P v.
Proof.
  intros HN HB HI HS HL HD. fix IH 1.
  intros [| b | z | s | l | d];
    [apply HN | apply HB | apply HI | apply HS | | ].
  - apply HL. induction l as [|x l IHl]; constructor; [apply IH|exact IHl].
  - apply HD. induction d as [|[k x] d IHd]; constructor; [apply IH|exact IHd].
Qed.

Lemma same_json_refl v : same_json v v.
Proof.
  induction v as [| | | |l IH|d IH] using pyval_strong_ind; try constructor.
  - induction IH; constructor; assumption.
  - intros k. destruct (dict_get k d) as [x|] eqn:E; constructor.
    apply dict_get_In in E. rewrite List.Forall_forall in IH. exact (IH _ E).
Qed.



Lemma load_present w x :
  registered_devices_file w = Some x ->
  _get_registered_devices w = lift (validate_file x) w.
Proof. unfold _get_registered_devices. intros ->. reflexivity. Qed.

Lemma load_accepted w devices :
  registered_devices_file w = Some (PDict devices) ->
  forallb (fun kv => device_accepted kv.2) devices = true ->
  _get_registered_devices w = Ok devices w.
Proof.
  intros Hf Hd. rewrite (load_present _ _ Hf).
  assert (validate_file (PDict devices) = Val devices) as ->
    by (apply validate_file_ok; auto).
  reflexivity.
Qed.


(** C9.  When the loader accepts the file [x], saving the registry it
    returned writes a file equal to [x] up to the order of the keys of its
    mappings. *)
Theorem save_of_load_restores_file (w w' : world) (x : pyval) :
  registered_devices_file w = Some x ->
  (__init__ ;; _set_registered_devices) w = Ok tt w' ->
  exists x', registered_devices_file w' = Some x' /\ same_json x' x.
Proof.
  intros Hf. unfold __init__, mbind, M_bind.
  rewrite (load_present _ _ Hf).
  destruct (validate_file x) as [devices|e] eqn:Hv; simpl; [|discriminate].
  apply validate_file_ok in Hv as [-> _].
  intros [= <-]. simpl. eexists; split; [reflexivity|apply same_json_refl].
Qed.

(** C10.  The loader checks every device entry on its own: a file whose
    entries each pass the checks is returned as it is.  So two devices with
    the same IP address, port and onion address are accepted, and so is a
    device whose clients map is empty. *)
Theorem load_checks_each_device_alone (w : world) :
  (forall devices,
      registered_devices_file w = Some (PDict devices) ->
      forallb (fun kv => device_accepted kv.2) devices = true ->
      _get_registered_devices w = Ok devices w) /\
  (forall a b ip_address port onion_address clients_a clients_b,
      a <> b ->
      device_accepted (device_entry ip_address port onion_address clients_a) = true ->
      device_accepted (device_entry ip_address port onion_address clients_b) = true ->
      let devices :=
        [(a, device_entry ip_address port onion_address clients_a);
         (b, device_entry ip_address port onion_address clients_b)] in
      registered_devices_file w = Some (PDict devices) ->
      _get_registered_devices w = Ok devices w) /\
  (forall a ip_address port onion_address,
      validate_ip_address ip_address = true ->
      validate_port port = true ->
      validate_onion_v3_address onion_address = true ->
      let devices := [(a, device_entry ip_address port onion_address [])] in
      registered_devices_file w = Some (PDict devices) ->
      _get_registered_devices w = Ok devices w).
Proof.
  split; [exact (load_accepted w)|]. split.
  - intros a b ip port onion ca cb _ Ha Hb devices Hf.
    apply load_accepted; [exact Hf|]. unfold devices.
    cbn [forallb snd]. rewrite Ha, Hb. reflexivity.
  - intros a ip port onion Hip Hport Honion devices Hf.
    apply load_accepted; [exact Hf|]. simpl. rewrite Hip, Hport, Honion.
    reflexivity.
Qed.

End LoaderProofs.



Lemma save_of_load_restores_file_witness :
  let w := Sample.file_world Sample.file_clash in
  exists x', registered_devices_file
               (final ((__init__ (validation := Sample.validation) ;;
                        _set_registered_devices) w)) = Some x' /\
             same_json x' Sample.file_clash.
Proof.
  intros w.
  apply (save_of_load_restores_file (validation := Sample.validation) w _
           Sample.file_clash); [reflexivity|].
  vm_compute. reflexivity.
Defined.

Lemma load_checks_each_device_alone_witness :
  let w := Sample.file_world Sample.file_clash in
  _get_registered_devices (validation := Sample.validation) w
  = Ok [("A", Sample.device_1 [("c1", PStr Sample.key_1)]);
        ("B", Sample.device_1 [])] w.
Proof.
  intros w.
  apply (proj1 (load_checks_each_device_alone (validation := Sample.validation) w));
    [reflexivity|vm_compute; reflexivity].
Defined.

(** ** Running computations *)

Lemma run_bind {A B : Type} (c : M A) (f : A -> M B) (w : world) :
  (c ≫= f) w = match c w with
               | Ok a w' => f a w'
               | Raise e w' => Raise e w'
               end.
Proof. reflexivity. Qed.





#[local] Instance only_talked_preorder : PreOrder only_talked.
Proof.
  split.
  - intros w. split; reflexivity.
  - intros w1 w2 w3 [H1 H2] [H3 H4]. split; congruence.
Qed.

#[local] Instance registry_kept_preorder : PreOrder registry_kept.
Proof.
  split.
  - intros w. repeat split; reflexivity.
  - intros w1 w2 w3 (?&?&?) (?&?&?). repeat split; congruence.
Qed.

Lemma only_talked_registry_kept w w' : only_talked w w' -> registry_kept w w'.
Proof.
  unfold only_talked, stores, registry_kept. intros [[= -> -> _] ->]. auto.
Qed.

Section Preservation.

Context {A : Type} (R : relation world) `{!PreOrder R}.

Lemma preserves_ret (a : A) : preserves R (mret a).
Proof. intros w. simpl. reflexivity. Qed.

Lemma preserves_raise (e : exn) : preserves R (raise (A := A) e).
Proof. intros w. simpl. reflexivity. Qed.

Lemma preserves_lift (r : result A) : preserves R (lift r).
Proof. intros w. destruct r; simpl; reflexivity. Qed.

Lemma preserves_bind {B : Type} (c : M B) (f : B -> M A) :
  preserves R c -> (forall b, preserves R (f b)) -> preserves R (c ≫= f).
Proof.
  intros Hc Hf w. rewrite run_bind. specialize (Hc w).
  destruct (c w) as [b w1|e w1]; simpl in *; [|exact Hc].
  etransitivity; [exact Hc|apply Hf].
Qed.

Lemma preserves_for_fold {B : Type} (l : list B) (s : A) (body : A -> B -> M A) :
  (forall s x, preserves R (body s x)) -> preserves R (for_fold l s body).
Proof.
  intros Hb. revert s. induction l as [|x l IH]; intros s; simpl.
  - apply preserves_ret.
  - apply preserves_bind; auto.
Qed.

End Preservation.

Lemma preserves_weaken {A : Type} (R R' : relation world) (c : M A) :
  (forall w w', R w w' -> R' w w') -> preserves R c -> preserves R' c.
Proof. intros H Hc w. apply H, Hc. Qed.

Section Talk.

Context {builtins : Builtins}.

Lemma talk_set_answers a : preserves only_talked (set_answers a).
Proof. intros w. split; reflexivity. Qed.

Lemma talk_log l m : preserves only_talked (log l m).
Proof. intros w. split; reflexivity. Qed.

Lemma talk_get_devices : preserves only_talked get_devices.
Proof. intros w. split; reflexivity. Qed.

Lemma talk_and_then a b : preserves only_talked b -> preserves only_talked (and_then a b).
Proof. intros Hb. destruct a; simpl; [exact Hb|apply preserves_ret; apply _]. Qed.

Ltac talk :=
  repeat first
    [ apply talk_set_answers | apply talk_log | apply talk_get_devices
    | apply preserves_ret; apply _ | apply preserves_raise; apply _
    | apply preserves_lift; apply _
    | apply talk_and_then
    | apply preserves_bind; [apply _| |intros ?]
    | apply preserves_for_fold; [apply _|intros ? ?]
    | match goal with
      | |- preserves _ (if ?b then _ else _) => destruct b
      | |- preserves _ (match ?x with _ => _ end) => destruct x
      | |- preserves _ (let '(_, _) := ?x in _) => destruct x
      end ].

Lemma talk_prompt_device_name devices : preserves only_talked (prompt_device_name devices).
Proof.
  assert (forall script, preserves only_talked (prompt_device_name_loop devices script)) as H.
  { induction script as [|answer script IH]; simpl; talk. exact IH. }
  intros w. apply H.
Qed.

Lemma talk_prompt_client_name devices device_name :
  preserves only_talked (prompt_client_name devices device_name).
Proof.
  assert (forall script,
    preserves only_talked (prompt_client_name_loop devices device_name script)) as H.
  { induction script as [|answer script IH]; simpl; talk; exact IH. }
  intros w. apply H.
Qed.

Lemma talk_prompt_ip_address_body port ip_address duplicate item :
  preserves only_talked (prompt_ip_address_body port ip_address duplicate item).
Proof. unfold prompt_ip_address_body. talk. Qed.

Lemma talk_prompt_ip_address devices port :
  preserves only_talked (prompt_ip_address devices port).
Proof.
  assert (forall script,
    preserves only_talked (prompt_ip_address_loop devices port script)) as H.
  { induction script as [|answer script IH]; simpl; talk;
      try apply talk_prompt_ip_address_body; exact IH. }
  intros w. apply H.
Qed.

Lemma talk_prompt_port_body ip_address port duplicate item :
  preserves only_talked (prompt_port_body ip_address port duplicate item).
Proof. unfold prompt_port_body. talk. Qed.

Lemma talk_prompt_port devices ip_address :
  preserves only_talked (prompt_port devices ip_address).
Proof.
  assert (forall script,
    preserves only_talked (prompt_port_loop devices ip_address script)) as H.
  { induction script as [|answer script IH]; simpl; talk;
      try apply talk_prompt_port_body; exact IH. }
  intros w. apply H.
Qed.

Lemma talk_prompt_public_key : preserves only_talked prompt_public_key.
Proof. intros w. unfold prompt_public_key. destruct (answers w); split; reflexivity. Qed.

Lemma talk_device_item device_name key : preserves only_talked (device_item device_name key).
Proof. unfold device_item. talk. Qed.

End Talk.


#[local] Instance same_stores_preorder : PreOrder same_stores.
Proof. split; [intros w; reflexivity|intros w1 w2 w3; unfold same_stores; congruence]. Qed.


Lemma talked_same_stores {A : Type} (c : M A) :
  preserves only_talked c -> preserves same_stores c.
Proof. apply preserves_weaken. intros w w' [H _]. exact H. Qed.

Lemma raises_cleanly_preserves {A : Type} (c : M A) :
  preserves same_stores c -> raises_cleanly c.
Proof. intros Hc w e w' H. specialize (Hc w). rewrite H in Hc. exact Hc. Qed.

Lemma raises_cleanly_bind {A B : Type} (c : M A) (f : A -> M B) :
  preserves same_stores c -> (forall a, raises_cleanly (f a)) ->
  raises_cleanly (c ≫= f).
Proof.
  intros Hc Hf w e w'. rewrite run_bind. specialize (Hc w).
  destruct (c w) as [a w1|e1 w1]; simpl in Hc.
  - intros H. apply Hf in H. unfold same_stores in Hc. congruence.
  - intros [= <- <-]. exact Hc.
Qed.

Section Coordinator.

Context {builtins : Builtins} {daemon : TorDaemon}.

Lemma add_device_raises_cleanly : raises_cleanly _add_device.
Proof.
  unfold _add_device.
  apply raises_cleanly_bind; [apply talked_same_stores, talk_get_devices|intros devices].
  apply raises_cleanly_bind;
    [apply talked_same_stores, talk_prompt_device_name|intros device_name].
  apply raises_cleanly_bind;
    [apply talked_same_stores, talk_prompt_ip_address|intros ip_address].
  apply raises_cleanly_bind; [apply preserves_lift; apply _|intros class].
  destruct class.
  2: { apply raises_cleanly_preserves, talked_same_stores, talk_log. }
  apply raises_cleanly_bind;
    [apply talked_same_stores, talk_prompt_port|intros port].
  apply raises_cleanly_bind;
    [apply talked_same_stores, talk_prompt_client_name|intros client_name].
  apply raises_cleanly_bind;
    [apply talked_same_stores, talk_prompt_public_key|intros public_key].
  apply raises_cleanly_bind; [apply talked_same_stores, talk_log|intros _].
  apply raises_cleanly_bind; [intros w; reflexivity|intros _].
  intros w e w'. unfold create_disk_v3_onion_service, mbind, M_bind. cbn.
  destruct (created_address _ _ _ _ _ _); cbn; [discriminate|].
  intros [= <- <-]. reflexivity.
Qed.

(** C3.  If the creation of the onion service raises in [_add_device],
    the registry in memory, the registry file and the service directory
    tree are what they were before the call. *)
Theorem add_device_failure_leaves_no_partial_device (w w' : world) :
  _add_device w = Raise ControlProtocolError w' ->
  registered_devices w' = registered_devices w /\
  registered_devices_file w' = registered_devices_file w /\
  onion_service_main_dir w' = onion_service_main_dir w.
Proof.
  intros H. apply add_device_raises_cleanly in H.
  unfold stores in H. injection H as -> -> ->. auto.
Qed.

End Coordinator.

Lemma add_device_failure_leaves_no_partial_device_witness :
  let w := World [] None ∅ ["B"; "192.168.1.10"; "9000"; "c1"; "KEY2"] [] [] in
  let w' := final (_add_device (builtins := Sample.builtins)
                     (daemon := Sample.daemon_down) w) in
  registered_devices w' = [] /\
  registered_devices_file w' = None /\
  onion_service_main_dir w' = ∅.
Proof.
  intros w w'.
  apply (add_device_failure_leaves_no_partial_device
           (builtins := Sample.builtins) (daemon := Sample.daemon_down) w w').
  vm_compute. reflexivity.
Defined.

Section StartAll.

Context {daemon : TorDaemon}.

Lemma keep_emit e :
  (forall s, e <> EvSave s) -> preserves registry_kept (emit e).
Proof.
  intros He w. repeat split; simpl.
  unfold saves. rewrite omap_app. simpl.
  destruct e; try (rewrite app_nil_r; reflexivity). exfalso. eapply He. reflexivity.
Qed.

Lemma keep_talked {A : Type} (c : M A) :
  preserves only_talked c -> preserves registry_kept c.
Proof. apply preserves_weaken, only_talked_registry_kept. Qed.

Lemma keep_start_service onion_service_dir port ip_address :
  preserves registry_kept (start_disk_v3_onion_service onion_service_dir port ip_address).
Proof.
  unfold start_disk_v3_onion_service.
  apply preserves_bind; [apply _|intros w; repeat split; reflexivity|intros t].
  destruct (started_address _ _ _ _).
  - apply preserves_bind; [apply _|apply keep_emit; discriminate|intros _].
    apply preserves_ret; apply _.
  - apply preserves_raise; apply _.
Qed.

Lemma keep_start_proxy_body counter device :
  preserves registry_kept (start_proxy_body counter device).
Proof.
  unfold start_proxy_body.
  apply preserves_bind; [apply _|apply keep_talked, talk_device_item|intros port].
  apply preserves_bind; [apply _|apply keep_talked, talk_device_item|intros ip].
  apply preserves_bind; [apply _|apply keep_start_service|intros address].
  apply preserves_bind; [apply _|apply keep_talked, talk_device_item|intros stored].
  destruct (negb _).
  - apply preserves_bind; [apply _|apply keep_talked, talk_log|intros _].
    apply preserves_ret; apply _.
  - apply preserves_ret; apply _.
Qed.

Lemma keep_start_proxy : preserves registry_kept start_proxy.
Proof.
  unfold start_proxy, start_services, start_tor, tor_proc_wait.
  apply preserves_bind; [apply _|apply keep_emit; discriminate|intros _].
  apply preserves_bind; [apply _| |intros n].
  - apply preserves_bind; [apply _|apply keep_talked, talk_get_devices|intros devices].
    apply preserves_for_fold; [apply _|apply keep_start_proxy_body].
  - destruct (1 <=? n).
    + apply preserves_bind; [apply _|apply keep_talked, talk_log|intros _].
      apply keep_emit; discriminate.
    + apply keep_talked, talk_log.
Qed.

Lemma start_proxy_body_step counter device w n w' :
  start_proxy_body counter device w = Ok n w' ->
  exists port ip_address onion_service_address onion_address,
    stored_item (registered_devices w) device "port" = Val port /\
    stored_item (registered_devices w) device "ip_address" = Val ip_address /\
    started_address (onion_service_main_dir w) device port ip_address
      = Some onion_service_address /\
    stored_item (registered_devices w) device "onion_address" = Val onion_address /\
    registered_devices w' = registered_devices w /\
    onion_service_main_dir w' = onion_service_main_dir w /\
    if py_eq (PStr onion_service_address) onion_address
    then n = counter + 1 /\ logged w' = logged w
    else n = counter /\
         logged w' = (logged w ++ [(Warning, OnionAddressChanged device)])%list.
Proof.
  unfold start_proxy_body, device_item, start_disk_v3_onion_service.
  unfold mbind, M_bind, get_devices, get_dirs, lift. cbn -[py_eq]. intros H.
  destruct (stored_item _ device "port") as [port|] eqn:Hp; [|discriminate].
  destruct (stored_item _ device "ip_address") as [ip|] eqn:Hi; [|discriminate].
  destruct (started_address _ _ _ _) as [address|] eqn:Ha; [|discriminate].
  cbn -[py_eq] in H.
  destruct (stored_item _ device "onion_address") as [onion|] eqn:Ho; [|discriminate].
  exists port, ip, address, onion.
  destruct (py_eq (PStr address) onion); cbn in H; injection H as <- <-; cbn; auto 10.
Qed.

Lemma start_services_count keys : forall counter w n w',
  for_fold keys counter start_proxy_body w = Ok n w' ->
  n = counter + Z.of_nat (length (List.filter
        (address_confirmed (onion_service_main_dir w) (registered_devices w)) keys)).
Proof.
  induction keys as [|device keys IH]; intros counter w n w'.
  - simpl. intros [= <- <-]. lia.
  - cbn [for_fold]. rewrite run_bind.
    destruct (start_proxy_body counter device w) as [n1 w1|] eqn:Hb; [|discriminate].
    intros H. apply IH in H.
    apply start_proxy_body_step in Hb
      as (port & ip & address & onion & Hp & Hi & Ha & Ho & Hr & Ht & Hn).
    rewrite Hr, Ht in H. cbn [List.filter].
    assert (address_confirmed (onion_service_main_dir w) (registered_devices w) device
            = py_eq (PStr address) onion) as ->
      by (unfold address_confirmed; rewrite Hp, Hi, Ho, Ha; reflexivity).
    destruct (py_eq (PStr address) onion); destruct Hn as [-> _]; simpl length; lia.
Qed.

(** C4.  [start_proxy] keeps the registry and never writes its file.  A
    device whose service starts at an address other than the stored one is
    warned about and is not counted; a device whose address is the stored
    one is counted; the counter at the end is the number of the latter. *)
Theorem start_proxy_leaves_the_registry_alone (w : world) :
  registry_kept w (final (start_proxy w)) /\
  (forall counter device n w',
      start_proxy_body counter device w = Ok n w' ->
      exists port ip_address onion_service_address onion_address,
        stored_item (registered_devices w) device "port" = Val port /\
        stored_item (registered_devices w) device "ip_address" = Val ip_address /\
        started_address (onion_service_main_dir w) device port ip_address
          = Some onion_service_address /\
        stored_item (registered_devices w) device "onion_address" = Val onion_address /\
        registered_devices w' = registered_devices w /\
        onion_service_main_dir w' = onion_service_main_dir w /\
        if py_eq (PStr onion_service_address) onion_address
        then n = counter + 1 /\ logged w' = logged w
        else n = counter /\
             logged w' = (logged w ++ [(Warning, OnionAddressChanged device)])%list) /\
  (forall service_counter w',
      start_services w = Ok service_counter w' ->
      service_counter =
      Z.of_nat (length (List.filter
        (address_confirmed (onion_service_main_dir w) (registered_devices w))
        (dict_keys (registered_devices w))))).
Proof.
  split; [apply keep_start_proxy|]. split.
  - intros counter device n w'. apply start_proxy_body_step.
  - intros n w'. unfold start_services, mbind, M_bind, get_devices.
    intros H. apply start_services_count in H. lia.
Qed.

End StartAll.

Lemma only_talked_world w w' :
  only_talked w w' ->
  w' = World (registered_devices w) (registered_devices_file w)
             (onion_service_main_dir w) (answers w') (effects w) (logged w').
Proof.
  destruct w, w'. unfold only_talked, stores. simpl.
  intros [[= -> -> ->] ->]. reflexivity.
Qed.

Section Rename.

Context {builtins : Builtins}.

Lemma prompt_device_name_fresh devices w name w' :
  prompt_device_name devices w = Ok name w' ->
  dict_get name devices = None.
Proof.
  unfold prompt_device_name. generalize (answers w) as script. intros script. revert w.
  induction script as [|answer script IH]; intros w; simpl; [discriminate|].
  unfold mbind, M_bind, set_answers. 
  destruct (dict_has devices (strip answer)) eqn:E.
  - cbn. apply IH.
  - cbn. intros [= <- <-]. unfold dict_has in E.
    apply bool_decide_eq_false in E. apply eq_None_not_Some. exact E.
Qed.

(** C6.  Renaming a device moves its directory first and then swaps the
    key in the registry and saves: the entry is found under the new name
    with the value it had, no other entry changes, and the old name is
    gone.  If the move raises, the registry, its file and the directories
    are what they were. *)
Theorem rename_device_moves_first (w : world) (onion_service_dir device_name : string) :
  (forall e w',
      rename_device onion_service_dir device_name w = Raise e w' ->
      e = FileNotFoundError \/ e = OSError ->
      stores w' = stores w /\ effects w' = effects w) /\
  (forall new_device_name new_onion_service_dir w',
      rename_device onion_service_dir device_name w
        = Ok (new_device_name, new_onion_service_dir) w' ->
      new_onion_service_dir = new_device_name /\
      onion_service_main_dir w' !! new_device_name
        = onion_service_main_dir w !! onion_service_dir /\
      is_Some (onion_service_main_dir w !! onion_service_dir) /\
      (onion_service_dir <> new_device_name ->
       onion_service_main_dir w' !! onion_service_dir = None) /\
      effects w' = (effects w ++
                    [EvMoveDir onion_service_dir new_device_name;
                     EvSave (PDict (registered_devices w'))])%list /\
      registered_devices_file w' = Some (PDict (registered_devices w')) /\
      exists device_value,
        dict_get device_name (registered_devices w) = Some device_value /\
        dict_get new_device_name (registered_devices w') = Some device_value /\
        dict_get device_name (registered_devices w') = None /\
        forall other,
          other <> device_name -> other <> new_device_name ->
          dict_get other (registered_devices w')
          = dict_get other (registered_devices w)).
Proof.
  unfold rename_device. rewrite run_bind. cbn [get_devices].
  rewrite run_bind.
  pose proof (talk_prompt_device_name (registered_devices w) w) as Ht.
  destruct (prompt_device_name (registered_devices w) w) as [new w1|e1 w1] eqn:Hp;
    cbn [final] in Ht.
  2: { split; [|discriminate]. intros e w' [= <- <-] _. exact Ht. }
  apply prompt_device_name_fresh in Hp.
  rewrite (only_talked_world _ _ Ht). clear Ht.
  generalize (answers w1) (logged w1). intros a1 l1.
  unfold replace_dir, mbind, M_bind, get_dirs, get_devices, put_dirs, put_devices,
    emit, raise, lift, dict_pop, dict_item, _set_registered_devices, log.
  cbn.
  assert (Hfin : forall (t : service_dirs) (v : pyval) a l,
    dict_get device_name (registered_devices w) = Some v ->
    let w' := with_log Info (DeviceRenamed device_name new)
      (with_effect (EvSave (PDict (dict_set new v (dict_del device_name (registered_devices w)))))
        (with_file (Some (PDict (dict_set new v (dict_del device_name (registered_devices w)))))
          (with_devices (dict_set new v (dict_del device_name (registered_devices w)))
            (with_effect (EvMoveDir onion_service_dir new)
              (World (registered_devices w) (registered_devices_file w) t a (effects w) l))))) in
    effects w' = (effects w ++ [EvMoveDir onion_service_dir new;
                                EvSave (PDict (registered_devices w'))])%list /\
    registered_devices_file w' = Some (PDict (registered_devices w')) /\
    exists device_value,
      dict_get device_name (registered_devices w) = Some device_value /\
      dict_get new (registered_devices w') = Some device_value /\
      dict_get device_name (registered_devices w') = None /\
      forall other, other <> device_name -> other <> new ->
        dict_get other (registered_devices w') = dict_get other (registered_devices w)).
  { intros t v a l Hg. cbn. split; [rewrite <- app_assoc; reflexivity|].
    split; [reflexivity|]. exists v. split; [exact Hg|].
    rewrite !dict_get_set, !dict_get_del, !String.eqb_refl.
    split; [reflexivity|]. split.
    - destruct (String.eqb_spec device_name new) as [E|]; [congruence|reflexivity].
    - intros other H1 H2. rewrite dict_get_set, dict_get_del.
      destruct (String.eqb_spec other new); [congruence|].
      destruct (String.eqb_spec other device_name); [congruence|reflexivity]. }
  destruct (onion_service_main_dir w !! onion_service_dir) as [d|] eqn:Hd.
  2: { split; [intros e w' [= <- <-] _; split; reflexivity|discriminate]. }
  destruct (bool_decide (onion_service_dir = new)) eqn:Heq;
    [|destruct (onion_service_main_dir w !! new) eqn:Hn].
  2: { split; [intros e w' [= <- <-] _; split; reflexivity|discriminate]. }
  all: cbn; destruct (dict_get device_name (registered_devices w)) as [v|] eqn:Hg; cbn.
  all: split; [intros e w' [= <- <-] [?|?]; discriminate|].
  all: try discriminate.
  all: intros ? ? ? [= <- <- <-]; split; [reflexivity|].
  - apply bool_decide_eq_true in Heq. subst new.
    split; [exact Hd|]. split; [eauto|]. split; [congruence|].
    exact (Hfin (onion_service_main_dir w) v a1 l1 eq_refl).
  - apply bool_decide_eq_false in Heq.
    split; [cbn; rewrite lookup_insert_eq; congruence|].
    split; [eauto|].
    split; [intros _; cbn; rewrite lookup_insert_ne, lookup_delete_eq; congruence|].
    exact (Hfin _ v a1 l1 eq_refl).
Qed.

End Rename.

Arguments M_bind {A B} f c w /.
Arguments M_ret {A} a w /.

Ltac run :=
  unfold mbind, mret, get_dirs, get_devices, put_dirs, put_devices,
    emit, raise, lift, log, set_answers, _set_registered_devices;
  cbn -[py_eq].

Section Clients.

Context {daemon : TorDaemon}.

Lemma stored_item_set_same devices device_name d key x :
  stored_item (dict_set device_name (PDict (dict_set key x d)) devices) device_name key
  = Val x.
Proof.
  unfold stored_item, dict_item. rewrite dict_get_set, String.eqb_refl. cbn.
  unfold dict_item. rewrite dict_get_set, String.eqb_refl. reflexivity.
Qed.

Lemma stored_item_set_other_key devices device_name d key key' x :
  key' <> key ->
  dict_get device_name devices = Some (PDict d) ->
  stored_item (dict_set device_name (PDict (dict_set key x d)) devices) device_name key'
  = stored_item devices device_name key'.
Proof.
  intros Hk Hd. unfold stored_item, dict_item. rewrite dict_get_set, String.eqb_refl, Hd.
  cbn. unfold dict_item. rewrite dict_get_set.
  destruct (String.eqb_spec key' key); [congruence|reflexivity].
Qed.

(** C7.  [_add_client] raises [FileNotFoundError] and changes nothing when
    the directory of the device does not exist.  Otherwise the artifact of
    the client is written first: if that write raises, nothing is changed;
    if it succeeds, the client is then added to the clients of the device
    and the registry is saved. *)
Theorem add_client_writes_the_artifact_first
  (w : world) (device_name client_name public_key : string) :
  (onion_service_main_dir w !! device_name = None ->
   _add_client device_name client_name public_key w = Raise FileNotFoundError w) /\
  (is_Some (onion_service_main_dir w !! device_name) ->
   auth_written (onion_service_main_dir w) device_name public_key client_name = false ->
   _add_client device_name client_name public_key w = Raise ControlProtocolError w) /\
  (forall auth d clients,
      onion_service_main_dir w !! device_name = Some auth ->
      auth_written (onion_service_main_dir w) device_name public_key client_name = true ->
      dict_get device_name (registered_devices w) = Some (PDict d) ->
      dict_get "clients" d = Some (PDict clients) ->
      exists w',
        _add_client device_name client_name public_key w = Ok tt w' /\
        onion_service_main_dir w'
          = <[device_name := <[client_name := public_key]> auth]>
              (onion_service_main_dir w) /\
        effects w' = (effects w ++
                      [EvWriteAuth device_name client_name;
                       EvSave (PDict (registered_devices w'))])%list /\
        registered_devices_file w' = Some (PDict (registered_devices w')) /\
        stored_item (registered_devices w') device_name "clients"
          = Val (PDict (dict_set client_name (PStr public_key) clients)) /\
        (forall key, key <> "clients" ->
           stored_item (registered_devices w') device_name key
           = stored_item (registered_devices w) device_name key) /\
        (forall other, other <> device_name ->
           dict_get other (registered_devices w')
           = dict_get other (registered_devices w))).
Proof.
  unfold _add_client, dir_exists, add_disk_v3_onion_service_auth, change_clients.
  split; [|split].
  - intros Hd. run. rewrite Hd. reflexivity.
  - intros [auth Hd] Hw. run. rewrite Hd. cbn. rewrite Hw. reflexivity.
  - intros auth d clients Hd Hw Hg Hc. run. rewrite Hd. cbn. rewrite Hw. cbn.
    unfold dict_item. rewrite Hg. cbn. unfold dict_item. rewrite Hc. cbn.
    eexists. split; [reflexivity|]. cbn.
    split; [rewrite Hd; reflexivity|]. split; [rewrite <- app_assoc; reflexivity|].
    split; [reflexivity|]. split; [apply stored_item_set_same|].
    split.
    + intros key Hk. apply stored_item_set_other_key; assumption.
    + intros other Ho. rewrite dict_get_set.
      destruct (String.eqb_spec other device_name); [congruence|reflexivity].
Qed.

End Clients.


Section KeySets.

Context {V : Type}.
Implicit Types (d : list (string * V)) (k : string).

Lemma keys_of_dict_del k d :
  list_to_set (C := gset string) (dict_keys (dict_del k d))
  = list_to_set (dict_keys d) ∖ {[k]}.
Proof.
  induction d as [|[k0 v0] d IH]; simpl; [set_solver|].
  destruct (String.eqb_spec k k0) as [->|Hk]; simpl; rewrite IH; set_solver.
Qed.

Lemma keys_of_dict_set k v d :
  list_to_set (C := gset string) (dict_keys (dict_set k v d))
  = {[k]} ∪ list_to_set (dict_keys d).
Proof.
  induction d as [|[k0 v0] d IH]; simpl; [set_solver|].
  destruct (String.eqb_spec k k0) as [->|Hk]; simpl; [|rewrite IH]; set_solver.
Qed.

Lemma keys_empty d : list_to_set (C := gset string) (dict_keys d) = ∅ <-> d = [].
Proof.
  split; [|intros ->; reflexivity].
  destruct d as [|[k v] d]; [reflexivity|]. simpl. set_solver.
Qed.

Lemma dict_del_set k v d : dict_del k (dict_set k v d) = dict_del k d.
Proof.
  induction d as [|[k0 v0] d IH]; simpl.
  - rewrite String.eqb_refl. reflexivity.
  - destruct (String.eqb_spec k k0) as [->|Hk]; simpl.
    + rewrite String.eqb_refl. reflexivity.
    + destruct (String.eqb_spec k k0); [congruence|]. rewrite IH. reflexivity.
Qed.

End KeySets.

Lemma mirrors_delete auth clients client_name :
  mirrors auth clients ->
  mirrors (delete client_name auth) (dict_del client_name clients).
Proof.
  unfold mirrors. intros H. rewrite dom_delete_L, keys_of_dict_del, H. reflexivity.
Qed.

Lemma mirrors_empty auth clients :
  mirrors auth clients -> (auth = ∅ <-> clients = []).
Proof.
  unfold mirrors. intros H. rewrite <- dom_empty_iff_L, H. apply keys_empty.
Qed.

Section Cascade.

Context {daemon : TorDaemon}.

(** C2.  [_delete_client] removes the authorization file of the client,
    removes the client from the registry and saves; then, when no client
    is left, it removes the directory of the device and the device from
    the registry and saves again. *)
Theorem delete_client_cascades (w : world) (device_name client_name : string)
  (d clients : list (string * pyval)) (auth : auth_files) :
  dict_get device_name (registered_devices w) = Some (PDict d) ->
  dict_get "clients" d = Some (PDict clients) ->
  onion_service_main_dir w !! device_name = Some auth ->
  is_Some (auth !! client_name) ->
  mirrors auth clients ->
  let remaining := dict_del client_name clients in
  let devices_1 :=
    dict_set device_name (PDict (dict_set "clients" (PDict remaining) d))
      (registered_devices w) in
  exists w',
    _delete_client device_name device_name client_name w = Ok tt w' /\
    registered_devices_file w' = Some (PDict (registered_devices w')) /\
    match remaining with
    | [] =>
        registered_devices w' = dict_del device_name (registered_devices w) /\
        onion_service_main_dir w' = delete device_name (onion_service_main_dir w) /\
        effects w' = (effects w ++
                      [EvUnlink device_name client_name; EvSave (PDict devices_1);
                       EvRmtree device_name;
                       EvSave (PDict (registered_devices w'))])%list
    | _ :: _ =>
        registered_devices w' = devices_1 /\
        onion_service_main_dir w'
          = <[device_name := delete client_name auth]> (onion_service_main_dir w) /\
        effects w' = (effects w ++
                      [EvUnlink device_name client_name;
                       EvSave (PDict devices_1)])%list
    end.
Proof.
  intros Hg Hc Hd [key Hk] Hm remaining devices_1.
  assert (Hin : dict_get client_name clients <> None).
  { apply (not_elem_of_dom (D := gset string)) in Hk || idtac.
    intros Hn. apply dict_get_None in Hn.
    assert (client_name ∈ dom auth) as Hdom by (apply elem_of_dom; eauto).
    rewrite Hm in Hdom. apply elem_of_list_to_set, list_elem_of_In in Hdom. tauto. }
  destruct (dict_get client_name clients) as [x|] eqn:Hx; [clear Hin|congruence].
  pose proof (mirrors_empty _ _ (mirrors_delete _ _ client_name Hm)) as He.
  fold remaining in He.
  unfold _delete_client, unlink, change_clients, check_existing_onion_service_auth,
    _delete_device, rmtree.
  run. rewrite Hd, Hk. cbn.
  unfold dict_item. rewrite Hg. cbn. unfold dict_item. rewrite Hc. cbn.
  unfold dict_pop, dict_item. rewrite Hx. cbn.
  rewrite lookup_insert_eq. fold remaining. fold devices_1.
  destruct (bool_decide (delete client_name auth = ∅)) eqn:Hb; cbn.
  - apply bool_decide_eq_true in Hb. apply He in Hb. rewrite Hb.
    rewrite lookup_insert_eq. cbn.
    unfold dict_pop, dict_item, devices_1. rewrite dict_get_set, String.eqb_refl. cbn.
    eexists. split; [reflexivity|]. cbn.
    rewrite dict_del_set, delete_insert_eq, <- !app_assoc. auto.
  - apply bool_decide_eq_false in Hb.
    destruct remaining as [|r remaining'] eqn:Hr; [exfalso; apply Hb, He; reflexivity|].
    eexists. split; [reflexivity|]. cbn. rewrite <- !app_assoc. auto.
Qed.

End Cascade.

Lemma delete_client_cascades_witness :
  exists w',
    _delete_client "A" "A" "c1" (Sample.world_A []) = Ok tt w' /\
    registered_devices_file w' = Some (PDict (registered_devices w')) /\
    registered_devices w' = [] /\
    onion_service_main_dir w' = ∅ /\
    effects w' = [EvUnlink "A" "c1";
                  EvSave (PDict [("A", device_entry (PStr "10.0.0.5") (PInt 8080)
                                         (PStr "abcd...onion") [])]);
                  EvRmtree "A";
                  EvSave (PDict (registered_devices w'))].
Proof.
  apply (delete_client_cascades (Sample.world_A []) "A" "c1"
           [("ip_address", PStr "10.0.0.5"); ("port", PInt 8080);
            ("onion_address", PStr "abcd...onion");
            ("clients", PDict [("c1", PStr "KEY1")])]
           [("c1", PStr "KEY1")] {[ "c1" := "KEY1" ]});
    try reflexivity.
  exists "KEY1". reflexivity.
Defined.

(** ** Changing the IP address or the port *)

Lemma entry_shaped_inv device_value :
  entry_shaped device_value = true ->
  exists ip_address port onion_address clients,
    device_value = device_entry ip_address port onion_address clients.
Proof.
  destruct device_value as [| | | | |d]; try discriminate.
  destruct d as [|[k1 v1] [|[k2 v2] [|[k3 v3] [|[k4 v4] [|? ?]]]]]; try discriminate;
    destruct v4; try discriminate.
  simpl. rewrite !andb_true_iff, !String.eqb_eq.
  intros (((-> & ->) & ->) & ->). unfold device_entry. eauto.
Qed.

Section Network.

Context {builtins : Builtins}.

Lemma prompt_ip_address_scan port ip_address devices : forall duplicate w,
  registry_shaped devices = true ->
  is_None port = false ->
  exists w',
    for_fold devices duplicate (prompt_ip_address_body port ip_address) w
    = Ok (duplicate || pair_assigned devices (PStr ip_address) port) w' /\
    only_talked w w' /\ answers w' = answers w.
Proof.
  induction devices as [|[name value] devices IH]; intros duplicate w Hs Hp.
  - simpl. rewrite orb_false_r. exists w. split; [reflexivity|]. split; [split; reflexivity|reflexivity].
  - simpl in Hs. apply andb_true_iff in Hs as [Hv Hs].
    apply entry_shaped_inv in Hv as (i & p & o & c & ->).
    cbn [for_fold]. rewrite run_bind.
    unfold prompt_ip_address_body at 1. rewrite Hp. run.
    unfold pair_assigned. cbn [existsb snd]. unfold same_pair at 1. cbn -[py_eq].
    destruct (py_eq i (PStr ip_address)); cbn -[py_eq];
      [destruct (py_eq p port); cbn -[py_eq]|].
    + destruct (IH true (with_log Warning (SameIpAndPort name) w) Hs Hp)
        as (w' & -> & [Ht1 Ht2] & Ha).
      exists w'. rewrite orb_true_r. cbn. split; [reflexivity|].
      split; [split; assumption|assumption].
    + destruct (IH duplicate w Hs Hp) as (w' & -> & Ht & Ha).
      exists w'. auto.
    + destruct (IH duplicate w Hs Hp) as (w' & -> & Ht & Ha).
      exists w'. auto.
Qed.


Lemma prompt_ip_address_step devices port answer script w :
  registry_shaped devices = true ->
  is_None port = false ->
  exists w1,
    only_talked w w1 /\ answers w1 = script /\
    prompt_ip_address_loop (Some devices) port (answer :: script) w
    = if pair_assigned devices (PStr answer) port
      then prompt_ip_address_loop (Some devices) port script w1
      else Ok answer w1.
Proof.
  intros Hs Hp. cbn [prompt_ip_address_loop]. run.
  destruct (prompt_ip_address_scan port answer devices false (with_answers script w) Hs Hp)
    as (w1 & -> & Ht & Ha).
  exists w1. split; [exact Ht|]. split; [exact Ha|].
  cbn. destruct (pair_assigned _ _ _); reflexivity.
Qed.

Lemma prompt_port_scan ip_address port devices : forall duplicate w,
  registry_shaped devices = true ->
  exists w',
    for_fold devices duplicate (prompt_port_body ip_address port) w
    = Ok (duplicate || pair_assigned devices ip_address (PInt port)) w' /\
    only_talked w w' /\ answers w' = answers w.
Proof.
  induction devices as [|[name value] devices IH]; intros duplicate w Hs.
  - simpl. rewrite orb_false_r. exists w. split; [reflexivity|].
    split; [split; reflexivity|reflexivity].
  - simpl in Hs. apply andb_true_iff in Hs as [Hv Hs].
    apply entry_shaped_inv in Hv as (i & p & o & c & ->).
    cbn [for_fold]. rewrite run_bind.
    unfold prompt_port_body at 1. run.
    unfold pair_assigned. cbn [existsb snd]. unfold same_pair at 1. cbn -[py_eq].
    destruct (py_eq i ip_address); cbn -[py_eq];
      [destruct (py_eq p (PInt port)); cbn -[py_eq]|].
    + destruct (IH true (with_log Warning (SameIpAndPort name) w) Hs)
        as (w' & -> & [Ht1 Ht2] & Ha).
      exists w'. rewrite orb_true_r. cbn. split; [reflexivity|].
      split; [split; assumption|assumption].
    + destruct (IH duplicate w Hs) as (w' & -> & Ht & Ha).
      exists w'. auto.
    + destruct (IH duplicate w Hs) as (w' & -> & Ht & Ha).
      exists w'. auto.
Qed.

Lemma prompt_port_step devices ip_address answer port script w :
  registry_shaped devices = true ->
  is_None ip_address = false ->
  int_of_str answer = Some port ->
  exists w1,
    only_talked w w1 /\ answers w1 = script /\
    prompt_port_loop (Some devices) ip_address (answer :: script) w
    = if pair_assigned devices ip_address (PInt port)
      then prompt_port_loop (Some devices) ip_address script w1
      else Ok port w1.
Proof.
  intros Hs Hp Hint. cbn [prompt_port_loop]. unfold int. rewrite Hint, Hp. run.
  destruct (prompt_port_scan ip_address port devices false (with_answers script w) Hs)
    as (w1 & -> & Ht & Ha).
  exists w1. split; [exact Ht|]. split; [exact Ha|].
  cbn. destruct (pair_assigned _ _ _); reflexivity.
Qed.

Lemma own_pair_assigned devices device_name ip_address port :
  stored_item devices device_name "ip_address" = Val ip_address ->
  stored_item devices device_name "port" = Val port ->
  py_eq ip_address ip_address = true ->
  py_eq port port = true ->
  pair_assigned devices ip_address port = true.
Proof.
  unfold stored_item, dict_item. intros Hi Hp Hii Hpp.
  destruct (dict_get device_name devices) as [v|] eqn:Hg; [|discriminate].
  cbn in Hi, Hp. apply dict_get_In in Hg.
  unfold pair_assigned. apply existsb_exists. exists (device_name, v).
  split; [exact Hg|]. unfold same_pair. cbn [snd]. rewrite Hi, Hp, Hii, Hpp. reflexivity.
Qed.

Lemma stored_item_dict device_name key devices x :
  stored_item devices device_name key = Val x ->
  exists d, dict_get device_name devices = Some (PDict d) /\ dict_get key d = Some x.
Proof.
  unfold stored_item, dict_item.
  destruct (dict_get device_name devices) as [[| | | | |d]|]; try discriminate.
  cbn. unfold dict_item. destruct (dict_get key d) eqn:E; [|discriminate].
  intros [= <-]. eauto.
Qed.

Lemma set_device_item_changes device_name key x w d :
  dict_get device_name (registered_devices w) = Some (PDict d) ->
  forall m a l,
  field_changed device_name key x w
    (with_log Info m
       (with_effect
          (EvSave (PDict (dict_set device_name (PDict (dict_set key x d))
                            (registered_devices w))))
          (with_file
             (Some (PDict (dict_set device_name (PDict (dict_set key x d))
                             (registered_devices w))))
             (with_devices
                (dict_set device_name (PDict (dict_set key x d)) (registered_devices w))
                (World (registered_devices w) (registered_devices_file w)
                   (onion_service_main_dir w) a (effects w) l))))).
Proof.
  intros Hg m a l. unfold field_changed. cbn.
  split; [apply stored_item_set_same|].
  split; [intros key' Hk; apply stored_item_set_other_key; assumption|].
  split; [|auto].
  intros other Ho. rewrite dict_get_set.
  destruct (String.eqb_spec other device_name); [congruence|reflexivity].
Qed.

(** What the branches "Change IP address" and "Change webinterface port"
    do on every input.  They only change the registry.  An answer is
    rejected, and asked for again with nothing changed, exactly when its
    pair with the other, stored, value is the pair of a registered device.
    The prompts are given the whole registry, so the device being changed
    counts and its own current pair is rejected too, although their
    docstrings speak of a pair "already assigned to another registered
    device".  An IPv6 address is rejected with nothing changed.  An
    accepted answer replaces that one field of that device, and the
    registry is saved. *)
Theorem change_network_rejects_every_assigned_pair
  (w : world) (device_name answer : string) (script : list string)
  (ip_address port : pyval) :
  registry_shaped (registered_devices w) = true ->
  answers w = answer :: script ->
  stored_item (registered_devices w) device_name "ip_address" = Val ip_address ->
  stored_item (registered_devices w) device_name "port" = Val port ->
  is_None ip_address = false ->
  is_None port = false ->
  (py_eq ip_address ip_address = true -> py_eq port port = true ->
   pair_assigned (registered_devices w) ip_address port = true) /\
  (exists w1,
      only_talked w w1 /\ answers w1 = script /\
      if pair_assigned (registered_devices w) (PStr answer) port
      then change_ip_address device_name w = change_ip_address device_name w1
      else match ip_address_type answer with
           | None => change_ip_address device_name w = Raise ValueError w1
           | Some IPv6Address =>
               change_ip_address device_name w
               = Ok tt (with_log Error IPv6Unsupported w1)
           | Some IPv4Address =>
               exists w',
                 change_ip_address device_name w = Ok tt w' /\
                 field_changed device_name "ip_address" (PStr answer) w w'
           end) /\
  (forall new_port,
      int_of_str answer = Some new_port ->
      exists w1,
        only_talked w w1 /\ answers w1 = script /\
        if pair_assigned (registered_devices w) ip_address (PInt new_port)
        then change_webinterface_port device_name w
             = change_webinterface_port device_name w1
        else exists w',
               change_webinterface_port device_name w = Ok tt w' /\
               field_changed device_name "port" (PInt new_port) w w').
Proof.
  intros Hs Ha Hi Hp Hni Hnp.
  split; [intros H1 H2; exact (own_pair_assigned _ device_name _ _ Hi Hp H1 H2)|].
  destruct (stored_item_dict _ _ _ _ Hi) as (d & Hg & _).
  split.
  - destruct (prompt_ip_address_step (registered_devices w) port answer script w Hs Hnp)
      as (w1 & Ht & Ha1 & Hstep).
    exists w1. split; [exact Ht|]. split; [exact Ha1|].
    pose proof (only_talked_world _ _ Ht) as Hw1.
    unfold change_ip_address, device_item, prompt_ip_address, set_device_item,
      ip_address_class.
    run. rewrite Hi, Hp. cbn. rewrite Ha, Hstep.
    destruct (pair_assigned _ _ _).
    + destruct Ht as [Hst _]. injection Hst as Hr _ _.
      do 4 (rewrite ?Hr, ?Hi, ?Hp, ?Ha1; cbn). reflexivity.
    + destruct (ip_address_type answer) as [[|]|]; cbn; try reflexivity.
      unfold dict_item. rewrite Hw1. cbn. rewrite Hg. cbn.
      eexists. split; [reflexivity|].
      apply (set_device_item_changes device_name "ip_address" (PStr answer) w d Hg).
  - intros new_port Hint.
    destruct (prompt_port_step (registered_devices w) ip_address answer new_port script w
                Hs Hni Hint) as (w1 & Ht & Ha1 & Hstep).
    exists w1. split; [exact Ht|]. split; [exact Ha1|].
    pose proof (only_talked_world _ _ Ht) as Hw1.
    unfold change_webinterface_port, device_item, prompt_port, set_device_item.
    run. rewrite Hp. cbn. rewrite Hi. cbn. rewrite Ha, Hstep.
    destruct (pair_assigned _ _ _).
    + destruct Ht as [Hst _]. injection Hst as Hr _ _.
      do 4 (rewrite ?Hr, ?Hi, ?Hp, ?Ha1; cbn). reflexivity.
    + unfold dict_item. rewrite Hw1. cbn. rewrite Hg. cbn.
      eexists. split; [reflexivity|].
      apply (set_device_item_changes device_name "port" (PInt new_port) w d Hg).
Qed.

End Network.

(** ** Coherence of the registry and the directories *)

Lemma device_coherent_inv t name v :
  device_coherent t (name, v) = true <->
  exists ip_address port onion_address clients auth,
    v = device_entry ip_address port onion_address clients /\
    clients <> [] /\ t !! name = Some auth /\ mirrors auth clients.
Proof.
  unfold device_coherent, mirrors. cbn [fst snd]. split.
  - destruct v as [| | | | |d]; try discriminate.
    destruct d as [|[k1 v1] [|[k2 v2] [|[k3 v3] [|[k4 v4] [|? ?]]]]]; try discriminate;
      destruct v4 as [| | | | |clients]; try discriminate.
    destruct (t !! name) as [auth|]; [|rewrite andb_false_r; discriminate].
    rewrite !andb_true_iff, !String.eqb_eq, negb_true_iff, bool_decide_eq_false,
      bool_decide_eq_true.
    intros (((((-> & ->) & ->) & ->) & Hc) & Hm). unfold device_entry. eauto 10.
  - intros (ip & port & onion & clients & auth & -> & Hc & -> & Hm).
    cbn. apply andb_true_iff. split;
      [apply negb_true_iff, bool_decide_eq_false; exact Hc
      |apply bool_decide_eq_true; exact Hm].
Qed.

Lemma device_coherent_ext t t' name v :
  t' !! name = t !! name ->
  device_coherent t' (name, v) = device_coherent t (name, v).
Proof. unfold device_coherent. cbn [fst snd]. intros ->. reflexivity. Qed.

Lemma coherent_inv w :
  coherent w = true <->
  NoDup (dict_keys (registered_devices w)) /\
  Forall (fun item => device_coherent (onion_service_main_dir w) item = true)
    (registered_devices w).
Proof.
  unfold coherent. rewrite andb_true_iff, bool_decide_eq_true, forallb_forall,
    List.Forall_forall. reflexivity.
Qed.

Lemma coherent_lookup w device_name v :
  coherent w = true ->
  dict_get device_name (registered_devices w) = Some v ->
  device_coherent (onion_service_main_dir w) (device_name, v) = true.
Proof.
  intros [_ H]%coherent_inv Hg. apply dict_get_In in Hg.
  rewrite List.Forall_forall in H. exact (H _ Hg).
Qed.

Section Updates.

Context (t t' : service_dirs) (device_name : string).
Hypothesis others : forall name, name <> device_name -> t' !! name = t !! name.

Lemma Forall_coherent_set devices v :
  NoDup (dict_keys devices) ->
  Forall (fun item => device_coherent t item = true) devices ->
  device_coherent t' (device_name, v) = true ->
  Forall (fun item => device_coherent t' item = true) (dict_set device_name v devices).
Proof.
  intros Hn Hd Hv. induction devices as [|[k0 v0] devices IH]; simpl.
  - constructor; [exact Hv|constructor].
  - apply NoDup_cons in Hn as [Hk Hn]. apply Forall_cons in Hd as [H0 Hd].
    destruct (String.eqb_spec device_name k0) as [->|Hne].
    + constructor; [exact Hv|].
      rewrite List.Forall_forall in Hd |- *. intros [n x] Hin.
      rewrite (device_coherent_ext t t'); [exact (Hd _ Hin)|].
      apply others. intros ->. apply Hk. apply list_elem_of_In.
      apply (in_map fst) in Hin. exact Hin.
    + constructor; [|auto].
      rewrite (device_coherent_ext t t'); [exact H0|]. apply others. congruence.
Qed.

Lemma Forall_coherent_del devices :
  Forall (fun item => device_coherent t item = true) devices ->
  Forall (fun item => device_coherent t' item = true) (dict_del device_name devices).
Proof.
  induction 1 as [|[k0 v0] devices H0 Hd IH]; simpl; [constructor|].
  destruct (String.eqb_spec device_name k0) as [->|Hne]; [exact IH|].
  constructor; [|exact IH].
  rewrite (device_coherent_ext t t'); [exact H0|]. apply others. congruence.
Qed.

End Updates.

Lemma NoDup_dict_set {V : Type} (k : string) (v : V) d :
  NoDup (dict_keys d) -> NoDup (dict_keys (dict_set k v d)).
Proof.
  intros Hn. destruct (decide (k ∈ dict_keys d)) as [Hin|Hin];
    rewrite list_elem_of_In in Hin.
  - rewrite dict_keys_set_old; assumption.
  - rewrite dict_keys_set_new by assumption. unfold dict_keys. rewrite map_app. simpl.
    apply NoDup_app. split; [exact Hn|]. split.
    + intros x Hx [->|[]]%list_elem_of_In. apply Hin, list_elem_of_In, Hx.
    + apply NoDup_singleton.
Qed.

Lemma NoDup_dict_del {V : Type} (k : string) (d : list (string * V)) :
  NoDup (dict_keys d) -> NoDup (dict_keys (dict_del k d)).
Proof. intros Hn. rewrite dict_keys_del. apply NoDup_filter. exact Hn. Qed.

Lemma coherent_set w device_name v t' w' :
  coherent w = true ->
  (forall name, name <> device_name -> t' !! name = onion_service_main_dir w !! name) ->
  device_coherent t' (device_name, v) = true ->
  registered_devices w' = dict_set device_name v (registered_devices w) ->
  onion_service_main_dir w' = t' ->
  coherent w' = true.
Proof.
  intros [Hn Hd]%coherent_inv Ho Hv Hr Ht. apply coherent_inv. rewrite Hr, Ht.
  split; [apply NoDup_dict_set, Hn|].
  apply (Forall_coherent_set (onion_service_main_dir w)); assumption.
Qed.

Lemma coherent_del w device_name t' w' :
  coherent w = true ->
  (forall name, name <> device_name -> t' !! name = onion_service_main_dir w !! name) ->
  registered_devices w' = dict_del device_name (registered_devices w) ->
  onion_service_main_dir w' = t' ->
  coherent w' = true.
Proof.
  intros [Hn Hd]%coherent_inv Ho Hr Ht. apply coherent_inv. rewrite Hr, Ht.
  split; [apply NoDup_dict_del, Hn|].
  apply (Forall_coherent_del (onion_service_main_dir w)); assumption.
Qed.

Lemma coherent_same w w' :
  registered_devices w' = registered_devices w ->
  onion_service_main_dir w' = onion_service_main_dir w ->
  coherent w' = coherent w.
Proof. unfold coherent. intros -> ->. reflexivity. Qed.

Lemma coherent_has_clients w :
  coherent w = true ->
  every_device_has_a_client (PDict (registered_devices w)) = true.
Proof.
  intros [_ Hd]%coherent_inv. cbn. apply forallb_forall.
  rewrite List.Forall_forall in Hd. intros [n v] Hin.
  apply Hd, device_coherent_inv in Hin as (ip & port & onion & clients & auth & -> & Hc & _).
  cbn. destruct clients; [congruence|reflexivity].
Qed.

Lemma lasting_of_saves new :
  Forall (fun s => every_device_has_a_client s = true) (saves new) -> lasting new.
Proof.
  induction new as [|e new IH]; [constructor|].
  destruct e; cbn; try (intros H; apply lasting_other; [discriminate|auto]).
  intros [H1 H2]%Forall_cons. apply lasting_save; auto.
Qed.

Lemma lasting_app es1 es2 : lasting es1 -> lasting es2 -> lasting (es1 ++ es2).
Proof.
  intros H1 H2. induction H1; cbn; [assumption| | |].
  - apply lasting_other; assumption.
  - apply lasting_save; assumption.
  - apply lasting_cascade; assumption.
Qed.

(** What the two snapshots of [lasting_cascade] say: the second one does
    not list the device, and every other device of the first one has a
    client. *)
Lemma cascade_snapshots device_name devices :
  every_device_has_a_client (PDict (dict_del device_name devices)) = true ->
  dict_get device_name (dict_del device_name devices) = None /\
  forall other entry,
    other <> device_name ->
    dict_get other devices = Some entry ->
    exists client clients,
      subscript entry "clients" = Val (PDict (client :: clients)).
Proof.
  intros H. split.
  - rewrite dict_get_del, String.eqb_refl. reflexivity.
  - intros other entry Hne Hg. cbn in H. rewrite forallb_forall in H.
    assert (Hin : In (other, entry) (dict_del device_name devices)).
    { apply dict_get_In. rewrite dict_get_del.
      destruct (String.eqb_spec other device_name); [contradiction|exact Hg]. }
    specialize (H _ Hin). cbn in H.
    destruct (subscript entry "clients") as [[| | | | |[|client clients]]|];
      try discriminate.
    eauto.
Qed.

Lemma settled_kept {A : Type} w (out : outcome A) : settled w out -> kept w out.
Proof.
  intros [H1 (new & H2 & H3)]. split; [exact H1|].
  exists new. split; [exact H2|apply lasting_of_saves, H3].
Qed.

Lemma settled_raise {A : Type} w e w' new :
  effects w' = (effects w ++ new)%list -> saves new = [] ->
  settled w (Raise (A := A) e w').
Proof.
  intros He Hs. split; [intros []|]. exists new. split; [exact He|].
  rewrite Hs. constructor.
Qed.

Lemma settled_ok {A : Type} w (a : A) w' new :
  coherent w' = true ->
  effects w' = (effects w ++ new)%list ->
  saves new = [] \/ saves new = [PDict (registered_devices w')] ->
  settled w (Ok a w').
Proof.
  intros Hc He Hs. split; [intros _; exact Hc|]. exists new. split; [exact He|].
  destruct Hs as [-> | ->]; [constructor|].
  constructor; [apply coherent_has_clients, Hc|constructor].
Qed.

Ltac grown :=
  cbn; first [ symmetry; apply app_nil_r | rewrite <- ?app_assoc; reflexivity ].

Ltac unsaved := eapply settled_raise; [grown|reflexivity].

Lemma coherent_field t device_name d key x :
  device_coherent t (device_name, PDict d) = true ->
  key = "ip_address" \/ key = "port" ->
  device_coherent t (device_name, PDict (dict_set key x d)) = true.
Proof.
  intros (ip & port & onion & clients & auth & [= ->] & Hc & Ht & Hm)%device_coherent_inv Hk.
  apply device_coherent_inv.
  destruct Hk as [-> | ->]; cbn; unfold device_entry; eauto 10.
Qed.

Section Operations.

Context {builtins : Builtins} {daemon : TorDaemon}.

Lemma change_ip_address_settled w device_name :
  coherent w = true -> settled w (change_ip_address device_name w).
Proof.
  intros Hc.
  unfold change_ip_address, device_item, set_device_item, ip_address_class. run.
  destruct (stored_item _ device_name "ip_address") as [ip0|] eqn:Hi; cbn; [|unsaved].
  destruct (stored_item _ device_name "port") as [p0|] eqn:Hp; cbn; [|unsaved].
  destruct (stored_item_dict _ _ _ _ Hi) as (d & Hg & _).
  pose proof (talk_prompt_ip_address (Some (registered_devices w)) p0 w) as Ht.
  destruct (prompt_ip_address _ _ w) as [a w1|e w1]; cbn [final] in Ht;
    rewrite (only_talked_world _ _ Ht); [|unsaved].
  destruct (ip_address_type a) as [[|]|]; cbn; [| |unsaved].
  - unfold dict_item. rewrite Hg. cbn.
    eapply settled_ok; [|grown|right; reflexivity].
    eapply (coherent_set w device_name); [exact Hc|reflexivity| |reflexivity|reflexivity].
    apply coherent_field; [|auto]. apply (coherent_lookup w); assumption.
  - eapply settled_ok; [|grown|left; reflexivity].
    rewrite <- Hc. apply coherent_same; reflexivity.
Qed.

Lemma change_webinterface_port_settled w device_name :
  coherent w = true -> settled w (change_webinterface_port device_name w).
Proof.
  intros Hc.
  unfold change_webinterface_port, device_item, set_device_item. run.
  destruct (stored_item _ device_name "port") as [p0|] eqn:Hp; cbn; [|unsaved].
  destruct (stored_item _ device_name "ip_address") as [ip0|] eqn:Hi; cbn; [|unsaved].
  destruct (stored_item_dict _ _ _ _ Hi) as (d & Hg & _).
  pose proof (talk_prompt_port (Some (registered_devices w)) ip0 w) as Ht.
  destruct (prompt_port _ _ w) as [a w1|e w1]; cbn [final] in Ht;
    rewrite (only_talked_world _ _ Ht); [|unsaved].
  cbn. unfold dict_item. rewrite Hg. cbn.
  eapply settled_ok; [|grown|right; reflexivity].
  eapply (coherent_set w device_name); [exact Hc|reflexivity| |reflexivity|reflexivity].
  apply coherent_field; [|auto]. apply (coherent_lookup w); assumption.
Qed.


Arguments prompt_device_name : simpl never.
Arguments prompt_client_name : simpl never.
Arguments prompt_ip_address : simpl never.
Arguments prompt_port : simpl never.
Arguments prompt_public_key : simpl never.

Ltac ask c lem x :=
  let Ht := fresh "Ht" in
  let w1 := fresh "w1" in
  pose proof lem as Ht; unfold preserves in Ht;
  match goal with
  | |- context [match c ?w with _ => _ end] =>
      specialize (Ht w); destruct (c w) as [x w1|? w1]; cbn [final] in Ht;
      rewrite (only_talked_world _ _ Ht); clear Ht; cbn -[py_eq]; [|unsaved]
  end.

Lemma add_device_settled w :
  coherent w = true -> settled w (_add_device w).
Proof.
  intros Hc.
  unfold _add_device, ip_address_class, create_disk_v3_onion_service, start_tor,
    terminate_tor. run.
  ask (prompt_device_name (registered_devices w))
      (talk_prompt_device_name (registered_devices w)) device_name.
  ask (prompt_ip_address None PNone) (talk_prompt_ip_address None PNone) ip_address.
  destruct (ip_address_type _) as [[|]|]; cbn; [| |unsaved].
  2: { eapply settled_ok; [|grown|left; reflexivity].
       rewrite <- Hc. apply coherent_same; reflexivity. }
  match goal with
  | |- context [prompt_port ?d ?i] => ask (prompt_port d i) (talk_prompt_port d i) port
  end.
  ask (prompt_client_name (registered_devices w) None)
      (talk_prompt_client_name (registered_devices w) None) client_name.
  ask prompt_public_key talk_prompt_public_key public_key.
  destruct (created_address _ _ _ _ _ _) as [address|]; cbn; [|unsaved].
  eapply settled_ok; [|grown|right; reflexivity].
  eapply (coherent_set w); [exact Hc| | |reflexivity|reflexivity].
  - intros name Hn. cbn. apply lookup_insert_ne. congruence.
  - apply device_coherent_inv. do 5 eexists. split; [reflexivity|].
    split; [discriminate|]. split; [cbn; apply lookup_insert_eq|].
    unfold mirrors. cbn. rewrite dom_singleton_L. set_solver.
Qed.

Lemma delete_device_settled w device_name :
  coherent w = true -> settled w (_delete_device device_name device_name w).
Proof.
  intros Hc. unfold _delete_device, rmtree, dict_pop, dict_item. run.
  destruct (onion_service_main_dir w !! device_name) as [auth|]; cbn; [|unsaved].
  destruct (dict_get device_name (registered_devices w)) as [v|]; cbn; [|unsaved].
  eapply settled_ok; [|grown|right; reflexivity].
  eapply (coherent_del w device_name); [exact Hc| |reflexivity|reflexivity].
  intros name Hn. apply lookup_delete_ne. congruence.
Qed.

Lemma rename_device_settled w device_name :
  coherent w = true -> settled w (rename_device device_name device_name w).
Proof.
  intros Hc. unfold rename_device, replace_dir, dict_pop, dict_item. run.
  ask (prompt_device_name (registered_devices w))
      (talk_prompt_device_name (registered_devices w)) new.
  destruct (onion_service_main_dir w !! device_name) as [auth|] eqn:Hd; cbn; [|unsaved].
  destruct (dict_get device_name (registered_devices w)) as [v|] eqn:Hg.
  2: { destruct (bool_decide (device_name = new)); cbn; [rewrite Hg; cbn; unsaved|].
       destruct (onion_service_main_dir w !! new); cbn; [unsaved|].
       rewrite Hg. cbn. unsaved. }
  pose proof (coherent_lookup _ _ _ Hc Hg) as Hv.
  assert (Hmid : forall a l,
    coherent (World (dict_del device_name (registered_devices w))
                (registered_devices_file w)
                (delete device_name (onion_service_main_dir w)) a (effects w) l) = true).
  { intros a l. eapply (coherent_del w device_name); [exact Hc| |reflexivity|reflexivity].
    intros name Hn. apply lookup_delete_ne. congruence. }
  destruct (bool_decide (device_name = new)) eqn:Heq; cbn.
  - apply bool_decide_eq_true in Heq. subst new. rewrite Hg. cbn.
    eapply settled_ok; [|grown|right; reflexivity].
    eapply (coherent_set _ device_name v (onion_service_main_dir w));
      [exact (Hmid [] [])| |exact Hv|reflexivity|reflexivity].
    intros name Hn. cbn. symmetry. apply lookup_delete_ne. congruence.
  - destruct (onion_service_main_dir w !! new) eqn:Hnew; cbn; [unsaved|].
    rewrite Hg. cbn.
    eapply settled_ok; [|grown|right; reflexivity].
    eapply (coherent_set _ new v); [exact (Hmid [] [])| | |reflexivity|reflexivity].
    + intros name Hn. cbn. apply lookup_insert_ne. congruence.
    + apply device_coherent_inv in Hv
        as (ip & port & onion & clients & auth' & -> & Hne & Ha & Hm).
      apply device_coherent_inv. do 5 eexists. split; [reflexivity|].
      split; [exact Hne|]. split; [cbn; apply lookup_insert_eq|]. congruence.
Qed.


Lemma dict_set_not_nil {V : Type} (k : string) (v : V) d : dict_set k v d <> [].
Proof. destruct d as [|[k0 v0] d]; simpl; [|destruct (String.eqb k k0)]; discriminate. Qed.

Lemma coherent_clients w device_name ip_address port onion_address
  clients' auth' w' :
  coherent w = true ->
  clients' <> [] ->
  mirrors auth' clients' ->
  registered_devices w'
    = dict_set device_name (device_entry ip_address port onion_address clients')
        (registered_devices w) ->
  onion_service_main_dir w' = <[device_name := auth']> (onion_service_main_dir w) ->
  coherent w' = true.
Proof.
  intros Hc Hne Hm Hr Ht.
  eapply (coherent_set w device_name); [exact Hc| | |exact Hr|exact Ht].
  - intros name Hn. apply lookup_insert_ne. congruence.
  - apply device_coherent_inv. do 5 eexists. split; [reflexivity|].
    split; [exact Hne|]. split; [apply lookup_insert_eq|exact Hm].
Qed.

Lemma add_new_client_settled w device_name :
  coherent w = true -> settled w (add_new_client device_name w).
Proof.
  intros Hc.
  unfold add_new_client, _add_client, dir_exists, add_disk_v3_onion_service_auth,
    change_clients, device_item, dict_item. run.
  ask (prompt_client_name (registered_devices w) (Some device_name))
      (talk_prompt_client_name (registered_devices w) (Some device_name)) client_name.
  ask prompt_public_key talk_prompt_public_key public_key.
  destruct (onion_service_main_dir w !! device_name) as [auth|] eqn:Hd; cbn; [|unsaved].
  destruct (auth_written _ _ _ _); cbn; [|unsaved].
  destruct (dict_get device_name (registered_devices w)) as [v|] eqn:Hg; cbn; [|unsaved].
  apply (coherent_lookup _ _ _ Hc), device_coherent_inv in Hg
    as (ip & port & onion & clients & auth' & -> & Hne & Ha & Hm).
  cbn. unfold stored_item, dict_item. rewrite dict_get_set, String.eqb_refl. cbn.
  eapply settled_ok; [|grown|right; reflexivity].
  eapply (coherent_clients w device_name); [exact Hc| | |reflexivity|reflexivity].
  - apply dict_set_not_nil.
  - unfold mirrors in *. rewrite dom_insert_L, keys_of_dict_set.
    assert (auth' = auth) as -> by congruence. rewrite Hd. cbn. rewrite Hm. reflexivity.
Qed.

Lemma rename_client_settled w device_name client_name :
  coherent w = true -> settled w (rename_client device_name device_name client_name w).
Proof.
  intros Hc.
  unfold rename_client, replace_auth, change_clients, dict_item. run.
  ask (prompt_client_name (registered_devices w) (Some device_name))
      (talk_prompt_client_name (registered_devices w) (Some device_name)) new.
  destruct (onion_service_main_dir w !! device_name) as [auth|] eqn:Hd; cbn; [|unsaved].
  destruct (auth !! client_name) as [key|] eqn:Hk; cbn; [|unsaved].
  destruct (dict_get device_name (registered_devices w)) as [v|] eqn:Hg; cbn; [|unsaved].
  apply (coherent_lookup _ _ _ Hc), device_coherent_inv in Hg
    as (ip & port & onion & clients & auth' & -> & Hne & Ha & Hm).
  cbn. unfold dict_pop, dict_item.
  destruct (dict_get client_name clients) as [k|]; cbn; [|unsaved].
  eapply settled_ok; [|grown|right; reflexivity].
  eapply (coherent_clients w device_name); [exact Hc| | |reflexivity|reflexivity].
  - apply dict_set_not_nil.
  - unfold mirrors in *. rewrite dom_insert_L, dom_delete_L, keys_of_dict_set,
      keys_of_dict_del.
    assert (auth' = auth) as -> by congruence. rewrite Hm. reflexivity.
Qed.


Lemma delete_client_kept w device_name client_name :
  coherent w = true ->
  kept w (_delete_client device_name device_name client_name w).
Proof.
  intros Hc.
  unfold _delete_client, unlink, change_clients, check_existing_onion_service_auth,
    _delete_device, rmtree, dict_item. run.
  destruct (onion_service_main_dir w !! device_name) as [auth|] eqn:Hd; cbn;
    [|apply settled_kept; unsaved].
  destruct (auth !! client_name) as [key|] eqn:Hk; cbn; [|apply settled_kept; unsaved].
  destruct (dict_get device_name (registered_devices w)) as [v|] eqn:Hg; cbn;
    [|apply settled_kept; unsaved].
  apply (coherent_lookup _ _ _ Hc), device_coherent_inv in Hg
    as (ip & port & onion & clients & auth' & -> & Hne & Ha & Hm).
  assert (auth' = auth) as -> by congruence.
  cbn. unfold dict_pop, dict_item.
  destruct (dict_get client_name clients) as [k|]; cbn; [|apply settled_kept; unsaved].
  rewrite lookup_insert_eq.
  pose proof (mirrors_delete _ _ client_name Hm) as Hm'.
  pose proof (mirrors_empty _ _ Hm') as He.
  destruct (bool_decide (delete client_name auth = ∅)) eqn:Hb; cbn.
  - apply bool_decide_eq_true, He in Hb.
    rewrite lookup_insert_eq. cbn.
    unfold dict_pop, dict_item. rewrite dict_get_set, String.eqb_refl. cbn.
    rewrite dict_del_set, delete_insert_eq.
    assert (Hfin : forall f a e l,
      coherent (World (dict_del device_name (registered_devices w)) f
                  (delete device_name (onion_service_main_dir w)) a e l) = true).
    { intros f a e l.
      eapply (coherent_del w device_name); [exact Hc| |reflexivity|reflexivity].
      intros name Hn. apply lookup_delete_ne. congruence. }
    split; [intros _; apply Hfin|].
    eexists. split; [grown|].
    cbn [app].
    match goal with
    | |- lasting [_; EvSave (PDict (dict_set _ ?entry _)); _; _] =>
        rewrite <- (dict_del_set device_name entry (registered_devices w))
    end.
    apply lasting_cascade; [| |constructor].
    + do 2 eexists. split; [reflexivity|]. rewrite dict_get_set, String.eqb_refl.
      split; [reflexivity|]. cbn. rewrite Hb. reflexivity.
    + rewrite dict_del_set. exact (coherent_has_clients _ (Hfin None [] [] [])).
  - apply bool_decide_eq_false in Hb.
    apply settled_kept. eapply settled_ok; [|grown|right; reflexivity].
    eapply (coherent_clients w device_name); [exact Hc| |exact Hm'|reflexivity|reflexivity].
    intros Hnil. apply Hb, He, Hnil.
Qed.

Lemma perform_kept w o : coherent w = true -> kept w (perform o w).
Proof.
  intros Hc. destruct o as [|d|d|d|d|d|d c|d c]; cbn [perform].
  - apply settled_kept, add_device_settled, Hc.
  - apply settled_kept, change_ip_address_settled, Hc.
  - apply settled_kept, change_webinterface_port_settled, Hc.
  - apply settled_kept. pose proof (rename_device_settled w d Hc) as H.
    unfold mbind. cbn. destruct (rename_device d d w); exact H.
  - apply settled_kept, delete_device_settled, Hc.
  - apply settled_kept, add_new_client_settled, Hc.
  - apply settled_kept. pose proof (rename_client_settled w d c Hc) as H.
    unfold mbind. cbn. destruct (rename_client d d c w); exact H.
  - apply delete_client_kept, Hc.
Qed.

(** C1, as amended.  Start from a registry that agrees with the
    directories and in which every device has a client, and let the
    operator perform any operations of the menus.  Then every snapshot
    saved gives every device a client, with one exception: when
    [_delete_client] removes the last client of a device, the snapshot it
    saves before the cascade lists the device with no client; that
    snapshot is replaced at once by the one the cascade saves, without the
    device.  If the operations return, the registry agrees with the
    directories again. *)
Theorem snapshots_keep_a_client_but_before_the_cascade
  (w : world) (operations : list operation) :
  coherent w = true ->
  (forall w', for_each operations perform w = Ok tt w' -> coherent w' = true) /\
  exists new,
    effects (final (for_each operations perform w)) = (effects w ++ new)%list /\
    lasting new.
Proof.
  intros Hc.
  enough (kept w (for_each operations perform w)) as [H1 H2].
  { split; [|exact H2]. intros w' E. rewrite E in H1. apply H1. exact I. }
  revert w Hc. induction operations as [|o operations IH]; intros w Hc.
  - cbn. split; [intros _; exact Hc|]. exists []. split; [grown|constructor].
  - cbn [for_each]. rewrite run_bind.
    destruct (perform_kept w o Hc) as [Hk (new1 & He1 & Hl1)].
    destruct (perform o w) as [[] w1|e w1]; cbn [final] in *.
    + destruct (IH w1 (Hk I)) as [Hk2 (new2 & He2 & Hl2)].
      split; [exact Hk2|]. exists (new1 ++ new2)%list.
      split; [rewrite He2, He1, app_assoc; reflexivity|apply lasting_app; assumption].
    + split; [intros []|]. exists new1. auto.
Qed.

End Operations.

(** ** The properties on the examples *)

(** The builtins of the examples on texts that Python reads in a way of
    its own: [int] takes white space around the number, a sign and
    underscores between digits; [ipaddress.ip_address] takes no leading
    zero in an IPv4 address, and an IPv4 address or a scope in an IPv6
    address; [str.strip] removes the separators U+001C to U+001F. *)
Lemma sample_builtins_follow_python :
  map Sample.decimal_of_str [" 8081 "; "+8081"; "8_081"; "-1"; "1__0"; "_1"; "+ 1"; ""]
  = [Some 8081; Some 8081; Some 8081; Some (-1); None; None; None; None] /\
  map Sample.address_type
    ["10.0.0.5"; "010.0.0.5"; "256.0.0.1"; "fe80::1"; "::ffff:10.0.0.5";
     "fe80::1%eth0"; ":::"; "1::2::3"; "1:2:3:4:5:6:7:8:9"]
  = [Some IPv4Address; None; None; Some IPv6Address; Some IPv6Address;
     Some IPv6Address; None; None; None] /\
  Sample.strip_spaces (String (ascii_of_nat 31) " B ") = "B".
Proof. repeat split; vm_compute; reflexivity. Qed.

(** C1, counterexample: from the registry of the cascade example, which
    agrees with the directories, [_delete_client] saves a snapshot in which
    device A has no client, before it saves the empty registry. *)
Lemma delete_client_saves_a_device_without_client :
  let w := Sample.world_A [] in
  let clientless_A :=
    PDict [("A", device_entry (PStr "10.0.0.5") (PInt 8080)
                   (PStr "abcd...onion") [])] in
  coherent w = true /\
  saves (effects (final (_delete_client "A" "A" "c1" w)))
  = [clientless_A; PDict []] /\
  every_device_has_a_client clientless_A = false.
Proof. repeat split; vm_compute; reflexivity. Qed.

Lemma snapshots_keep_a_client_but_before_the_cascade_witness :
  let w := Sample.world_A [] in
  let out := for_each [DeleteClient "A" "c1"]
               (perform (builtins := Sample.builtins)
                        (daemon := Sample.daemon_up Sample.onion_1)) w in
  (forall w', out = Ok tt w' -> coherent w' = true) /\
  exists new, effects (final out) = (effects w ++ new)%list /\ lasting new.
Proof.
  intros w out.
  apply (snapshots_keep_a_client_but_before_the_cascade
           (builtins := Sample.builtins)
           (daemon := Sample.daemon_up Sample.onion_1) w [DeleteClient "A" "c1"]).
  vm_compute. reflexivity.
Defined.

Lemma start_proxy_leaves_the_registry_alone_witness :
  let w := Sample.world_AB in
  let daemon := Sample.daemon_up Sample.onion_1 in
  registry_kept w (final (start_proxy (daemon := daemon) w)) /\
  1 = Z.of_nat (length (List.filter
        (address_confirmed (daemon := daemon) (onion_service_main_dir w)
           (registered_devices w))
        (dict_keys (registered_devices w)))).
Proof.
  intros w daemon.
  destruct (start_proxy_leaves_the_registry_alone (daemon := daemon) w)
    as (H1 & _ & H3).
  split; [exact H1|].
  apply (H3 1 (final (start_services (daemon := daemon) w))).
  vm_compute. reflexivity.
Defined.

Lemma rename_device_moves_first_witness :
  let w := Sample.world_A [" B "] in
  let w' := final (rename_device (builtins := Sample.builtins) "A" "A" w) in
  "B" = "B" /\
  onion_service_main_dir w' !! "B" = onion_service_main_dir w !! "A" /\
  is_Some (onion_service_main_dir w !! "A") /\
  ("A" <> "B" -> onion_service_main_dir w' !! "A" = None) /\
  effects w' = (effects w ++
                [EvMoveDir "A" "B"; EvSave (PDict (registered_devices w'))])%list /\
  registered_devices_file w' = Some (PDict (registered_devices w')) /\
  exists device_value,
    dict_get "A" (registered_devices w) = Some device_value /\
    dict_get "B" (registered_devices w') = Some device_value /\
    dict_get "A" (registered_devices w') = None /\
    forall other,
      other <> "A" -> other <> "B" ->
      dict_get other (registered_devices w') = dict_get other (registered_devices w).
Proof.
  intros w w'.
  apply (proj2 (rename_device_moves_first (builtins := Sample.builtins) w "A" "A")
           "B" "B" w').
  vm_compute. reflexivity.
Defined.

Lemma add_client_writes_the_artifact_first_witness :
  let w := Sample.world_A [] in
  let daemon := Sample.daemon_up Sample.onion_1 in
  exists w',
    _add_client (daemon := daemon) "A" "c2" "KEY2" w = Ok tt w' /\
    onion_service_main_dir w'
      = <["A" := <["c2" := "KEY2"]> {[ "c1" := "KEY1" ]}]> (onion_service_main_dir w) /\
    effects w' = (effects w ++
                  [EvWriteAuth "A" "c2"; EvSave (PDict (registered_devices w'))])%list /\
    registered_devices_file w' = Some (PDict (registered_devices w')) /\
    stored_item (registered_devices w') "A" "clients"
      = Val (PDict (dict_set "c2" (PStr "KEY2") [("c1", PStr "KEY1")])) /\
    (forall key, key <> "clients" ->
       stored_item (registered_devices w') "A" key
       = stored_item (registered_devices w) "A" key) /\
    (forall other, other <> "A" ->
       dict_get other (registered_devices w') = dict_get other (registered_devices w)).
Proof.
  intros w daemon.
  apply (proj2 (proj2 (add_client_writes_the_artifact_first
                         (daemon := daemon) w "A" "c2" "KEY2"))
           {[ "c1" := "KEY1" ]}
           [("ip_address", PStr "10.0.0.5"); ("port", PInt 8080);
            ("onion_address", PStr "abcd...onion");
            ("clients", PDict [("c1", PStr "KEY1")])]
           [("c1", PStr "KEY1")]); reflexivity.
Defined.

(** C8.  The code where it departs from the claim and from the docstring
    of [prompt_ip_address]: device A is the only device, so its own pair
    10.0.0.5:8080 collides with no other device; yet the answer 10.0.0.5
    is refused with the warning that the pair is assigned to A ("please
    use the existing device instead"), and the next answer is taken. *)
Lemma change_ip_address_rejects_the_own_pair :
  let w := Sample.world_A ["10.0.0.5"; "10.0.0.6"] in
  let w' := final (change_ip_address (builtins := Sample.builtins) "A" w) in
  collides_with_another (registered_devices w) "A" (PStr "10.0.0.5") (PInt 8080)
  = false /\
  returned (change_ip_address (builtins := Sample.builtins) "A" w) /\
  logged w' = [(Warning, SameIpAndPort "A");
               (Info, IpAddressChanged "A" (PStr "10.0.0.5") (PStr "10.0.0.6"))] /\
  stored_item (registered_devices w') "A" "ip_address" = Val (PStr "10.0.0.6") /\
  answers w' = [].
Proof. repeat split; vm_compute; reflexivity. Qed.

Lemma change_network_rejects_every_assigned_pair_witness :
  let w := Sample.world_A ["10.0.0.5"; "10.0.0.6"] in
  pair_assigned (registered_devices w) (PStr "10.0.0.5") (PInt 8080) = true /\
  exists w1,
    only_talked w w1 /\ answers w1 = ["10.0.0.6"] /\
    change_ip_address (builtins := Sample.builtins) "A" w
    = change_ip_address (builtins := Sample.builtins) "A" w1.
Proof.
  intros w.
  destruct (change_network_rejects_every_assigned_pair
              (builtins := Sample.builtins) w "A" "10.0.0.5" ["10.0.0.6"]
              (PStr "10.0.0.5") (PInt 8080))
    as (H1 & (w1 & H2 & H3 & H4) & _); try reflexivity.
  split; [apply H1; reflexivity|].
  exists w1. split; [exact H2|]. split; [exact H3|].
  rewrite (H1 eq_refl eq_refl) in H4. exact H4.
Defined.

(** ** What the prompts return *)

Section PromptResults.

Context {builtins : Builtins}.

Lemma prompt_device_name_loop_result devices script : forall w name w',
  prompt_device_name_loop devices script w = Ok name w' <->
  exists rejected a rest,
    script = (rejected ++ a :: rest)%list /\
    name = strip a /\
    dict_has devices name = false /\
    Forall (fun r => dict_has devices (strip r) = true) rejected /\
    w' = talked w rest (names_refused rejected).
Proof.
  induction script as [|answer script IH]; intros w name w'.
  - cbn. split; [discriminate|]. intros (rejected & a & rest & E & _).
    destruct rejected; discriminate.
  - cbn [prompt_device_name_loop]. run.
    destruct (dict_has devices (strip answer)) eqn:Hh; cbn.
    + rewrite IH. split.
      * intros (rejected & a & rest & -> & -> & Hf & Hr & ->).
        exists (answer :: rejected), a, rest. split; [reflexivity|].
        split; [reflexivity|]. split; [exact Hf|]. split; [constructor; assumption|].
        unfold talked. cbn. rewrite <- app_assoc. reflexivity.
      * intros (rejected & a & rest & E & -> & Hf & Hr & ->).
        destruct rejected as [|r rejected]; cbn in E; injection E as <- ->.
        { congruence. }
        apply Forall_cons in Hr as [_ Hr].
        exists rejected, a, rest. split; [reflexivity|].
        split; [reflexivity|]. split; [exact Hf|]. split; [exact Hr|].
        unfold talked. cbn. rewrite <- app_assoc. reflexivity.
    + split.
      * intros [= <- <-]. exists [], answer, script. split; [reflexivity|].
        split; [reflexivity|]. split; [exact Hh|]. split; [constructor|].
        unfold talked. cbn. rewrite app_nil_r. reflexivity.
      * intros (rejected & a & rest & E & -> & Hf & Hr & ->).
        destruct rejected as [|r rejected]; cbn in E; injection E as <- ->.
        { unfold talked. cbn. rewrite app_nil_r. reflexivity. }
        apply Forall_cons in Hr as [Hr _]. congruence.
Qed.

(** X1.  [prompt_device_name] returns the first answer that, stripped, is
    not a name of the registry; it warns once for every answer before it,
    and changes nothing but the answers left and the log. *)
Theorem prompt_device_name_takes_the_first_free_name
  (devices : list (string * pyval)) (w : world) (name : string) (w' : world) :
  prompt_device_name devices w = Ok name w' <->
  exists rejected a rest,
    answers w = (rejected ++ a :: rest)%list /\
    name = strip a /\
    dict_has devices name = false /\
    Forall (fun r => dict_has devices (strip r) = true) rejected /\
    w' = talked w rest (names_refused rejected).
Proof. unfold prompt_device_name. apply prompt_device_name_loop_result. Qed.


Lemma prompt_client_name_loop_result devices device_name clients script :
  device_name <> "" ->
  stored_item devices device_name "clients" = Val (PDict clients) ->
  forall w name w',
  prompt_client_name_loop devices (Some device_name) script w = Ok name w' <->
  exists rejected a rest,
    script = (rejected ++ a :: rest)%list /\
    name = strip a /\
    dict_has clients name = false /\
    Forall (fun r => dict_has clients (strip r) = true) rejected /\
    w' = talked w rest (names_refused rejected).
Proof.
  intros Hn Hc. induction script as [|answer script IH]; intros w name w'.
  - cbn. split; [discriminate|]. intros (rejected & a & rest & E & _).
    destruct rejected; discriminate.
  - cbn [prompt_client_name_loop].
    destruct device_name as [|c0 s0]; [congruence|]. run.
    unfold stored_item in Hc.
    destruct (dict_item devices (String c0 s0)) as [device_value|]; [|discriminate].
    cbn in Hc |- *. rewrite Hc. cbn.
    destruct (dict_has clients (strip answer)) eqn:Hh; cbn.
    + rewrite IH. split.
      * intros (rejected & a & rest & -> & -> & Hf & Hr & ->).
        exists (answer :: rejected), a, rest. split; [reflexivity|].
        split; [reflexivity|]. split; [exact Hf|]. split; [constructor; assumption|].
        unfold talked. cbn. rewrite <- app_assoc. reflexivity.
      * intros (rejected & a & rest & E & -> & Hf & Hr & ->).
        destruct rejected as [|r rejected]; cbn in E; injection E as <- ->.
        { congruence. }
        apply Forall_cons in Hr as [_ Hr].
        exists rejected, a, rest. split; [reflexivity|].
        split; [reflexivity|]. split; [exact Hf|]. split; [exact Hr|].
        unfold talked. cbn. rewrite <- app_assoc. reflexivity.
    + split.
      * intros [= <- <-]. exists [], answer, script. split; [reflexivity|].
        split; [reflexivity|]. split; [exact Hh|]. split; [constructor|].
        unfold talked. cbn. rewrite app_nil_r. reflexivity.
      * intros (rejected & a & rest & E & -> & Hf & Hr & ->).
        destruct rejected as [|r rejected]; cbn in E; injection E as <- ->.
        { unfold talked. cbn. rewrite app_nil_r. reflexivity. }
        apply Forall_cons in Hr as [Hr _]. congruence.
Qed.

(** X2.  With the name of a registered device, [prompt_client_name]
    returns the first answer that, stripped, is not a client of that
    device, and warns for the answers before it.  Without a device name,
    and also with the empty name, it takes the first answer and checks
    nothing. *)
Theorem prompt_client_name_checks_the_clients_of_the_device
  (devices : list (string * pyval)) (w : world) :
  (forall device_name clients name w',
      device_name <> "" ->
      stored_item devices device_name "clients" = Val (PDict clients) ->
      (prompt_client_name devices (Some device_name) w = Ok name w' <->
       exists rejected a rest,
         answers w = (rejected ++ a :: rest)%list /\
         name = strip a /\
         dict_has clients name = false /\
         Forall (fun r => dict_has clients (strip r) = true) rejected /\
         w' = talked w rest (names_refused rejected))) /\
  (forall device_name a rest,
      device_name = None \/ device_name = Some "" ->
      answers w = a :: rest ->
      prompt_client_name devices device_name w = Ok (strip a) (with_answers rest w)).
Proof.
  split.
  - intros device_name clients name w' Hn Hc. unfold prompt_client_name.
    apply prompt_client_name_loop_result; assumption.
  - intros device_name a rest Hd Ha. unfold prompt_client_name. rewrite Ha.
    destruct Hd as [-> | ->]; reflexivity.
Qed.

Lemma prompt_ip_address_scan_no_port ip_address devices : forall duplicate w,
  registry_shaped devices = true ->
  exists w',
    for_fold devices duplicate (prompt_ip_address_body PNone ip_address) w
    = Ok (duplicate || ip_assigned devices (PStr ip_address)) w' /\
    only_talked w w' /\ answers w' = answers w.
Proof.
  induction devices as [|[name value] devices IH]; intros duplicate w Hs.
  - simpl. rewrite orb_false_r. exists w. split; [reflexivity|].
    split; [split; reflexivity|reflexivity].
  - simpl in Hs. apply andb_true_iff in Hs as [Hv Hs].
    apply entry_shaped_inv in Hv as (i & p & o & c & ->).
    cbn [for_fold]. rewrite run_bind.
    unfold prompt_ip_address_body at 1. run.
    unfold ip_assigned. cbn [existsb snd]. unfold same_ip at 1. cbn -[py_eq].
    destruct (py_eq i (PStr ip_address)); cbn -[py_eq].
    + destruct (IH true (with_log Warning (SameIp name) w) Hs)
        as (w' & -> & [Ht1 Ht2] & Ha).
      exists w'. rewrite orb_true_r. cbn. split; [reflexivity|].
      split; [split; assumption|assumption].
    + destruct (IH duplicate w Hs) as (w' & -> & Ht & Ha).
      exists w'. auto.
Qed.

Lemma prompt_ip_address_loop_step devices port answer script w :
  match devices with Some d => registry_shaped d = true | None => True end ->
  exists w1,
    only_talked w w1 /\ answers w1 = script /\
    prompt_ip_address_loop devices port (answer :: script) w
    = if ip_refused devices port answer
      then prompt_ip_address_loop devices port script w1
      else Ok answer w1.
Proof.
  intros Hs. destruct devices as [devices|].
  - unfold ip_refused. destruct (is_None port) eqn:Hp.
    + destruct port; try discriminate.
      cbn [prompt_ip_address_loop]. run.
      destruct (prompt_ip_address_scan_no_port answer devices false
                  (with_answers script w) Hs) as (w1 & -> & Ht & Ha).
      exists w1. split; [exact Ht|]. split; [exact Ha|].
      cbn. destruct (ip_assigned _ _); reflexivity.
    + apply prompt_ip_address_step; assumption.
  - exists (with_answers script w). split; [split; reflexivity|].
    split; [reflexivity|]. reflexivity.
Qed.

Lemma prompt_ip_address_loop_result devices port script :
  match devices with Some d => registry_shaped d = true | None => True end ->
  forall w,
  (forall a w', prompt_ip_address_loop devices port script w = Ok a w' ->
     exists rejected rest,
       script = (rejected ++ a :: rest)%list /\
       ip_refused devices port a = false /\
       forallb (ip_refused devices port) rejected = true /\
       only_talked w w' /\ answers w' = rest) /\
  (forall rejected a rest,
     script = (rejected ++ a :: rest)%list ->
     ip_refused devices port a = false ->
     forallb (ip_refused devices port) rejected = true ->
     exists w', prompt_ip_address_loop devices port script w = Ok a w' /\
                only_talked w w' /\ answers w' = rest).
Proof.
  intros Hs. induction script as [|answer script IH]; intros w.
  - split; [discriminate|]. intros [|? ?] ? ? E; discriminate.
  - destruct (prompt_ip_address_loop_step devices port answer script w Hs)
      as (w1 & Ht & Ha & ->).
    destruct (IH w1) as [IH1 IH2].
    destruct (ip_refused devices port answer) eqn:Hr; split.
    + intros a w' H. apply IH1 in H as (rejected & rest & -> & Hf & Hrs & Ht' & Ha').
      exists (answer :: rejected), rest. split; [reflexivity|]. split; [exact Hf|].
      split; [cbn; rewrite Hr; exact Hrs|]. split; [|exact Ha'].
      destruct Ht, Ht'. split; congruence.
    + intros rejected a rest E Hf Hrs.
      destruct rejected as [|r rejected]; cbn in E; injection E as <- ->.
      { congruence. }
      cbn in Hrs. apply andb_true_iff in Hrs as [_ Hrs].
      destruct (IH2 rejected a rest eq_refl Hf Hrs) as (w' & E & Ht' & Ha').
      exists w'. split; [exact E|]. split; [|exact Ha'].
      destruct Ht, Ht'. split; congruence.
    + intros a w' [= <- <-]. exists [], script. auto.
    + intros rejected a rest E Hf Hrs.
      destruct rejected as [|r rejected]; cbn in E; injection E as <- ->.
      { exists w1. auto. }
      cbn in Hrs. apply andb_true_iff in Hrs as [Hrs _]. congruence.
Qed.


(** X3.  [prompt_ip_address] returns the first answer it does not refuse.
    Given the registry and a port, it refuses the addresses that make with
    this port the pair of a registered device; given the registry alone,
    the addresses of the registered devices; given nothing, no address. *)
Theorem prompt_ip_address_takes_the_first_unassigned_address
  (devices : option (list (string * pyval))) (port : pyval) (w : world) :
  match devices with Some d => registry_shaped d = true | None => True end ->
  (forall a w',
      prompt_ip_address devices port w = Ok a w' ->
      exists rejected rest,
        answers w = (rejected ++ a :: rest)%list /\
        ip_refused devices port a = false /\
        forallb (ip_refused devices port) rejected = true /\
        only_talked w w' /\ answers w' = rest) /\
  (forall rejected a rest,
      answers w = (rejected ++ a :: rest)%list ->
      ip_refused devices port a = false ->
      forallb (ip_refused devices port) rejected = true ->
      exists w', prompt_ip_address devices port w = Ok a w' /\
                 only_talked w w' /\ answers w' = rest).
Proof.
  intros Hs. unfold prompt_ip_address.
  apply prompt_ip_address_loop_result. exact Hs.
Qed.

Lemma prompt_port_loop_step devices ip_address answer port script w :
  match devices with Some d => registry_shaped d = true | None => True end ->
  int_of_str answer = Some port ->
  exists w1,
    only_talked w w1 /\ answers w1 = script /\
    prompt_port_loop devices ip_address (answer :: script) w
    = if port_refused devices ip_address port
      then prompt_port_loop devices ip_address script w1
      else Ok port w1.
Proof.
  intros Hs Hint. destruct devices as [devices|].
  - unfold port_refused. destruct (is_None ip_address) eqn:Hp.
    + cbn [prompt_port_loop]. unfold int. rewrite Hint, Hp. run.
      exists (with_answers script w). split; [split; reflexivity|].
      split; reflexivity.
    + apply prompt_port_step; assumption.
  - cbn [prompt_port_loop]. unfold int. rewrite Hint. run.
    exists (with_answers script w). split; [split; reflexivity|].
    split; reflexivity.
Qed.

Lemma prompt_port_loop_result devices ip_address script :
  match devices with Some d => registry_shaped d = true | None => True end ->
  forall w p w',
  prompt_port_loop devices ip_address script w = Ok p w' ->
  exists rejected a rest,
    script = (rejected ++ a :: rest)%list /\
    int_of_str a = Some p /\
    port_refused devices ip_address p = false /\
    Forall (fun r => exists q, int_of_str r = Some q /\
                               port_refused devices ip_address q = true) rejected /\
    only_talked w w' /\ answers w' = rest.
Proof.
  intros Hs. induction script as [|answer script IH]; intros w p w'; [discriminate|].
  destruct (int_of_str answer) as [q|] eqn:Hint.
  2: { cbn [prompt_port_loop]. unfold int. rewrite Hint. run. discriminate. }
  destruct (prompt_port_loop_step devices ip_address answer q script w Hs Hint)
    as (w1 & Ht & Ha & ->).
  destruct (port_refused devices ip_address q) eqn:Hr.
  - intros H. apply IH in H as (rejected & a & rest & -> & Hi & Hf & Hrs & Ht' & Ha').
    exists (answer :: rejected), a, rest. split; [reflexivity|]. split; [exact Hi|].
    split; [exact Hf|]. split; [constructor; eauto|]. split; [|exact Ha'].
    destruct Ht, Ht'. split; congruence.
  - intros [= <- <-]. exists [], answer, script. auto 10.
Qed.

(** The answers that are numbers and are refused are passed over. *)
Lemma prompt_port_loop_refusals devices ip_address rejected :
  match devices with Some d => registry_shaped d = true | None => True end ->
  Forall (fun r => exists q, int_of_str r = Some q /\
                             port_refused devices ip_address q = true) rejected ->
  forall script w,
  answers w = (rejected ++ script)%list ->
  exists w1,
    only_talked w w1 /\ answers w1 = script /\
    prompt_port_loop devices ip_address (rejected ++ script) w
    = prompt_port_loop devices ip_address script w1.
Proof.
  intros Hs. induction 1 as [|r rejected (q & Hq & Hr) _ IH]; intros script w Ha.
  - exists w. split; [reflexivity|]. auto.
  - destruct (prompt_port_loop_step devices ip_address r q (rejected ++ script) w
                Hs Hq) as (w1 & Ht & Ha1 & E).
    rewrite Hr in E.
    destruct (IH script w1 Ha1) as (w2 & Ht2 & Ha2 & E2).
    exists w2. split; [etransitivity; eassumption|]. split; [exact Ha2|].
    cbn [app]. rewrite E. exact E2.
Qed.

(** X4.  [prompt_port] returns the number of the first answer that does
    not make, with the given IP address, the pair of a registered device
    (without registry or IP address it refuses nothing), the answers before
    it being numbers that do: whenever it returns, the answers are of this
    form, and whenever they are of this form, it returns that number and
    leaves the answers after it.  An answer that is not a number raises
    [ValueError], the first one and also one after refused numbers; and
    when every answer is a refused number, [KeyboardInterrupt] is raised
    with no answer left. *)
Theorem prompt_port_takes_the_first_unassigned_port
  (devices : option (list (string * pyval))) (ip_address : pyval) (w : world) :
  match devices with Some d => registry_shaped d = true | None => True end ->
  let refused rejected :=
    Forall (fun r => exists q, int_of_str r = Some q /\
                               port_refused devices ip_address q = true) rejected in
  (forall p w',
      prompt_port devices ip_address w = Ok p w' ->
      exists rejected a rest,
        answers w = (rejected ++ a :: rest)%list /\
        int_of_str a = Some p /\
        port_refused devices ip_address p = false /\
        refused rejected /\
        only_talked w w' /\ answers w' = rest) /\
  (forall rejected a rest p,
      answers w = (rejected ++ a :: rest)%list ->
      int_of_str a = Some p ->
      port_refused devices ip_address p = false ->
      refused rejected ->
      exists w',
        prompt_port devices ip_address w = Ok p w' /\
        only_talked w w' /\ answers w' = rest) /\
  (forall a rest,
      answers w = a :: rest ->
      int_of_str a = None ->
      prompt_port devices ip_address w = Raise ValueError (with_answers rest w)) /\
  (forall rejected a rest,
      answers w = (rejected ++ a :: rest)%list ->
      int_of_str a = None ->
      refused rejected ->
      exists w',
        prompt_port devices ip_address w = Raise ValueError w' /\
        only_talked w w' /\ answers w' = rest) /\
  (refused (answers w) ->
   exists w',
     prompt_port devices ip_address w = Raise KeyboardInterrupt w' /\
     only_talked w w' /\ answers w' = []).
Proof.
  intros Hs refused. unfold prompt_port. split; [|split; [|split; [|split]]].
  - intros p w'. apply prompt_port_loop_result. exact Hs.
  - intros rejected a rest p Ha Hint Hr Hrs.
    destruct (prompt_port_loop_refusals devices ip_address rejected Hs Hrs
                (a :: rest) w Ha) as (w1 & Ht & Ha1 & E).
    destruct (prompt_port_loop_step devices ip_address a p rest w1 Hs Hint)
      as (w2 & Ht2 & Ha2 & E2).
    rewrite Hr in E2. exists w2.
    split; [rewrite Ha, E; exact E2|]. split; [etransitivity; eassumption|exact Ha2].
  - intros a rest -> Hint. cbn [prompt_port_loop]. unfold int. rewrite Hint.
    reflexivity.
  - intros rejected a rest Ha Hint Hrs.
    destruct (prompt_port_loop_refusals devices ip_address rejected Hs Hrs
                (a :: rest) w Ha) as (w1 & Ht & Ha1 & E).
    exists (with_answers rest w1). rewrite Ha, E.
    split; [cbn [prompt_port_loop]; unfold int; rewrite Hint; reflexivity|].
    split; [|reflexivity].
    etransitivity; [exact Ht|]. split; reflexivity.
  - intros Hrs.
    destruct (prompt_port_loop_refusals devices ip_address (answers w) Hs Hrs [] w)
      as (w1 & Ht & Ha1 & E); [rewrite app_nil_r; reflexivity|].
    rewrite app_nil_r in E. exists w1. rewrite E.
    split; [reflexivity|]. split; [exact Ht|exact Ha1].
Qed.

End PromptResults.

Arguments prompt_device_name : simpl never.
Arguments prompt_client_name : simpl never.
Arguments prompt_ip_address : simpl never.
Arguments prompt_port : simpl never.
Arguments prompt_public_key : simpl never.

(** ** The methods, one call at a time *)

Section SingleMethods.

Context {validation : Validation} {builtins : Builtins} {daemon : TorDaemon}.

Lemma prompt_device_name_first devices w a rest :
  answers w = a :: rest ->
  dict_has devices (strip a) = false ->
  prompt_device_name devices w = Ok (strip a) (with_answers rest w).
Proof.
  intros Ha Hf. unfold prompt_device_name. rewrite Ha.
  cbn [prompt_device_name_loop]. run. rewrite Hf. reflexivity.
Qed.

Lemma prompt_port_first devices ip_address answer port script w :
  match devices with Some d => registry_shaped d = true | None => True end ->
  int_of_str answer = Some port ->
  answers w = answer :: script ->
  exists w1,
    only_talked w w1 /\ answers w1 = script /\
    prompt_port devices ip_address w
    = if port_refused devices ip_address port
      then prompt_port_loop devices ip_address script w1
      else Ok port w1.
Proof.
  intros Hs Hint Ha. unfold prompt_port. rewrite Ha.
  apply prompt_port_loop_step; assumption.
Qed.

Lemma prompt_ip_address_unchecked w a rest :
  answers w = a :: rest ->
  prompt_ip_address None PNone w = Ok a (with_answers rest w).
Proof. intros Ha. unfold prompt_ip_address. rewrite Ha. reflexivity. Qed.

Lemma prompt_client_name_unchecked devices device_name w a rest :
  device_name = None \/ device_name = Some "" ->
  answers w = a :: rest ->
  prompt_client_name devices device_name w = Ok (strip a) (with_answers rest w).
Proof.
  intros Hd Ha. unfold prompt_client_name. rewrite Ha.
  destruct Hd as [-> | ->]; reflexivity.
Qed.

(** X5.  When the first answers are accepted (a free name, an IPv4
    address, a port that makes no assigned pair) and the daemon creates the
    service, [_add_device] registers the device under the stripped name
    with the address the daemon returned and its first client, creates the
    directory with the authorization file of this client, and saves; the
    daemon is started before and terminated after the creation. *)
Theorem add_device_registers_the_device
  (w : world) (name_answer ip_address port_answer client_answer public_key : string)
  (rest : list string) (port : Z) (onion_service_address : string) :
  let device_name := strip name_answer in
  let client_name := strip client_answer in
  let new_device :=
    device_entry (PStr ip_address) (PInt port) (PStr onion_service_address)
      [(client_name, PStr public_key)] in
  answers w = name_answer :: ip_address :: port_answer :: client_answer
              :: public_key :: rest ->
  registry_shaped (registered_devices w) = true ->
  dict_has (registered_devices w) device_name = false ->
  ip_address_type ip_address = Some IPv4Address ->
  int_of_str port_answer = Some port ->
  pair_assigned (registered_devices w) (PStr ip_address) (PInt port) = false ->
  created_address (onion_service_main_dir w) device_name public_key port
    ip_address client_name = Some onion_service_address ->
  exists w',
    _add_device w = Ok tt w' /\
    registered_devices w' = (registered_devices w ++ [(device_name, new_device)])%list /\
    registered_devices_file w' = Some (PDict (registered_devices w')) /\
    onion_service_main_dir w'
      = <[device_name := {[client_name := public_key]}]> (onion_service_main_dir w) /\
    answers w' = rest /\
    effects w' = (effects w ++
                  [EvStartTor; EvCreateService device_name client_name;
                   EvTerminateTor; EvSave (PDict (registered_devices w'))])%list.
Proof.
  intros device_name client_name new_device Ha Hs Hfree Hip Hint Hpair Hcreate.
  subst device_name client_name new_device.
  assert (Hfresh : ~ In (strip name_answer) (dict_keys (registered_devices w)))
    by (apply dict_has_false; exact Hfree).
  unfold _add_device, ip_address_class, create_disk_v3_onion_service, start_tor,
    terminate_tor.
  run.
  rewrite (prompt_device_name_first (registered_devices w) w name_answer _ Ha Hfree).
  run.
  match goal with
  | |- context [prompt_ip_address None PNone ?w0] =>
      rewrite (prompt_ip_address_unchecked w0 ip_address
                 (port_answer :: client_answer :: public_key :: rest) eq_refl)
  end.
  run. rewrite Hip. run.
  match goal with
  | |- context [prompt_port ?d ?i ?w0] =>
      destruct (prompt_port_first d i port_answer port
                  (client_answer :: public_key :: rest) w0 Hs Hint eq_refl)
        as (w2 & Ht2 & Ha2 & Hstep);
      rewrite Hstep
  end.
  cbn [port_refused is_None]. rewrite Hpair.
  rewrite (only_talked_world _ _ Ht2), Ha2. run.
  match goal with
  | |- context [prompt_client_name ?d None ?w0] =>
      rewrite (prompt_client_name_unchecked d None w0 client_answer
                 (public_key :: rest) (or_introl eq_refl) eq_refl)
  end.
  unfold prompt_public_key. run. rewrite Hcreate. run.
  eexists. split; [reflexivity|]. cbn.
  rewrite (dict_keys_set_new _ _ _ Hfresh), <- !app_assoc. auto 10.
Qed.

(** X6.  When the address answered is an IPv6 address, [_add_device] logs
    that it is not supported and returns: it asks for nothing more and
    changes nothing. *)
Theorem add_device_refuses_ipv6
  (w : world) (name_answer ip_address : string) (rest : list string) :
  answers w = name_answer :: ip_address :: rest ->
  dict_has (registered_devices w) (strip name_answer) = false ->
  ip_address_type ip_address = Some IPv6Address ->
  _add_device w = Ok tt (talked w rest [(Error, IPv6Unsupported)]).
Proof.
  intros Ha Hfree Hip.
  unfold _add_device, ip_address_class.
  run.
  rewrite (prompt_device_name_first (registered_devices w) w name_answer _ Ha Hfree).
  run.
  match goal with
  | |- context [prompt_ip_address None PNone ?w0] =>
      rewrite (prompt_ip_address_unchecked w0 ip_address rest eq_refl)
  end.
  run. rewrite Hip. reflexivity.
Qed.

(** X7.  [_delete_device] removes the directory before it touches the
    registry.  Without the directory it raises [FileNotFoundError] and
    nothing is changed; with the directory but without the registry entry
    it raises [KeyError] after the directory is gone, the registry and its
    file being as they were; otherwise the entry is removed, the other
    entries are kept and the registry is saved. *)
Theorem delete_device_removes_the_directory_first
  (w : world) (onion_service_dir device_name : string) :
  (onion_service_main_dir w !! onion_service_dir = None ->
   _delete_device onion_service_dir device_name w = Raise FileNotFoundError w) /\
  (is_Some (onion_service_main_dir w !! onion_service_dir) ->
   dict_get device_name (registered_devices w) = None ->
   _delete_device onion_service_dir device_name w
   = Raise (KeyError device_name)
       (with_effect (EvRmtree onion_service_dir)
          (with_dirs (delete onion_service_dir (onion_service_main_dir w)) w))) /\
  (is_Some (onion_service_main_dir w !! onion_service_dir) ->
   is_Some (dict_get device_name (registered_devices w)) ->
   exists w',
     _delete_device onion_service_dir device_name w = Ok tt w' /\
     registered_devices w' = dict_del device_name (registered_devices w) /\
     dict_get device_name (registered_devices w') = None /\
     (forall other, other <> device_name ->
        dict_get other (registered_devices w') = dict_get other (registered_devices w)) /\
     onion_service_main_dir w' = delete onion_service_dir (onion_service_main_dir w) /\
     registered_devices_file w' = Some (PDict (registered_devices w')) /\
     effects w' = (effects w ++
                   [EvRmtree onion_service_dir;
                    EvSave (PDict (registered_devices w'))])%list).
Proof.
  unfold _delete_device, rmtree, dict_pop, dict_item. split; [|split].
  - intros Hd. run. rewrite Hd. reflexivity.
  - intros [auth Hd] Hg. run. rewrite Hd. cbn. rewrite Hg. reflexivity.
  - intros [auth Hd] [v Hg]. run. rewrite Hd. cbn. rewrite Hg. cbn.
    eexists. split; [reflexivity|]. cbn. split; [reflexivity|].
    split; [rewrite dict_get_del, String.eqb_refl; reflexivity|].
    split; [|rewrite <- app_assoc; auto].
    intros other Ho. rewrite dict_get_del.
    destruct (String.eqb_spec other device_name); [congruence|reflexivity].
Qed.


(** X8.  [_add_client] does not undo the artifact: when the directory of
    the device exists and the artifact is written, but the device is not in
    the registry, it raises [KeyError] with the authorization file left in
    the directory, the registry and its file being as they were. *)
Theorem add_client_leaves_the_artifact_of_an_unregistered_device
  (w : world) (device_name client_name public_key : string) (auth : auth_files) :
  onion_service_main_dir w !! device_name = Some auth ->
  auth_written (onion_service_main_dir w) device_name public_key client_name = true ->
  dict_get device_name (registered_devices w) = None ->
  _add_client device_name client_name public_key w
  = Raise (KeyError device_name)
      (with_effect (EvWriteAuth device_name client_name)
         (with_dirs (<[device_name := <[client_name := public_key]> auth]>
                       (onion_service_main_dir w)) w)).
Proof.
  intros Hd Hw Hg.
  unfold _add_client, dir_exists, add_disk_v3_onion_service_auth, change_clients,
    dict_item.
  run. rewrite Hd. cbn. rewrite Hw. cbn. rewrite Hg, Hd. reflexivity.
Qed.

(** X9.  Renaming a client moves its authorization file first and then
    renames the key in the clients of the device and saves: the new name
    has the public key the old one had, and nothing else of the registry
    changes.  If the file is missing, nothing is changed. *)
Theorem rename_client_moves_the_file_first
  (w : world) (onion_service_dir device_name client_name : string) :
  (forall w',
      rename_client onion_service_dir device_name client_name w
        = Raise FileNotFoundError w' ->
      stores w' = stores w /\ effects w' = effects w) /\
  (forall new_client_name w',
      rename_client onion_service_dir device_name client_name w
        = Ok new_client_name w' ->
      exists auth key d clients public_key,
        onion_service_main_dir w !! onion_service_dir = Some auth /\
        auth !! client_name = Some key /\
        onion_service_main_dir w'
          = <[onion_service_dir :=
                <[new_client_name := key]> (delete client_name auth)]>
              (onion_service_main_dir w) /\
        dict_get device_name (registered_devices w) = Some (PDict d) /\
        dict_get "clients" d = Some (PDict clients) /\
        dict_get client_name clients = Some public_key /\
        registered_devices w'
          = dict_set device_name
              (PDict (dict_set "clients"
                        (PDict (dict_set new_client_name public_key
                                  (dict_del client_name clients))) d))
              (registered_devices w) /\
        registered_devices_file w' = Some (PDict (registered_devices w')) /\
        effects w' = (effects w ++
                      [EvMoveAuth onion_service_dir client_name new_client_name;
                       EvSave (PDict (registered_devices w'))])%list).
Proof.
  unfold rename_client, replace_auth, change_clients, dict_item. run.
  pose proof (talk_prompt_client_name (registered_devices w) (Some device_name) w) as Ht.
  destruct (prompt_client_name _ _ w) as [new w1|e1 w1]; cbn [final] in Ht.
  2: { split; [|discriminate]. intros w' H. injection H as _ <-. exact Ht. }
  rewrite (only_talked_world _ _ Ht). clear Ht.
  generalize (answers w1) (logged w1). intros a1 l1. cbn.
  destruct (onion_service_main_dir w !! onion_service_dir) as [auth|] eqn:Hd; cbn.
  2: { split; [intros w' [= <-]; split; reflexivity|discriminate]. }
  destruct (auth !! client_name) as [key|] eqn:Hk; cbn.
  2: { split; [intros w' [= <-]; split; reflexivity|discriminate]. }
  destruct (dict_get device_name (registered_devices w)) as [v|] eqn:Hg; cbn;
    [|split; discriminate].
  destruct v as [| | | | |d]; cbn; try (split; discriminate).
  unfold dict_item.
  destruct (dict_get "clients" d) as [c|] eqn:Hc; cbn; [|split; discriminate].
  destruct c as [| | | | |clients]; cbn; try (split; discriminate).
  unfold dict_pop, dict_item.
  destruct (dict_get client_name clients) as [public_key|] eqn:Hp; cbn;
    [|split; discriminate].
  split; [discriminate|].
  intros new_client_name w' [= <- <-]. cbn.
  exists auth, key, d, clients, public_key.
  rewrite <- !app_assoc. auto 12.
Qed.

Lemma start_proxy_body_effects counter device w n w' :
  start_proxy_body counter device w = Ok n w' ->
  effects w' = (effects w ++ [EvStartService device])%list.
Proof.
  unfold start_proxy_body, device_item, start_disk_v3_onion_service.
  run. intros H.
  destruct (stored_item _ device "port") as [port|]; [|discriminate].
  destruct (stored_item _ device "ip_address") as [ip|]; [|discriminate].
  destruct (started_address _ _ _ _) as [address|]; [|discriminate].
  cbn -[py_eq] in H.
  destruct (stored_item _ device "onion_address") as [onion|]; [|discriminate].
  destruct (py_eq (PStr address) onion); cbn in H; injection H as <- <-; reflexivity.
Qed.

Lemma start_services_trace keys : forall counter w n w',
  for_fold keys counter start_proxy_body w = Ok n w' ->
  effects w' = (effects w ++ map EvStartService keys)%list /\
  logged w' = (logged w ++ changed_addresses (onion_service_main_dir w)
                             (registered_devices w) keys)%list.
Proof.
  induction keys as [|device keys IH]; intros counter w n w'.
  - simpl. intros [= <- <-]. unfold changed_addresses. cbn.
    rewrite !app_nil_r. auto.
  - cbn [for_fold]. rewrite run_bind.
    destruct (start_proxy_body counter device w) as [n1 w1|] eqn:Hb; [|discriminate].
    intros H. apply IH in H as [He Hl].
    pose proof (start_proxy_body_effects _ _ _ _ _ Hb) as He1.
    apply start_proxy_body_step in Hb
      as (port & ip & address & onion & Hp & Hi & Ha & Ho & Hr & Ht & Hn).
    rewrite Hr, Ht in Hl. rewrite He1 in He.
    split; [rewrite He, <- app_assoc; reflexivity|].
    rewrite Hl. unfold changed_addresses. cbn [List.filter].
    assert (address_confirmed (onion_service_main_dir w) (registered_devices w) device
            = py_eq (PStr address) onion) as ->
      by (unfold address_confirmed; rewrite Hp, Hi, Ho, Ha; reflexivity).
    destruct (py_eq (PStr address) onion); cbn.
    + destruct Hn as [_ ->]. reflexivity.
    + destruct Hn as [_ ->]. rewrite <- app_assoc. reflexivity.
Qed.

(** X10.  When [start_proxy] returns, it has started the daemon and the
    service of every registered device, in the order of the registry, and
    warned for every device whose address is not the stored one.  It then
    waits for the daemon exactly when the address of at least one device
    was confirmed; otherwise, also when devices are registered, it logs
    that no registered device was found and returns without waiting. *)
Theorem start_proxy_waits_when_a_service_started (w w' : world) :
  start_proxy w = Ok tt w' ->
  let keys := dict_keys (registered_devices w) in
  let service_counter :=
    Z.of_nat (length (List.filter
      (address_confirmed (onion_service_main_dir w) (registered_devices w)) keys)) in
  effects w' = (effects w ++ EvStartTor :: map EvStartService keys
                ++ (if 1 <=? service_counter then [EvWait] else []))%list /\
  logged w' = (logged w
               ++ changed_addresses (onion_service_main_dir w)
                    (registered_devices w) keys
               ++ [if 1 <=? service_counter
                   then (Info, ServicesStarted service_counter)
                   else (Error, NoRegisteredDevice)])%list.
Proof.
  unfold start_proxy, start_services, start_tor, tor_proc_wait. run.
  destruct (for_fold _ 0 start_proxy_body _) as [n w1|] eqn:Hf; [|discriminate].
  pose proof (start_services_count _ _ _ _ _ Hf) as Hn.
  apply start_services_trace in Hf as [He Hl]. cbn in Hn, He, Hl.
  rewrite Z.add_0_l in Hn. subst n.
  destruct (1 <=? _); cbn; intros [= <-]; cbn; rewrite He, Hl, <- ?app_assoc;
    cbn; rewrite <- ?app_assoc, ?app_nil_r; unfold dict_keys; auto.
Qed.

(** X11.  Loading right after a save returns the registry that was saved,
    and it succeeds exactly when every entry of that registry passes the
    checks of the loader. *)
Theorem load_returns_what_was_saved (w : world) :
  let saved := final (_set_registered_devices w) in
  (forallb (fun kv => device_accepted kv.2) (registered_devices w) = true ->
   _get_registered_devices saved = Ok (registered_devices w) saved) /\
  (forall devices w',
      _get_registered_devices saved = Ok devices w' ->
      devices = registered_devices w /\ w' = saved /\
      forallb (fun kv => device_accepted kv.2) (registered_devices w) = true).
Proof.
  intros saved. subst saved. unfold _set_registered_devices. cbn [final]. split.
  - intros H. apply load_accepted; [reflexivity|exact H].
  - intros devices w'. unfold _get_registered_devices. cbn [registered_devices_file with_effect with_file].
    unfold lift.
    destruct (validate_file _) as [d|] eqn:Hv; [|discriminate].
    apply validate_file_ok in Hv as [[= <-] Hd]. intros [= <- <-]. auto.
Qed.

End SingleMethods.

(** ** The network pairs of the registry *)

Section Pairs.

Implicit Types (devices : list (string * pyval)) (v : pyval).

Lemma network_pairs_set_in device_name v devices x :
  x ∈ network_pairs (dict_set device_name v devices) ->
  x = network_pair v \/ x ∈ network_pairs devices.
Proof.
  unfold network_pairs.
  induction devices as [|[k0 v0] devices IH]; cbn.
  - intros H. apply list_elem_of_singleton in H. auto.
  - destruct (String.eqb device_name k0); cbn; rewrite !elem_of_cons.
    + intros [H|H]; auto.
    + intros [H|H]; [auto|]. destruct (IH H); auto.
Qed.

Lemma network_pairs_del_in device_name devices x :
  x ∈ network_pairs (dict_del device_name devices) -> x ∈ network_pairs devices.
Proof.
  unfold network_pairs.
  induction devices as [|[k0 v0] devices IH]; cbn; [auto|].
  destruct (String.eqb device_name k0); cbn; rewrite !elem_of_cons.
  - auto.
  - intros [H|H]; auto.
Qed.

Lemma network_pairs_get device_name devices v :
  dict_get device_name devices = Some v -> network_pair v ∈ network_pairs devices.
Proof.
  unfold network_pairs.
  induction devices as [|[k0 v0] devices IH]; cbn; [discriminate|].
  destruct (String.eqb device_name k0); rewrite elem_of_cons.
  - intros [= ->]. auto.
  - auto.
Qed.

Lemma NoDup_pairs_set device_name v devices :
  NoDup (network_pairs devices) ->
  network_pair v ∉ network_pairs devices ->
  NoDup (network_pairs (dict_set device_name v devices)).
Proof.
  induction devices as [|[k0 v0] devices IH]; cbn.
  - intros _ _. apply NoDup_singleton.
  - rewrite NoDup_cons, not_elem_of_cons. intros [Hn Hd] [Hne Hv].
    destruct (String.eqb device_name k0); cbn; apply NoDup_cons.
    + auto.
    + split; [|apply IH; assumption].
      intros Hin. apply network_pairs_set_in in Hin as [Hin|Hin]; auto.
Qed.

Lemma NoDup_pairs_del device_name devices :
  NoDup (network_pairs devices) ->
  NoDup (network_pairs (dict_del device_name devices)).
Proof.
  induction devices as [|[k0 v0] devices IH]; cbn; [auto|].
  rewrite NoDup_cons. intros [Hn Hd].
  destruct (String.eqb device_name k0); cbn; [auto|].
  apply NoDup_cons. split; [|auto].
  intros Hin. apply Hn. eapply network_pairs_del_in, Hin.
Qed.

Lemma network_pairs_popped device_name devices v :
  NoDup (network_pairs devices) ->
  dict_get device_name devices = Some v ->
  network_pair v ∉ network_pairs (dict_del device_name devices).
Proof.
  induction devices as [|[k0 v0] devices IH]; cbn; [discriminate|].
  rewrite NoDup_cons. intros [Hn Hd].
  destruct (String.eqb device_name k0); cbn.
  - intros [= ->] Hin. apply Hn. eapply network_pairs_del_in, Hin.
  - intros Hg. rewrite not_elem_of_cons. split; [|auto].
    intros E. apply Hn. rewrite <- E. eapply network_pairs_get, Hg.
Qed.

Lemma network_pairs_same device_name devices v v' :
  dict_get device_name devices = Some v ->
  network_pair v' = network_pair v ->
  network_pairs (dict_set device_name v' devices) = network_pairs devices.
Proof.
  intros Hg E. unfold network_pairs.
  induction devices as [|[k0 v0] devices IH]; cbn in *; [discriminate|].
  destruct (String.eqb device_name k0); cbn.
  - injection Hg as ->. rewrite E. reflexivity.
  - rewrite IH; auto.
Qed.

Lemma pairs_distinct_inv devices :
  pairs_distinct devices = true <->
  NoDup (network_pairs devices) /\ None ∉ network_pairs devices.
Proof. unfold pairs_distinct. apply bool_decide_eq_true. Qed.

Lemma pairs_distinct_set device_name ip_address port v devices :
  pairs_distinct devices = true ->
  network_pair v = Some (ip_address, port) ->
  pair_assigned devices (PStr ip_address) (PInt port) = false ->
  pairs_distinct (dict_set device_name v devices) = true.
Proof.
  rewrite !pairs_distinct_inv. intros [Hd Hn] Hv Ha.
  assert (Hnew : network_pair v ∉ network_pairs devices).
  { rewrite Hv. clear Hd Hv. unfold pair_assigned in Ha. unfold network_pairs.
    induction devices as [|[k0 v0] devices IH]; cbn in *.
    - apply not_elem_of_nil.
    - apply orb_false_iff in Ha as [Hs Ha]. apply not_elem_of_cons in Hn as [Hn0 Hn].
      apply not_elem_of_cons. split; [|auto].
      unfold same_pair, network_pair in *.
      destruct (subscript v0 "ip_address") as [[| | |i| |]|]; try congruence;
        destruct (subscript v0 "port") as [[| |p| | |]|]; try congruence.
      cbn in Hs. intros [= <- <-].
      rewrite String.eqb_refl, Z.eqb_refl in Hs. discriminate. }
  split.
  - apply NoDup_pairs_set; assumption.
  - intros Hin. apply network_pairs_set_in in Hin as [Hin|Hin]; [congruence|auto].
Qed.

Lemma pairs_distinct_del device_name devices :
  pairs_distinct devices = true ->
  pairs_distinct (dict_del device_name devices) = true.
Proof.
  rewrite !pairs_distinct_inv. intros [Hd Hn]. split.
  - apply NoDup_pairs_del, Hd.
  - intros Hin. eapply Hn, network_pairs_del_in, Hin.
Qed.

Lemma pairs_distinct_moved device_name new_device_name v devices :
  pairs_distinct devices = true ->
  dict_get device_name devices = Some v ->
  pairs_distinct (dict_set new_device_name v (dict_del device_name devices)) = true.
Proof.
  rewrite !pairs_distinct_inv. intros [Hd Hn] Hg. split.
  - apply NoDup_pairs_set; [apply NoDup_pairs_del, Hd|].
    apply network_pairs_popped; assumption.
  - intros Hin. apply network_pairs_set_in in Hin as [Hin|Hin].
    + apply Hn. rewrite Hin. eapply network_pairs_get, Hg.
    + eapply Hn, network_pairs_del_in, Hin.
Qed.

Lemma pairs_distinct_same device_name v v' devices :
  pairs_distinct devices = true ->
  dict_get device_name devices = Some v ->
  network_pair v' = network_pair v ->
  pairs_distinct (dict_set device_name v' devices) = true.
Proof.
  rewrite !pairs_distinct_inv. intros H Hg E.
  rewrite (network_pairs_same _ _ _ _ Hg E). exact H.
Qed.

Lemma pairs_distinct_lookup device_name v devices :
  pairs_distinct devices = true ->
  dict_get device_name devices = Some v ->
  exists ip_address port, network_pair v = Some (ip_address, port).
Proof.
  rewrite pairs_distinct_inv. intros [_ Hn] Hg.
  apply network_pairs_get in Hg.
  destruct (network_pair v) as [[i p]|]; [eauto|contradiction].
Qed.

End Pairs.

Section Distinct.

Context {builtins : Builtins} {daemon : TorDaemon}.

Lemma coherent_shaped w : coherent w = true -> registry_shaped (registered_devices w) = true.
Proof.
  intros Hc. apply coherent_inv in Hc as [_ Hf]. unfold registry_shaped.
  apply forallb_forall. intros [name v] Hin.
  rewrite List.Forall_forall in Hf. specialize (Hf _ Hin).
  apply device_coherent_inv in Hf as (ip & port & onion & clients & auth & -> & _).
  reflexivity.
Qed.

Lemma prompt_ip_address_unassigned devices port w a w' :
  registry_shaped devices = true ->
  prompt_ip_address (Some devices) (PInt port) w = Ok a w' ->
  pair_assigned devices (PStr a) (PInt port) = false.
Proof.
  intros Hs H.
  destruct (prompt_ip_address_loop_result (Some devices) (PInt port) (answers w) Hs w)
    as [Hr _].
  apply Hr in H as (rejected & rest & _ & H & _). exact H.
Qed.

Lemma prompt_port_unassigned devices ip_address w port w' :
  registry_shaped devices = true ->
  prompt_port (Some devices) (PStr ip_address) w = Ok port w' ->
  pair_assigned devices (PStr ip_address) (PInt port) = false.
Proof.
  intros Hs H.
  apply (prompt_port_loop_result (Some devices) (PStr ip_address) (answers w) Hs) in H
    as (rejected & a & rest & _ & _ & H & _). exact H.
Qed.

Lemma stored_network_pair w device_name ip_address port :
  coherent w = true ->
  pairs_distinct (registered_devices w) = true ->
  stored_item (registered_devices w) device_name "ip_address" = Val ip_address ->
  stored_item (registered_devices w) device_name "port" = Val port ->
  exists ip0 p0 onion_address clients,
    ip_address = PStr ip0 /\ port = PInt p0 /\
    dict_get device_name (registered_devices w)
    = Some (device_entry (PStr ip0) (PInt p0) onion_address clients).
Proof.
  intros Hc Hd Hi Hp.
  destruct (stored_item_dict _ _ _ _ Hi) as (d & Hg & _).
  destruct (pairs_distinct_lookup _ _ _ Hd Hg) as (ip0 & p0 & Hv).
  pose proof (coherent_lookup _ _ _ Hc Hg) as Hv'.
  apply device_coherent_inv in Hv' as (ip & p & onion & clients & auth & E & _).
  rewrite E in *. clear E.
  unfold stored_item, dict_item in Hi, Hp. rewrite Hg in Hi, Hp.
  cbn in Hi, Hp, Hv. injection Hi as ->. injection Hp as ->.
  destruct ip_address; try discriminate. destruct port; try discriminate.
  injection Hv as -> ->. eauto 8.
Qed.

Lemma change_ip_address_distinct w device_name w' :
  coherent w = true ->
  pairs_distinct (registered_devices w) = true ->
  change_ip_address device_name w = Ok tt w' ->
  pairs_distinct (registered_devices w') = true.
Proof.
  intros Hc Hd.
  unfold change_ip_address, device_item, set_device_item, ip_address_class. run.
  destruct (stored_item _ device_name "ip_address") as [ip|] eqn:Hi; cbn;
    [|discriminate].
  destruct (stored_item _ device_name "port") as [p|] eqn:Hp; cbn; [|discriminate].
  destruct (stored_network_pair _ _ _ _ Hc Hd Hi Hp)
    as (ip0 & p0 & onion & clients & -> & -> & Hg).
  pose proof (talk_prompt_ip_address (Some (registered_devices w)) (PInt p0) w) as Ht.
  destruct (prompt_ip_address _ _ w) as [a w1|] eqn:Hq; cbn [final] in Ht;
    rewrite (only_talked_world _ _ Ht); clear Ht; cbn; [|discriminate].
  apply prompt_ip_address_unassigned in Hq; [|apply coherent_shaped, Hc].
  destruct (ip_address_type a) as [[|]|]; cbn; [| |discriminate].
  - unfold dict_item. rewrite Hg. cbn. intros [= <-]. cbn.
    eapply pairs_distinct_set; [exact Hd|reflexivity|exact Hq].
  - intros [= <-]. exact Hd.
Qed.

Lemma change_webinterface_port_distinct w device_name w' :
  coherent w = true ->
  pairs_distinct (registered_devices w) = true ->
  change_webinterface_port device_name w = Ok tt w' ->
  pairs_distinct (registered_devices w') = true.
Proof.
  intros Hc Hd.
  unfold change_webinterface_port, device_item, set_device_item. run.
  destruct (stored_item _ device_name "port") as [p|] eqn:Hp; cbn; [|discriminate].
  destruct (stored_item _ device_name "ip_address") as [ip|] eqn:Hi; cbn;
    [|discriminate].
  destruct (stored_network_pair _ _ _ _ Hc Hd Hi Hp)
    as (ip0 & p0 & onion & clients & -> & -> & Hg).
  pose proof (talk_prompt_port (Some (registered_devices w)) (PStr ip0) w) as Ht.
  destruct (prompt_port _ _ w) as [q w1|] eqn:Hq; cbn [final] in Ht;
    rewrite (only_talked_world _ _ Ht); clear Ht; cbn; [|discriminate].
  apply prompt_port_unassigned in Hq; [|apply coherent_shaped, Hc].
  unfold dict_item. rewrite Hg. cbn. intros [= <-]. cbn.
  eapply pairs_distinct_set; [exact Hd|reflexivity|exact Hq].
Qed.

Ltac answered c lem x :=
  let Ht := fresh "Ht" in
  let w1 := fresh "w1" in
  pose proof lem as Ht; unfold preserves in Ht;
  match goal with
  | |- context [match c ?w with _ => _ end] =>
      specialize (Ht w); destruct (c w) as [x w1|? w1]; cbn [final] in Ht;
      rewrite (only_talked_world _ _ Ht); clear Ht; cbn -[py_eq]; [|discriminate]
  end.

Lemma add_device_distinct w w' :
  coherent w = true ->
  pairs_distinct (registered_devices w) = true ->
  _add_device w = Ok tt w' ->
  pairs_distinct (registered_devices w') = true.
Proof.
  intros Hc Hd.
  unfold _add_device, ip_address_class, create_disk_v3_onion_service, start_tor,
    terminate_tor. run.
  answered (prompt_device_name (registered_devices w))
      (talk_prompt_device_name (registered_devices w)) device_name.
  answered (prompt_ip_address None PNone) (talk_prompt_ip_address None PNone) ip_address.
  destruct (ip_address_type _) as [[|]|]; cbn; [| |discriminate].
  2: { intros [= <-]. exact Hd. }
  match goal with
  | |- context [prompt_port ?d ?i ?w0] =>
      pose proof (talk_prompt_port d i w0) as Ht;
      destruct (prompt_port d i w0) as [port w2|] eqn:Hq; cbn [final] in Ht;
        rewrite (only_talked_world _ _ Ht); clear Ht; cbn; [|discriminate]
  end.
  apply prompt_port_unassigned in Hq; [|apply coherent_shaped, Hc].
  answered (prompt_client_name (registered_devices w) None)
      (talk_prompt_client_name (registered_devices w) None) client_name.
  answered prompt_public_key talk_prompt_public_key public_key.
  destruct (created_address _ _ _ _ _ _) as [address|]; cbn; [|discriminate].
  intros [= <-]. cbn.
  eapply pairs_distinct_set; [exact Hd|reflexivity|exact Hq].
Qed.

Lemma delete_device_distinct w onion_service_dir device_name w' :
  pairs_distinct (registered_devices w) = true ->
  _delete_device onion_service_dir device_name w = Ok tt w' ->
  pairs_distinct (registered_devices w') = true.
Proof.
  intros Hd. unfold _delete_device, rmtree, dict_pop, dict_item. run.
  destruct (onion_service_main_dir w !! onion_service_dir) as [auth|]; cbn;
    [|discriminate].
  destruct (dict_get device_name (registered_devices w)) as [v|]; cbn; [|discriminate].
  intros [= <-]. cbn. apply pairs_distinct_del, Hd.
Qed.

Lemma rename_device_distinct w onion_service_dir device_name names w' :
  pairs_distinct (registered_devices w) = true ->
  rename_device onion_service_dir device_name w = Ok names w' ->
  pairs_distinct (registered_devices w') = true.
Proof.
  intros Hd. unfold rename_device, replace_dir, dict_pop, dict_item. run.
  answered (prompt_device_name (registered_devices w))
      (talk_prompt_device_name (registered_devices w)) new.
  destruct (onion_service_main_dir w !! onion_service_dir) as [auth|]; cbn;
    [|discriminate].
  destruct (bool_decide (onion_service_dir = new)); cbn.
  - destruct (dict_get device_name (registered_devices w)) as [v|] eqn:Hg; cbn;
      [|discriminate].
    intros [= <- <-]. cbn. apply pairs_distinct_moved; assumption.
  - destruct (onion_service_main_dir w !! new); cbn; [discriminate|].
    destruct (dict_get device_name (registered_devices w)) as [v|] eqn:Hg; cbn;
      [|discriminate].
    intros [= <- <-]. cbn. apply pairs_distinct_moved; assumption.
Qed.

Lemma add_new_client_distinct w device_name w' :
  coherent w = true ->
  pairs_distinct (registered_devices w) = true ->
  add_new_client device_name w = Ok tt w' ->
  pairs_distinct (registered_devices w') = true.
Proof.
  intros Hc Hd.
  unfold add_new_client, _add_client, dir_exists, add_disk_v3_onion_service_auth,
    change_clients, device_item, dict_item. run.
  answered (prompt_client_name (registered_devices w) (Some device_name))
      (talk_prompt_client_name (registered_devices w) (Some device_name)) client_name.
  answered prompt_public_key talk_prompt_public_key public_key.
  destruct (onion_service_main_dir w !! device_name) as [auth|] eqn:Ha; cbn;
    [|discriminate].
  destruct (auth_written _ _ _ _); cbn; [|discriminate].
  destruct (dict_get device_name (registered_devices w)) as [v|] eqn:Hg; cbn;
    [|discriminate].
  pose proof (coherent_lookup _ _ _ Hc Hg) as Hv.
  apply device_coherent_inv in Hv as (ip & port & onion & clients & auth' & -> & _).
  cbn. unfold stored_item, dict_item. rewrite dict_get_set, String.eqb_refl. cbn.
  intros [= <-]. cbn.
  eapply pairs_distinct_same; [exact Hd|exact Hg|reflexivity].
Qed.

Lemma rename_client_distinct w onion_service_dir device_name client_name name w' :
  coherent w = true ->
  pairs_distinct (registered_devices w) = true ->
  rename_client onion_service_dir device_name client_name w = Ok name w' ->
  pairs_distinct (registered_devices w') = true.
Proof.
  intros Hc Hd.
  unfold rename_client, replace_auth, change_clients, dict_item. run.
  answered (prompt_client_name (registered_devices w) (Some device_name))
      (talk_prompt_client_name (registered_devices w) (Some device_name)) new.
  destruct (onion_service_main_dir w !! onion_service_dir) as [auth|]; cbn;
    [|discriminate].
  destruct (auth !! client_name) as [key|]; cbn; [|discriminate].
  destruct (dict_get device_name (registered_devices w)) as [v|] eqn:Hg; cbn;
    [|discriminate].
  pose proof (coherent_lookup _ _ _ Hc Hg) as Hv.
  apply device_coherent_inv in Hv as (ip & port & onion & clients & auth' & -> & _).
  cbn. unfold dict_pop, dict_item.
  destruct (dict_get client_name clients) as [k|]; cbn; [|discriminate].
  intros [= <- <-]. cbn.
  eapply pairs_distinct_same; [exact Hd|exact Hg|reflexivity].
Qed.

Lemma delete_client_distinct w device_name client_name w' :
  coherent w = true ->
  pairs_distinct (registered_devices w) = true ->
  _delete_client device_name device_name client_name w = Ok tt w' ->
  pairs_distinct (registered_devices w') = true.
Proof.
  intros Hc Hd.
  unfold _delete_client, unlink, change_clients, check_existing_onion_service_auth,
    _delete_device, rmtree, dict_item. run.
  destruct (onion_service_main_dir w !! device_name) as [auth|]; cbn; [|discriminate].
  destruct (auth !! client_name) as [key|]; cbn; [|discriminate].
  destruct (dict_get device_name (registered_devices w)) as [v|] eqn:Hg; cbn;
    [|discriminate].
  pose proof (coherent_lookup _ _ _ Hc Hg) as Hv.
  apply device_coherent_inv in Hv as (ip & port & onion & clients & auth' & -> & _).
  cbn. unfold dict_pop, dict_item.
  destruct (dict_get client_name clients) as [k|]; cbn; [|discriminate].
  rewrite lookup_insert_eq.
  assert (Hs : pairs_distinct
                 (dict_set device_name
                    (device_entry ip port onion (dict_del client_name clients))
                    (registered_devices w)) = true)
    by (eapply pairs_distinct_same; [exact Hd|exact Hg|reflexivity]).
  destruct (bool_decide (delete client_name auth = ∅)); cbn.
  - rewrite lookup_insert_eq. cbn. unfold dict_pop, dict_item.
    rewrite dict_get_set, String.eqb_refl. cbn.
    intros [= <-]. cbn. apply pairs_distinct_del, Hs.
  - intros [= <-]. exact Hs.
Qed.

Lemma perform_distinct w o w' :
  coherent w = true ->
  pairs_distinct (registered_devices w) = true ->
  perform o w = Ok tt w' ->
  pairs_distinct (registered_devices w') = true.
Proof.
  intros Hc Hd. destruct o as [|d|d|d|d|d|d c|d c]; cbn [perform].
  - apply add_device_distinct; assumption.
  - apply change_ip_address_distinct; assumption.
  - apply change_webinterface_port_distinct; assumption.
  - unfold mbind. cbn.
    destruct (rename_device d d w) as [names w1|] eqn:E; [|discriminate].
    intros [= <-]. eapply rename_device_distinct; eassumption.
  - apply delete_device_distinct; assumption.
  - apply add_new_client_distinct; assumption.
  - unfold mbind. cbn.
    destruct (rename_client d d c w) as [name w1|] eqn:E; [|discriminate].
    intros [= <-]. eapply rename_client_distinct; eassumption.
  - apply delete_client_distinct; assumption.
Qed.

(** X12.  No operation of the menus gives two devices the same IP address
    and port: from a registry that agrees with the directories and in
    which the devices have pairwise distinct pairs of IP address and port,
    any operations that return leave the pairs pairwise distinct. *)
Theorem operations_keep_the_network_pairs_distinct
  (w : world) (operations : list operation) (w' : world) :
  coherent w = true ->
  pairs_distinct (registered_devices w) = true ->
  for_each operations perform w = Ok tt w' ->
  pairs_distinct (registered_devices w') = true.
Proof.
  revert w. induction operations as [|o operations IH]; intros w Hc Hd.
  - cbn. intros [= <-]. exact Hd.
  - cbn [for_each]. rewrite run_bind.
    destruct (perform_kept w o Hc) as [Hk _].
    destruct (perform o w) as [[] w1|] eqn:Hp; [|discriminate].
    apply IH; [exact (Hk I)|].
    eapply perform_distinct; eassumption.
Qed.

End Distinct.

(** ** The prompts and the methods on the examples *)

Lemma prompt_client_name_checks_the_clients_of_the_device_witness :
  let w := Sample.world_A [" c1"; "c2 "] in
  prompt_client_name (builtins := Sample.builtins) (registered_devices w) (Some "A") w
  = Ok "c2" (talked w [] [(Warning, NameAssigned "c1")]).
Proof.
  intros w.
  apply (proj1 (prompt_client_name_checks_the_clients_of_the_device
                  (builtins := Sample.builtins) (registered_devices w) w)
           "A" [("c1", PStr "KEY1")] "c2" (talked w [] [(Warning, NameAssigned "c1")])).
  - discriminate.
  - reflexivity.
  - exists [" c1"], "c2 ", []. repeat split; try reflexivity.
    repeat constructor.
Defined.

Lemma prompt_ip_address_takes_the_first_unassigned_address_witness :
  let w := Sample.world_A ["10.0.0.5"; "10.0.0.6"] in
  exists w',
    prompt_ip_address (Some (registered_devices w)) (PInt 8080) w = Ok "10.0.0.6" w' /\
    only_talked w w' /\ answers w' = [].
Proof.
  intros w.
  apply (proj2 (prompt_ip_address_takes_the_first_unassigned_address
                  (Some (registered_devices w)) (PInt 8080) w eq_refl)
           ["10.0.0.5"] "10.0.0.6" []); reflexivity.
Defined.

Lemma prompt_port_takes_the_first_unassigned_port_witness :
  let w := Sample.world_A ["8080"; " 8081 "; "next"] in
  let devices := Some (registered_devices w) in
  exists w',
    prompt_port (builtins := Sample.builtins) devices (PStr "10.0.0.5") w
    = Ok 8081 w' /\
    only_talked w w' /\ answers w' = ["next"].
Proof.
  intros w devices.
  apply (proj1 (proj2 (prompt_port_takes_the_first_unassigned_port
                         (builtins := Sample.builtins) devices (PStr "10.0.0.5") w
                         eq_refl))
           ["8080"] " 8081 " ["next"] 8081); try reflexivity.
  constructor; [|constructor]. exists 8080. split; reflexivity.
Defined.

Lemma add_device_registers_the_device_witness :
  let w := Sample.world_A [" B "; "10.0.0.5"; "8081"; "c1"; "KEY2"; "next"] in
  let daemon := Sample.daemon_up Sample.onion_2 in
  let new_device :=
    device_entry (PStr "10.0.0.5") (PInt 8081) (PStr Sample.onion_2)
      [("c1", PStr "KEY2")] in
  exists w',
    _add_device (builtins := Sample.builtins) (daemon := daemon) w = Ok tt w' /\
    registered_devices w' = (registered_devices w ++ [("B", new_device)])%list /\
    registered_devices_file w' = Some (PDict (registered_devices w')) /\
    onion_service_main_dir w'
      = <["B" := {["c1" := "KEY2"]}]> (onion_service_main_dir w) /\
    answers w' = ["next"] /\
    effects w' = (effects w ++
                  [EvStartTor; EvCreateService "B" "c1";
                   EvTerminateTor; EvSave (PDict (registered_devices w'))])%list.
Proof.
  intros w daemon new_device.
  apply (add_device_registers_the_device (builtins := Sample.builtins)
           (daemon := daemon) w " B " "10.0.0.5" "8081" "c1" "KEY2" ["next"] 8081
           Sample.onion_2); reflexivity.
Defined.

Lemma add_device_refuses_ipv6_witness :
  let w := Sample.world_A ["B"; "fe80::1"; "next"] in
  _add_device (builtins := Sample.builtins)
    (daemon := Sample.daemon_up Sample.onion_2) w
  = Ok tt (talked w ["next"] [(Error, IPv6Unsupported)]).
Proof.
  intros w.
  apply (add_device_refuses_ipv6 (builtins := Sample.builtins)
           (daemon := Sample.daemon_up Sample.onion_2) w "B" "fe80::1" ["next"]);
    reflexivity.
Defined.

Lemma delete_device_removes_the_directory_first_witness :
  let w := Sample.world_A [] in
  _delete_device "A" "B" w
  = Raise (KeyError "B")
      (with_effect (EvRmtree "A")
         (with_dirs (delete "A" (onion_service_main_dir w)) w)).
Proof.
  intros w.
  apply (proj1 (proj2 (delete_device_removes_the_directory_first w "A" "B"))).
  - eexists. reflexivity.
  - reflexivity.
Defined.

Lemma add_client_leaves_the_artifact_of_an_unregistered_device_witness :
  let w := with_dirs {[ "B" := ∅ ]} (Sample.world_A []) in
  _add_client (daemon := Sample.daemon_up Sample.onion_1) "B" "c1" "KEY2" w
  = Raise (KeyError "B")
      (with_effect (EvWriteAuth "B" "c1")
         (with_dirs (<["B" := <["c1" := "KEY2"]> ∅]> (onion_service_main_dir w)) w)).
Proof.
  intros w.
  apply (add_client_leaves_the_artifact_of_an_unregistered_device
           (daemon := Sample.daemon_up Sample.onion_1) w "B" "c1" "KEY2" ∅);
    reflexivity.
Defined.

Lemma rename_client_moves_the_file_first_witness :
  let w := Sample.world_A ["c2"] in
  let w' := final (rename_client (builtins := Sample.builtins) "A" "A" "c1" w) in
  exists auth key d clients public_key,
    onion_service_main_dir w !! "A" = Some auth /\
    auth !! "c1" = Some key /\
    onion_service_main_dir w'
      = <["A" := <["c2" := key]> (delete "c1" auth)]> (onion_service_main_dir w) /\
    dict_get "A" (registered_devices w) = Some (PDict d) /\
    dict_get "clients" d = Some (PDict clients) /\
    dict_get "c1" clients = Some public_key /\
    registered_devices w'
      = dict_set "A"
          (PDict (dict_set "clients"
                    (PDict (dict_set "c2" public_key (dict_del "c1" clients))) d))
          (registered_devices w) /\
    registered_devices_file w' = Some (PDict (registered_devices w')) /\
    effects w' = (effects w ++
                  [EvMoveAuth "A" "c1" "c2";
                   EvSave (PDict (registered_devices w'))])%list.
Proof.
  intros w w'.
  apply (proj2 (rename_client_moves_the_file_first
                  (builtins := Sample.builtins) w "A" "A" "c1") "c2" w').
  vm_compute. reflexivity.
Defined.

Lemma start_proxy_waits_when_a_service_started_witness :
  let w := Sample.world_AB in
  let daemon := Sample.daemon_up Sample.onion_1 in
  let w' := final (start_proxy (daemon := daemon) w) in
  effects w' = [EvStartTor; EvStartService "A"; EvStartService "B"; EvWait] /\
  logged w' = [(Warning, OnionAddressChanged "B"); (Info, ServicesStarted 1)].
Proof.
  intros w daemon w'.
  apply (start_proxy_waits_when_a_service_started (daemon := daemon) w w').
  vm_compute. reflexivity.
Defined.

Lemma load_returns_what_was_saved_witness :
  let w := Sample.world_AB in
  let saved := final (_set_registered_devices w) in
  _get_registered_devices (validation := Sample.validation) saved
  = Ok (registered_devices w) saved.
Proof.
  intros w saved.
  apply (proj1 (load_returns_what_was_saved (validation := Sample.validation) w)).
  vm_compute. reflexivity.
Defined.

Lemma operations_keep_the_network_pairs_distinct_witness :
  let w := Sample.world_A ["10.0.0.6"; "B"; "10.0.0.6"; "8080"; "8081"; "c1"; "KEY2"] in
  let w' := final (for_each [ChangeIpAddress "A"; AddDevice]
                     (perform (builtins := Sample.builtins)
                              (daemon := Sample.daemon_up Sample.onion_2)) w) in
  pairs_distinct (registered_devices w') = true.
Proof.
  intros w w'.
  apply (operations_keep_the_network_pairs_distinct
           (builtins := Sample.builtins)
           (daemon := Sample.daemon_up Sample.onion_2)
           w [ChangeIpAddress "A"; AddDevice] w'); vm_compute; reflexivity.
Defined.

(** ** The answers the methods take *)

#[local] Instance same_answers_preorder : PreOrder same_answers.
Proof.
  split; [intros w; reflexivity|].
  intros w1 w2 w3. unfold same_answers. congruence.
Qed.

#[local] Instance answers_left_preorder : PreOrder answers_left.
Proof.
  split; [intros w; unfold answers_left; lia|].
  intros w1 w2 w3. unfold answers_left. lia.
Qed.

Lemma same_answers_left {A : Type} (c : M A) :
  preserves same_answers c -> preserves answers_left c.
Proof.
  apply preserves_weaken. intros w w' H. unfold answers_left. rewrite H. lia.
Qed.

Section Answers.

Context {builtins : Builtins} {daemon : TorDaemon}.

Ltac quiet :=
  repeat first
    [ solve [intros ?; reflexivity]
    | apply preserves_ret; apply _ | apply preserves_raise; apply _
    | apply preserves_lift; apply _
    | apply preserves_bind; [apply _| |intros ?]
    | apply preserves_for_fold; [apply _|intros ? ?]
    | match goal with
      | |- preserves _ (and_then ?a _) => destruct a; cbn [and_then]
      | |- preserves _ (if ?b then _ else _) => destruct b
      | |- preserves _ (match ?x with _ => _ end) => destruct x
      | |- preserves _ (let '(_, _) := ?x in _) => destruct x
      end ].

Lemma quiet_prompt_ip_address_body port ip_address duplicate item :
  preserves same_answers (prompt_ip_address_body port ip_address duplicate item).
Proof. unfold prompt_ip_address_body. quiet. Qed.

Lemma quiet_prompt_port_body ip_address port duplicate item :
  preserves same_answers (prompt_port_body ip_address port duplicate item).
Proof. unfold prompt_port_body. quiet. Qed.

(** A prompt leaves answers of the script it reads. *)
Lemma left_prompt_device_name devices :
  preserves answers_left (prompt_device_name devices).
Proof.
  assert (H : forall script w, (length script <= length (answers w))%nat ->
    (length (answers (final (prompt_device_name_loop devices script w)))
     <= length (answers w))%nat).
  { induction script as [|answer script IH]; intros w Hl; [cbn; lia|].
    cbn [prompt_device_name_loop]. run. cbn in Hl.
    destruct (dict_has devices (strip answer)); cbn; [|lia].
    etransitivity; [apply IH; cbn; lia|cbn; lia]. }
  intros w. apply H. unfold prompt_device_name. lia.
Qed.

Lemma left_prompt_client_name devices device_name :
  preserves answers_left (prompt_client_name devices device_name).
Proof.
  assert (H : forall script w, (length script <= length (answers w))%nat ->
    (length (answers (final (prompt_client_name_loop devices device_name script w)))
     <= length (answers w))%nat).
  { induction script as [|answer script IH]; intros w Hl; [cbn; lia|].
    cbn [prompt_client_name_loop]. run. cbn in Hl.
    destruct device_name as [[|c s]|]; cbn; try lia.
    match goal with
    | |- context [match ?r with Val _ => _ | Exc _ => _ end] => destruct r as [[|]|]
    end; cbn; try lia.
    etransitivity; [apply IH; cbn; lia|cbn; lia]. }
  intros w. apply H. unfold prompt_client_name. lia.
Qed.

Lemma left_prompt_ip_address devices port :
  preserves answers_left (prompt_ip_address devices port).
Proof.
  assert (H : forall script w, (length script <= length (answers w))%nat ->
    (length (answers (final (prompt_ip_address_loop devices port script w)))
     <= length (answers w))%nat).
  { induction script as [|answer script IH]; intros w Hl; [cbn; lia|].
    cbn [prompt_ip_address_loop]. run. cbn in Hl.
    destruct devices as [devices|]; cbn; [|lia].
    pose proof (preserves_for_fold same_answers devices false
                  (prompt_ip_address_body port answer)
                  (fun s x => quiet_prompt_ip_address_body port answer s x)
                  (with_answers script w)) as Hq.
    unfold same_answers in Hq. cbn in Hq.
    match goal with
    | |- context [match ?c with Ok _ _ => _ | Raise _ _ => _ end] =>
        destruct c as [[|] w1|e w1]
    end; cbn in *; apply (f_equal (@length string)) in Hq; try lia.
    etransitivity; [apply IH; lia|lia]. }
  intros w. apply H. unfold prompt_ip_address. lia.
Qed.

Lemma left_prompt_port devices ip_address :
  preserves answers_left (prompt_port devices ip_address).
Proof.
  assert (H : forall script w, (length script <= length (answers w))%nat ->
    (length (answers (final (prompt_port_loop devices ip_address script w)))
     <= length (answers w))%nat).
  { induction script as [|answer script IH]; intros w Hl; [cbn; lia|].
    cbn [prompt_port_loop]. run. cbn in Hl. unfold int.
    destruct (int_of_str answer) as [port|]; cbn; [|lia].
    destruct devices as [devices|]; cbn; [|lia].
    destruct (is_None ip_address); cbn; [lia|].
    pose proof (preserves_for_fold same_answers devices false
                  (prompt_port_body ip_address port)
                  (fun s x => quiet_prompt_port_body ip_address port s x)
                  (with_answers script w)) as Hq.
    unfold same_answers in Hq. cbn in Hq.
    match goal with
    | |- context [match ?c with Ok _ _ => _ | Raise _ _ => _ end] =>
        destruct c as [[|] w1|e w1]
    end; cbn in *; apply (f_equal (@length string)) in Hq; try lia.
    etransitivity; [apply IH; lia|lia]. }
  intros w. apply H. unfold prompt_port. lia.
Qed.

Lemma left_prompt_public_key : preserves answers_left prompt_public_key.
Proof.
  intros w. unfold prompt_public_key, answers_left.
  destruct (answers w) eqn:E; cbn; rewrite ?E; cbn; lia.
Qed.

End Answers.

Ltac spend :=
  repeat first
    [ apply left_prompt_device_name | apply left_prompt_client_name
    | apply left_prompt_ip_address | apply left_prompt_port
    | apply left_prompt_public_key
    | solve [apply same_answers_left; intros ?; reflexivity]
    | apply preserves_ret; apply _ | apply preserves_raise; apply _
    | apply preserves_lift; apply _
    | apply preserves_bind; [apply _| |intros ?]
    | match goal with
      | |- preserves _ (if ?b then _ else _) => destruct b
      | |- preserves _ (match ?x with _ => _ end) => destruct x
      | |- preserves _ (let '(_, _) := ?x in _) => destruct x
      end ].

Ltac spend_all :=
  unfold _add_device, change_ip_address, change_webinterface_port, rename_device,
    add_new_client, _add_client, rename_client, _delete_client, _delete_device,
    device_item, set_device_item, change_clients, ip_address_class,
    create_disk_v3_onion_service, add_disk_v3_onion_service_auth,
    check_existing_onion_service_auth, start_tor, terminate_tor,
    dir_exists, replace_dir, rmtree, unlink, replace_auth;
  spend;
  unfold _delete_device, rmtree;
  spend.

Lemma left_perform {builtins : Builtins} {daemon : TorDaemon} (o : operation) :
  preserves answers_left (perform o).
Proof. destruct o; cbn [perform]; spend_all. Qed.

(** ** The loops of the menus end *)

Section Fuel.

Context {builtins : Builtins} {daemon : TorDaemon} {questionary : Questionary}.

Lemma L_run_bind {A B : Type} (c : L A) (f : A -> L B) w :
  (c ≫= f) w = match c w with
               | Some (Ok a w') => f a w'
               | Some (Raise e w') => Some (Raise e w')
               | None => None
               end.
Proof. reflexivity. Qed.

Lemma ends_all {A : Type} (c : L A) fuel : ends c -> ends_under fuel c.
Proof. intros H w _. apply H. Qed.

Lemma ends_under_ret {A : Type} (a : A) fuel : ends_under fuel (mret a).
Proof. intros w _. eexists. split; [reflexivity|]. cbn. reflexivity. Qed.

Lemma ends_under_once {A : Type} (c : M A) fuel :
  preserves answers_left c -> ends_under fuel (once c).
Proof. intros H w _. eexists. split; [reflexivity|]. apply H. Qed.

Lemma ends_under_bind {A B : Type} (c : L A) (f : A -> L B) fuel :
  ends_under fuel c -> (forall a, ends_under fuel (f a)) ->
  ends_under fuel (c ≫= f).
Proof.
  intros Hc Hf w Hw. rewrite L_run_bind.
  destruct (Hc w Hw) as (out & -> & Hl).
  destruct out as [a w1|e w1]; cbn in Hl.
  - unfold answers_left in Hl.
    destruct (Hf a w1) as (out' & E & Hl'); [lia|].
    exists out'. split; [exact E|]. etransitivity; eassumption.
  - eexists. split; [reflexivity|]. exact Hl.
Qed.

(** The selection at the head of an iteration takes an answer. *)
Lemma ends_under_select {B : Type} choices (f : string -> L B) fuel :
  (forall a, ends_under fuel (f a)) ->
  ends_under (S fuel) (once (select choices) ≫= f).
Proof.
  intros Hf w Hw. rewrite L_run_bind. unfold once, select.
  destruct (answers w) as [|a script] eqn:E.
  - eexists. split; [reflexivity|]. cbn. reflexivity.
  - destruct (Hf a (with_answers script w)) as (out & Eo & Hl).
    { cbn in *. lia. }
    exists out. split; [exact Eo|].
    unfold answers_left in *. cbn in Hl. rewrite E. cbn. lia.
Qed.

Lemma left_select choices : preserves answers_left (select choices).
Proof.
  intros w. unfold select, answers_left.
  destruct (answers w) eqn:E; cbn; rewrite ?E; cbn; lia.
Qed.

Lemma left_confirm : preserves answers_left confirm.
Proof.
  intros w. unfold confirm, answers_left.
  destruct (answers w) eqn:E; cbn; rewrite ?E; cbn; lia.
Qed.

Lemma extended_refl {A : Type} (c : L A) : extended c c.
Proof. intros w out H. exact H. Qed.

Lemma extended_none {A : Type} (c : L A) : extended (fun _ => None) c.
Proof. intros w out H. discriminate. Qed.

Lemma extended_bind {A B : Type} (c c' : L A) (f f' : A -> L B) :
  extended c c' -> (forall a, extended (f a) (f' a)) ->
  extended (c ≫= f) (c' ≫= f').
Proof.
  intros Hc Hf w out. rewrite !L_run_bind.
  destruct (c w) as [[a w1|e w1]|] eqn:E; [| |discriminate];
    rewrite (Hc _ _ E); [apply Hf|auto].
Qed.

End Fuel.

Ltac finish :=
  repeat first
    [ apply ends_under_ret
    | apply ends_under_once;
      first [ apply left_select | apply left_confirm
            | apply left_prompt_public_key | spend_all ]
    | apply ends_under_bind; [|intros ?]
    | match goal with
      | |- ends_under _ (if ?b then _ else _) => destruct b
      | |- ends_under _ (let '(_, _) := ?x in _) => destruct x
      end ].

Ltac extend :=
  repeat first
    [ apply extended_refl
    | apply extended_bind; [|intros ?]
    | match goal with
      | |- extended (if ?b then _ else _) _ => destruct b
      | |- extended (let '(_, _) := ?x in _) _ => destruct x
      end ].

Section Loops.

Context {builtins : Builtins} {daemon : TorDaemon} {questionary : Questionary}.

Lemma manage_registered_clients_loop_ends fuel :
  forall onion_service_dir device_name client_name seen,
  ends_under fuel
    (_manage_registered_clients_loop fuel onion_service_dir device_name
       client_name seen).
Proof.
  induction fuel as [|fuel IH]; intros dir device client seen.
  - intros w Hw. lia.
  - cbn [_manage_registered_clients_loop].
    apply ends_under_select. intros answer. finish; apply IH.
Qed.

Lemma manage_registered_clients_loop_extended fuel :
  forall onion_service_dir device_name client_name seen,
  extended
    (_manage_registered_clients_loop fuel onion_service_dir device_name
       client_name seen)
    (_manage_registered_clients_loop (S fuel) onion_service_dir device_name
       client_name seen).
Proof.
  induction fuel as [|fuel IH]; intros dir device client seen.
  - apply extended_none.
  - cbn [_manage_registered_clients_loop]. extend; apply IH.
Qed.

Lemma manage_registered_clients_ends onion_service_dir device_name client_name seen :
  ends (_manage_registered_clients onion_service_dir device_name client_name seen).
Proof.
  intros w. unfold _manage_registered_clients.
  apply manage_registered_clients_loop_ends. lia.
Qed.

Lemma manage_clients_loop_ends fuel :
  forall onion_service_dir device_name seen,
  ends_under fuel (_manage_clients_loop fuel onion_service_dir device_name seen).
Proof.
  induction fuel as [|fuel IH]; intros dir device seen.
  - intros w Hw. lia.
  - cbn [_manage_clients_loop].
    apply ends_under_select. intros answer.
    finish; first [apply IH | apply ends_all, manage_registered_clients_ends].
Qed.

Lemma manage_clients_loop_extended fuel :
  forall onion_service_dir device_name seen,
  extended (_manage_clients_loop fuel onion_service_dir device_name seen)
           (_manage_clients_loop (S fuel) onion_service_dir device_name seen).
Proof.
  induction fuel as [|fuel IH]; intros dir device seen.
  - apply extended_none.
  - cbn [_manage_clients_loop]. extend; apply IH.
Qed.

Lemma manage_clients_ends onion_service_dir device_name seen :
  ends (_manage_clients onion_service_dir device_name seen).
Proof.
  intros w. unfold _manage_clients. apply manage_clients_loop_ends. lia.
Qed.

Lemma manage_registered_devices_loop_ends fuel :
  forall onion_service_dir device_name seen,
  ends_under fuel
    (_manage_registered_devices_loop fuel onion_service_dir device_name seen).
Proof.
  induction fuel as [|fuel IH]; intros dir device seen.
  - intros w Hw. lia.
  - cbn [_manage_registered_devices_loop].
    apply ends_under_select. intros answer.
    finish; first [apply IH | apply ends_all, manage_clients_ends].
Qed.

Lemma manage_registered_devices_loop_extended fuel :
  forall onion_service_dir device_name seen,
  extended (_manage_registered_devices_loop fuel onion_service_dir device_name seen)
           (_manage_registered_devices_loop (S fuel) onion_service_dir device_name
              seen).
Proof.
  induction fuel as [|fuel IH]; intros dir device seen.
  - apply extended_none.
  - cbn [_manage_registered_devices_loop]. extend; apply IH.
Qed.

Lemma manage_registered_devices_ends device_name seen :
  ends (_manage_registered_devices device_name seen).
Proof.
  intros w. unfold _manage_registered_devices.
  apply manage_registered_devices_loop_ends. lia.
Qed.

Lemma manage_devices_loop_ends fuel :
  forall seen, ends_under fuel (manage_devices_loop fuel seen).
Proof.
  induction fuel as [|fuel IH]; intros seen.
  - intros w Hw. lia.
  - cbn [manage_devices_loop].
    apply ends_under_select. intros answer.
    finish; first [apply IH | apply ends_all, manage_registered_devices_ends].
Qed.

Lemma manage_devices_loop_extended fuel :
  forall seen,
  extended (manage_devices_loop fuel seen) (manage_devices_loop (S fuel) seen).
Proof.
  induction fuel as [|fuel IH]; intros seen.
  - apply extended_none.
  - cbn [manage_devices_loop]. extend; apply IH.
Qed.

(** More fuel changes nothing. *)
Lemma extended_more {A : Type} (loop : nat -> L A) :
  (forall fuel, extended (loop fuel) (loop (S fuel))) ->
  forall fuel fuel', (fuel <= fuel')%nat -> extended (loop fuel) (loop fuel').
Proof.
  intros H fuel fuel' Hle. induction Hle as [|fuel' Hle IH].
  - apply extended_refl.
  - intros w out E. apply H, IH, E.
Qed.

(** X13.  The management mode ends for every script of answers: it
    returns, or it raises (at the latest [KeyboardInterrupt] when the
    answers run out), and it takes answers only.  The loops of the four
    menus need fuel for no more iterations than there are answers: with
    more fuel the outcome is the same. *)
Theorem manage_devices_ends (w : world) :
  exists out,
    manage_devices w = Some out /\
    (length (answers (final out)) <= length (answers w))%nat /\
    (forall fuel, (length (answers w) < fuel)%nat ->
       manage_devices_loop fuel [] w = Some out) /\
    (forall device_name seen fuel, (length (answers w) < fuel)%nat ->
       _manage_registered_devices_loop fuel device_name device_name seen w
       = _manage_registered_devices device_name seen w) /\
    (forall onion_service_dir device_name seen fuel,
       (length (answers w) < fuel)%nat ->
       _manage_clients_loop fuel onion_service_dir device_name seen w
       = _manage_clients onion_service_dir device_name seen w) /\
    (forall onion_service_dir device_name client_name seen fuel,
       (length (answers w) < fuel)%nat ->
       _manage_registered_clients_loop fuel onion_service_dir device_name
         client_name seen w
       = _manage_registered_clients onion_service_dir device_name client_name
           seen w).
Proof.
  destruct (manage_devices_loop_ends (S (length (answers w))) [] w) as (out & E & Hl);
    [lia|].
  exists out. split; [exact E|]. split; [exact Hl|]. split; [|split; [|split]].
  - intros fuel Hf.
    apply (extended_more (fun fuel => manage_devices_loop fuel [])
             (fun fuel => manage_devices_loop_extended fuel [])
             (S (length (answers w))) fuel); [lia|exact E].
  - intros device seen fuel Hf.
    destruct (manage_registered_devices_ends device seen w) as (o & Eo & _).
    rewrite Eo.
    apply (extended_more
             (fun fuel => _manage_registered_devices_loop fuel device device seen)
             (fun fuel => manage_registered_devices_loop_extended fuel device device seen)
             (S (length (answers w))) fuel); [lia|exact Eo].
  - intros dir device seen fuel Hf.
    destruct (manage_clients_ends dir device seen w) as (o & Eo & _).
    rewrite Eo.
    apply (extended_more
             (fun fuel => _manage_clients_loop fuel dir device seen)
             (fun fuel => manage_clients_loop_extended fuel dir device seen)
             (S (length (answers w))) fuel); [lia|exact Eo].
  - intros dir device client seen fuel Hf.
    destruct (manage_registered_clients_ends dir device client seen w) as (o & Eo & _).
    rewrite Eo.
    apply (extended_more
             (fun fuel => _manage_registered_clients_loop fuel dir device client seen)
             (fun fuel => manage_registered_clients_loop_extended fuel dir device
                            client seen)
             (S (length (answers w))) fuel); [lia|exact Eo].
Qed.

End Loops.

(** ** The menus perform operations *)

Section Runs.

Context {builtins : Builtins} {daemon : TorDaemon}.

Lemma managed_refl w : managed w w.
Proof. apply managed_talked. reflexivity. Qed.

Lemma runs_ret {A : Type} (a : A) : runs (mret a).
Proof. intros w out [= <-]. apply managed_refl. Qed.

Lemma runs_once_talk {A : Type} (c : M A) :
  preserves only_talked c -> runs (once c).
Proof.
  intros H w out [= <-]. specialize (H w).
  destruct (c w) as [a w1|e w1]; cbn in *.
  - apply managed_talked, H.
  - exists w. split; [apply managed_refl|]. left. exact H.
Qed.

Lemma runs_once_performed {A : Type} (o : operation) (c : M A) :
  (forall w, same_run (c w) (perform o w)) -> runs (once c).
Proof.
  intros H w out [= <-]. specialize (H w).
  destruct (c w) as [a w1|e w1], (perform o w) as [[] w2|e2 w2] eqn:E; cbn in *;
    try contradiction.
  - subst w2. eapply managed_performed; [exact E|apply managed_refl].
  - destruct H as [<- <-]. exists w. split; [apply managed_refl|]. right. eauto.
Qed.

Lemma runs_bind {A B : Type} (c : L A) (f : A -> L B) :
  runs c -> (forall a w w', c w = Some (Ok a w') -> runs (f a)) -> runs (c ≫= f).
Proof.
  intros Hc Hf w out. rewrite L_run_bind.
  destruct (c w) as [[a w1|e w1]|] eqn:E; [| |discriminate].
  - intros Eo. pose proof (Hc _ _ E) as H1. pose proof (Hf a _ _ E _ _ Eo) as H2.
    cbn in H1. destruct out as [b w2|e w2]; cbn in *.
    + eapply managed_then; eassumption.
    + destruct H2 as (w3 & Hm & Hr). exists w3. split; [|exact Hr].
      eapply managed_then; eassumption.
  - intros [= <-]. exact (Hc _ _ E).
Qed.

Lemma same_run_self {A : Type} (c : M A) w : same_run (c w) (c w).
Proof. destruct (c w); cbn; auto. Qed.

Lemma same_run_then {A : Type} (c : M A) w : same_run (c w) ((c;; mret tt) w).
Proof. rewrite run_bind. destruct (c w); cbn; auto. Qed.

Lemma talk_select choices : preserves only_talked (select choices).
Proof. intros w. unfold select. destruct (answers w); split; reflexivity. Qed.

Lemma talk_confirm {questionary : Questionary} : preserves only_talked confirm.
Proof. intros w. unfold confirm. destruct (answers w); split; reflexivity. Qed.

Lemma rename_device_names onion_service_dir device_name w names w' :
  rename_device onion_service_dir device_name w = Ok names w' -> names.1 = names.2.
Proof.
  unfold rename_device. run.
  destruct (prompt_device_name _ w) as [new w1|]; [|discriminate].
  destruct (replace_dir _ _ _) as [[] w2|]; cbn; [|discriminate].
  destruct (dict_pop _ _) as [[v d]|]; cbn; [|discriminate].
  intros [= <- _]. reflexivity.
Qed.

End Runs.

Ltac talks :=
  repeat first
    [ apply talk_select | apply talk_confirm | apply talk_device_item
    | solve [intros ?; split; reflexivity]
    | apply preserves_ret; apply _ | apply preserves_raise; apply _
    | apply preserves_lift; apply _
    | apply preserves_bind; [apply _| |intros ?]
    | match goal with
      | |- preserves _ (if ?b then _ else _) => destruct b
      | |- preserves _ (match ?x with _ => _ end) => destruct x
      end ].

Ltac walk :=
  repeat first
    [ apply runs_ret
    | match goal with
      | |- runs (once _add_device) =>
          apply (runs_once_performed AddDevice); intros ?; apply same_run_self
      | |- runs (once (change_ip_address ?d)) =>
          apply (runs_once_performed (ChangeIpAddress d)); intros ?; apply same_run_self
      | |- runs (once (change_webinterface_port ?d)) =>
          apply (runs_once_performed (ChangePort d)); intros ?; apply same_run_self
      | |- runs (once (rename_device ?d ?d)) =>
          apply (runs_once_performed (RenameDevice d)); intros ?; apply same_run_then
      | |- runs (once (_delete_device ?d ?d)) =>
          apply (runs_once_performed (DeleteDevice d)); intros ?; apply same_run_self
      | |- runs (once (add_new_client ?d)) =>
          apply (runs_once_performed (AddClient d)); intros ?; apply same_run_self
      | |- runs (once (rename_client ?d ?d ?c)) =>
          apply (runs_once_performed (RenameClient d c)); intros ?; apply same_run_then
      | |- runs (once (_delete_client ?d ?d ?c)) =>
          apply (runs_once_performed (DeleteClient d c)); intros ?; apply same_run_self
      end
    | apply runs_once_talk; solve [unfold check_existing_onion_service_auth; talks]
    | apply runs_bind; [|intros ? ? ? ?]
    | match goal with
      | |- runs (if ?b then _ else _) => destruct b
      end ].

Section Walks.

Context {builtins : Builtins} {daemon : TorDaemon} {questionary : Questionary}.

Lemma manage_registered_clients_loop_runs fuel :
  forall device_name client_name seen,
  runs (_manage_registered_clients_loop fuel device_name device_name client_name seen).
Proof.
  induction fuel as [|fuel IH]; intros device client seen.
  - intros w out. discriminate.
  - cbn [_manage_registered_clients_loop]. walk; apply IH.
Qed.

Lemma manage_registered_clients_runs device_name client_name seen :
  runs (_manage_registered_clients device_name device_name client_name seen).
Proof. intros w. apply manage_registered_clients_loop_runs. Qed.

Lemma manage_clients_loop_runs fuel :
  forall device_name seen,
  runs (_manage_clients_loop fuel device_name device_name seen).
Proof.
  induction fuel as [|fuel IH]; intros device seen.
  - intros w out. discriminate.
  - cbn [_manage_clients_loop].
    walk; first [apply IH | apply manage_registered_clients_runs].
Qed.

Lemma manage_clients_runs device_name seen :
  runs (_manage_clients device_name device_name seen).
Proof. intros w. apply manage_clients_loop_runs. Qed.

Lemma manage_registered_devices_loop_runs fuel :
  forall device_name seen,
  runs (_manage_registered_devices_loop fuel device_name device_name seen).
Proof.
  induction fuel as [|fuel IH]; intros device seen.
  - intros w out. discriminate.
  - cbn [_manage_registered_devices_loop].
    walk; try first [apply IH | apply manage_clients_runs].
    match goal with
    | H : once (rename_device _ _) _ = Some (Ok ?names _) |- _ =>
        injection H as H; apply rename_device_names in H;
        destruct names as [new_device_name new_onion_service_dir];
        cbn in H; subst new_onion_service_dir
    end.
    apply IH.
Qed.

Lemma manage_registered_devices_runs device_name seen :
  runs (_manage_registered_devices device_name seen).
Proof. intros w. apply manage_registered_devices_loop_runs. Qed.

Lemma manage_devices_loop_runs fuel :
  forall seen, runs (manage_devices_loop fuel seen).
Proof.
  induction fuel as [|fuel IH]; intros seen.
  - intros w out. discriminate.
  - cbn [manage_devices_loop].
    walk; first [apply IH | apply manage_registered_devices_runs].
Qed.

(** X14.  Whatever the operator answers, the management mode changes the
    world only through the operations of the menus: the world it leaves is
    reached by performing operations, with answers taken and messages
    logged in between; and when it raises, the exception is the one of the
    operation that was under way, or it was raised while only answers were
    taken and values shown. *)
Theorem manage_devices_performs_operations (w : world) (out : outcome (list shown)) :
  manage_devices w = Some out ->
  match out with
  | Ok _ w' => managed w w'
  | Raise e w' =>
      exists w1, managed w w1 /\
                 (only_talked w1 w' \/ exists o, perform o w1 = Raise e w')
  end.
Proof. intros H. exact (manage_devices_loop_runs _ _ _ _ H). Qed.

End Walks.

(** ** The registry in the management mode *)

Section Sync.

Lemma in_sync_talked w w' : only_talked w w' -> in_sync w -> in_sync w'.
Proof.
  intros [Hs _]. unfold in_sync, stores in *. injection Hs as H1 H2 H3.
  rewrite H1, H2. auto.
Qed.

Lemma saves_last_set : saves_last _set_registered_devices.
Proof.
  intros w a w' H. unfold _set_registered_devices in H. cbn in H.
  injection H as _ <-. unfold in_sync. cbn. reflexivity.
Qed.

Lemma saves_last_bind {A B : Type} (c : M A) (f : A -> M B) :
  (forall a, saves_last (f a)) -> saves_last (c ≫= f).
Proof.
  intros Hf w b w'. rewrite run_bind.
  destruct (c w) as [a w1|]; [|discriminate]. apply Hf.
Qed.

Lemma saves_last_talk {A B : Type} (c : M A) (f : A -> M B) :
  saves_last c -> (forall a, preserves only_talked (f a)) -> saves_last (c ≫= f).
Proof.
  intros Hc Hf w b w'. rewrite run_bind.
  destruct (c w) as [a w1|] eqn:E; [|discriminate].
  intros E'. pose proof (Hf a w1) as Ht. unfold only_talked in Ht.
  rewrite E' in Ht. eapply in_sync_talked; [exact Ht|]. eapply Hc, E.
Qed.

Lemma saves_last_keeps {A : Type} (c : M A) : saves_last c -> keeps_sync c.
Proof. intros H w a w' _. apply H. Qed.

Lemma keeps_sync_talk {A : Type} (c : M A) : preserves only_talked c -> keeps_sync c.
Proof.
  intros H w a w' Hs E. specialize (H w). unfold only_talked in H.
  rewrite E in H. eapply in_sync_talked; [exact H|exact Hs].
Qed.

Lemma keeps_sync_bind {A B : Type} (c : M A) (f : A -> M B) :
  keeps_sync c -> (forall a, keeps_sync (f a)) -> keeps_sync (c ≫= f).
Proof.
  intros Hc Hf w b w' Hs. rewrite run_bind.
  destruct (c w) as [a w1|] eqn:E; [|discriminate].
  apply Hf. eapply Hc; eassumption.
Qed.

Lemma saves_then_keeps {A B : Type} (c : M A) (f : A -> M B) :
  saves_last c -> (forall a, keeps_sync (f a)) -> saves_last (c ≫= f).
Proof.
  intros Hc Hf w b w'. rewrite run_bind.
  destruct (c w) as [a w1|] eqn:E; [|discriminate].
  apply Hf. eapply Hc, E.
Qed.

End Sync.

Ltac chat :=
  solve [ unfold check_existing_onion_service_auth;
          repeat first
            [ apply talk_prompt_device_name | apply talk_prompt_client_name
            | apply talk_prompt_ip_address | apply talk_prompt_port
            | apply talk_prompt_public_key | apply talk_device_item
            | solve [intros ?; split; reflexivity]
            | apply preserves_ret; apply _ | apply preserves_raise; apply _
            | apply preserves_lift; apply _
            | apply preserves_bind; [apply _| |intros ?]
            | match goal with
              | |- preserves _ (if ?b then _ else _) => destruct b
              | |- preserves _ (match ?x with _ => _ end) => destruct x
              end ] ].

Ltac lasts :=
  first
    [ apply saves_last_set
    | apply saves_then_keeps; [lasts|intros ?; keeps]
    | apply saves_last_bind; intros ?; lasts
    | match goal with
      | |- saves_last (if ?b then _ else _) => destruct b; lasts
      | |- saves_last (match ?x with _ => _ end) => destruct x; lasts
      | |- saves_last (let '(_, _) := ?x in _) => destruct x; lasts
      end ]
with keeps :=
  first
    [ apply keeps_sync_talk; chat
    | apply saves_last_keeps; lasts
    | apply keeps_sync_bind; [keeps|intros ?; keeps]
    | match goal with
      | |- keeps_sync (if ?b then _ else _) => destruct b; keeps
      | |- keeps_sync (match ?x with _ => _ end) => destruct x; keeps
      | |- keeps_sync (let '(_, _) := ?x in _) => destruct x; keeps
      end ].

Section Order.

Context {builtins : Builtins} {daemon : TorDaemon}.

Lemma perform_keeps_sync o : keeps_sync (perform o).
Proof.
  destruct o; cbn [perform];
    unfold _add_device, change_ip_address, change_webinterface_port, rename_device,
      add_new_client, _add_client, rename_client, _delete_client, _delete_device,
      set_device_item, change_clients, ip_address_class,
      create_disk_v3_onion_service, add_disk_v3_onion_service_auth,
      start_tor, terminate_tor, dir_exists, replace_dir, rmtree, unlink, replace_auth;
    keeps.
Qed.

Lemma managed_in_order w w' :
  managed w w' ->
  coherent w = true -> pairs_distinct (registered_devices w) = true -> in_sync w ->
  coherent w' = true /\ pairs_distinct (registered_devices w') = true /\ in_sync w'.
Proof.
  induction 1 as [w w' Ht|o w w1 w' Hp _ IH|w w1 w' _ IH1 _ IH2]; intros Hc Hd Hs.
  - pose proof Ht as [Hst _]. unfold stores in Hst. injection Hst as H1 H2 H3.
    split; [|split].
    + rewrite <- Hc. apply coherent_same; assumption.
    + rewrite H1. exact Hd.
    + eapply in_sync_talked; eassumption.
  - apply IH.
    + pose proof (perform_kept w o Hc) as [Hk _]. rewrite Hp in Hk. apply Hk. exact I.
    + eapply perform_distinct; eassumption.
    + eapply perform_keeps_sync; eassumption.
  - destruct (IH1 Hc Hd Hs) as (Hc1 & Hd1 & Hs1). apply IH2; assumption.
Qed.

(** X15.  The management mode keeps the registry in order.  Entered with a
    registry that agrees with the directories, whose devices have pairwise
    distinct pairs of IP address and port, and that is the one in the
    file, it returns with such a registry, whatever the operator did in
    the menus. *)
Theorem management_keeps_the_registry_in_order
  {questionary : Questionary} (w : world) (seen : list shown) (w' : world) :
  coherent w = true ->
  pairs_distinct (registered_devices w) = true ->
  in_sync w ->
  manage_devices w = Some (Ok seen w') ->
  coherent w' = true /\
  pairs_distinct (registered_devices w') = true /\
  in_sync w'.
Proof.
  intros Hc Hd Hs E.
  pose proof (manage_devices_loop_runs _ _ _ _ E) as Hm.
  change (managed w w') in Hm.
  exact (managed_in_order _ _ Hm Hc Hd Hs).
Qed.

End Order.

(** ** Ways through the menus *)

Arguments L_bind {A B} f c w /.
Arguments L_ret {A} a w /.

Section Ways.

Context {builtins : Builtins} {daemon : TorDaemon} {questionary : Questionary}.

Lemma world_ext (a b : world) :
  registered_devices a = registered_devices b ->
  registered_devices_file a = registered_devices_file b ->
  onion_service_main_dir a = onion_service_main_dir b ->
  answers a = answers b ->
  effects a = effects b ->
  logged a = logged b ->
  a = b.
Proof. destruct a, b. cbn. intros. subst. reflexivity. Qed.

Lemma delete_last_client w device_name client_name key ip_address port
  onion_address public_key :
  onion_service_main_dir w !! device_name = Some {[client_name := key]} ->
  dict_get device_name (registered_devices w)
  = Some (device_entry ip_address port onion_address [(client_name, public_key)]) ->
  let devices' := dict_del device_name (registered_devices w) in
  _delete_client device_name device_name client_name w
  = Ok tt (World devices' (Some (PDict devices'))
             (delete device_name (onion_service_main_dir w)) (answers w)
             (effects w ++
              [EvUnlink device_name client_name;
               EvSave (PDict (dict_set device_name
                                (device_entry ip_address port onion_address [])
                                (registered_devices w)));
               EvRmtree device_name;
               EvSave (PDict devices')])
             (logged w ++
              [(Info, ClientDeleted client_name device_name);
               (Debug, LastClientDeleted);
               (Info, DeviceDeleted device_name)])).
Proof.
  intros Hd Hg devices'. subst devices'.
  unfold _delete_client, unlink, change_clients, check_existing_onion_service_auth,
    _delete_device, rmtree, dict_item. run.
  rewrite Hd. cbn. rewrite lookup_singleton_eq. cbn. rewrite Hg. cbn.
  unfold dict_pop, dict_item. run. rewrite String.eqb_refl. run.
  rewrite lookup_insert_eq, delete_singleton_eq.
  rewrite bool_decide_eq_true_2 by reflexivity. cbn.
  rewrite lookup_insert_eq. run.
  unfold dict_pop, dict_item. run. rewrite dict_get_set, String.eqb_refl. run.
  rewrite dict_del_set, delete_insert_eq.
  f_equal. apply world_ext; cbn; rewrite <- ?app_assoc; reflexivity.
Qed.

Lemma select_next {A : Type} choices (f : string -> L A) w a rest :
  answers w = a :: rest ->
  (once (select choices) ≫= f) w = f a (with_answers rest w).
Proof. intros H. rewrite L_run_bind. unfold once, select. rewrite H. reflexivity. Qed.

Lemma confirm_next {A : Type} (f : bool -> L A) w a rest :
  answers w = a :: rest ->
  (once confirm ≫= f) w = f (confirmation a) (with_answers rest w).
Proof. intros H. rewrite L_run_bind. unfold once, confirm. rewrite H. reflexivity. Qed.

Lemma once_next {A B : Type} (c : M A) (f : A -> L B) w x w1 :
  c w = Ok x w1 -> (once c ≫= f) w = f x w1.
Proof. intros H. rewrite L_run_bind. unfold once. rewrite H. reflexivity. Qed.

Lemma submenu_next {A B : Type} (c : L A) (f : A -> L B) w x w1 :
  c w = Some (Ok x w1) -> (c ≫= f) w = f x w1.
Proof. intros H. rewrite L_run_bind, H. reflexivity. Qed.

(** The comparison of a picked text with a choice. *)
Ltac picked :=
  repeat match goal with
  | |- context [String.eqb ?a ?b] =>
      let v := eval vm_compute in (String.eqb a b) in
      match v with
      | true => change (String.eqb a b) with true
      | false => change (String.eqb a b) with false
      end
  end; cbv iota.

Lemma manage_registered_clients_deletes w device_name client_name seen
  confirm_answer rest :
  answers w = "Delete client" :: confirm_answer :: rest ->
  confirmation confirm_answer = true ->
  forall w',
  _delete_client device_name device_name client_name (with_answers rest w) = Ok tt w' ->
  _manage_registered_clients device_name device_name client_name seen w
  = Some (Ok seen w').
Proof.
  intros Ha Hy w' Hd. unfold _manage_registered_clients.
  generalize (length (answers w)). intros fuel.
  cbn [_manage_registered_clients_loop].
  rewrite (select_next _ _ _ _ _ Ha). picked.
  rewrite (confirm_next _ (with_answers (confirm_answer :: rest) w) confirm_answer
             rest eq_refl), Hy.
  rewrite (once_next _ _ _ tt w' Hd). reflexivity.
Qed.

Lemma no_auth_left w device_name :
  onion_service_main_dir w !! device_name = None ->
  check_existing_onion_service_auth device_name w = Ok false w.
Proof. intros H. unfold check_existing_onion_service_auth. run. rewrite H. reflexivity. Qed.

Lemma manage_clients_deletes w device_name client_name clients seen
  confirm_answer rest :
  answers w = "Manage registered clients" :: client_name :: "Delete client"
              :: confirm_answer :: rest ->
  confirmation confirm_answer = true ->
  client_name <> _BACK_TO_CLIENT_STRING ->
  stored_item (registered_devices w) device_name "clients" = Val (PDict clients) ->
  forall w',
  _delete_client device_name device_name client_name (with_answers rest w) = Ok tt w' ->
  onion_service_main_dir w' !! device_name = None ->
  _manage_clients device_name device_name seen w = Some (Ok seen w').
Proof.
  intros Ha Hy Hc Hs w' Hd Hn. unfold _manage_clients.
  generalize (length (answers w)). intros fuel.
  cbn [_manage_clients_loop].
  rewrite (select_next _ _ _ _ _ Ha). picked.
  erewrite once_next; cycle 1.
  { run. rewrite Hs. reflexivity. }
  rewrite (select_next _ _ (with_answers _ w) client_name
             ("Delete client" :: confirm_answer :: rest) eq_refl).
  apply String.eqb_neq in Hc. rewrite Hc.
  erewrite submenu_next; cycle 1.
  { eapply manage_registered_clients_deletes; [reflexivity|exact Hy|exact Hd]. }
  rewrite (once_next _ _ _ _ _ (no_auth_left _ _ Hn)). reflexivity.
Qed.

(** X16.  Deleting the last client of a device leaves the three menus of
    the device at once: asked from the menu of the device for its clients,
    then for the only client, then to delete it and confirmed,
    [_manage_registered_devices] returns with the device gone from the
    registry, the file and the directories, and the next answer is read by
    the main menu. *)
Theorem deleting_the_last_client_leaves_the_menus
  (w : world) (device_name client_name key confirm_answer : string)
  (ip_address port onion_address public_key : pyval)
  (rest : list string) (seen : list shown) :
  answers w = "Manage clients" :: "Manage registered clients" :: client_name
              :: "Delete client" :: confirm_answer :: rest ->
  confirmation confirm_answer = true ->
  client_name <> _BACK_TO_CLIENT_STRING ->
  onion_service_main_dir w !! device_name = Some {[client_name := key]} ->
  dict_get device_name (registered_devices w)
  = Some (device_entry ip_address port onion_address [(client_name, public_key)]) ->
  exists w',
    _manage_registered_devices device_name seen w = Some (Ok seen w') /\
    answers w' = rest /\
    registered_devices w' = dict_del device_name (registered_devices w) /\
    registered_devices_file w' = Some (PDict (registered_devices w')) /\
    onion_service_main_dir w' = delete device_name (onion_service_main_dir w).
Proof.
  intros Ha Hy Hc Hd Hg.
  pose proof (delete_last_client (with_answers rest w) device_name client_name key
                ip_address port onion_address public_key Hd Hg) as He.
  cbv zeta in He.
  eexists. split.
  - unfold _manage_registered_devices.
    generalize (length (answers w)). intros fuel.
    cbn [_manage_registered_devices_loop].
    rewrite (select_next _ _ _ _ _ Ha). picked.
    erewrite submenu_next; cycle 1.
    { eapply manage_clients_deletes;
        [reflexivity|exact Hy|exact Hc| |exact He|apply lookup_delete_eq].
      unfold stored_item, dict_item. cbn. rewrite Hg. reflexivity. }
    rewrite (once_next _ _ _ false _ (no_auth_left _ _ (lookup_delete_eq _ _))).
    reflexivity.
  - cbn. repeat split; reflexivity.
Qed.

Lemma dict_del_absent {V : Type} (k : string) (d : list (string * V)) :
  dict_get k d = None -> dict_del k d = d.
Proof.
  induction d as [|[k0 v0] d IH]; cbn; [reflexivity|].
  destruct (String.eqb k k0); [discriminate|]. intros H. rewrite IH; auto.
Qed.

Lemma rename_device_first w device_name name_answer rest auth v :
  answers w = name_answer :: rest ->
  let new_device_name := strip name_answer in
  dict_has (registered_devices w) new_device_name = false ->
  onion_service_main_dir w !! device_name = Some auth ->
  onion_service_main_dir w !! new_device_name = None ->
  dict_get device_name (registered_devices w) = Some v ->
  let devices' := dict_set new_device_name v
                    (dict_del device_name (registered_devices w)) in
  rename_device device_name device_name w
  = Ok (new_device_name, new_device_name)
      (World devices' (Some (PDict devices'))
         (<[new_device_name := auth]> (delete device_name (onion_service_main_dir w)))
         rest
         (effects w ++ [EvMoveDir device_name new_device_name; EvSave (PDict devices')])
         (logged w ++ [(Info, DeviceRenamed device_name new_device_name)])).
Proof.
  intros Ha new Hf Hd Hn Hg devices'. subst devices'.
  unfold rename_device, replace_dir, dict_pop, dict_item. run.
  rewrite (prompt_device_name_first _ _ _ _ Ha Hf). fold new. cbn.
  rewrite Hd.
  assert (device_name <> new) as Hne by (intros ->; congruence).
  rewrite bool_decide_eq_false_2 by exact Hne.
  rewrite Hn. run. rewrite Hg. run.
  f_equal. apply world_ext; cbn; rewrite <- ?app_assoc; reflexivity.
Qed.

(** X17.  After a rename the menu of the device works on the new name:
    asked to rename the device and then to delete it, with the deletion
    confirmed, [_manage_registered_devices] moves the directory to the new
    name, removes the directory of the new name, and returns with neither
    name in the registry. *)
Theorem deleting_after_a_rename_deletes_the_renamed_device
  (w : world) (device_name name_answer confirm_answer : string)
  (auth : auth_files) (v : pyval) (rest : list string) (seen : list shown) :
  let new_device_name := strip name_answer in
  answers w = "Rename device" :: name_answer :: "Delete device" :: confirm_answer
              :: rest ->
  confirmation confirm_answer = true ->
  dict_has (registered_devices w) new_device_name = false ->
  onion_service_main_dir w !! device_name = Some auth ->
  onion_service_main_dir w !! new_device_name = None ->
  dict_get device_name (registered_devices w) = Some v ->
  exists w',
    _manage_registered_devices device_name seen w = Some (Ok seen w') /\
    answers w' = rest /\
    registered_devices w' = dict_del device_name (registered_devices w) /\
    dict_get new_device_name (registered_devices w') = None /\
    registered_devices_file w' = Some (PDict (registered_devices w')) /\
    onion_service_main_dir w' = delete device_name (onion_service_main_dir w) /\
    effects w'
    = (effects w ++
       [EvMoveDir device_name new_device_name;
        EvSave (PDict (dict_set new_device_name v
                         (dict_del device_name (registered_devices w))));
        EvRmtree new_device_name;
        EvSave (PDict (registered_devices w'))])%list.
Proof.
  intros new Ha Hy Hf Hd Hn Hg.
  assert (Hnew : dict_get new (registered_devices w) = None).
  { unfold dict_has in Hf. apply bool_decide_eq_false in Hf.
    destruct (dict_get new (registered_devices w)); [|reflexivity].
    exfalso. apply Hf. eauto. }
  pose proof (rename_device_first
                (with_answers (name_answer :: "Delete device" :: confirm_answer :: rest) w)
                device_name name_answer _ auth v eq_refl Hf Hd Hn Hg) as Hr.
  cbv zeta in Hr. fold new in Hr.
  eexists. split.
  - unfold _manage_registered_devices.
    replace (length (answers w)) with (S (length (tl (answers w))))
      by (rewrite Ha; reflexivity).
    generalize (length (tl (answers w))). intros fuel.
    cbn [_manage_registered_devices_loop].
    rewrite (select_next _ _ _ _ _ Ha). picked.
    rewrite (once_next _ _ _ _ _ Hr).
    erewrite select_next by reflexivity. picked.
    erewrite confirm_next by reflexivity. rewrite Hy.
    erewrite once_next; [reflexivity|].
    unfold _delete_device, rmtree, dict_pop, dict_item. run.
    rewrite lookup_insert_eq. run.
    rewrite dict_get_set, String.eqb_refl. run. reflexivity.
  - cbn.
    assert (Hdel : dict_del new (dict_set new v
                      (dict_del device_name (registered_devices w)))
                   = dict_del device_name (registered_devices w)).
    { rewrite dict_del_set. apply dict_del_absent.
      rewrite dict_get_del, Hnew. destruct (String.eqb new device_name); reflexivity. }
    rewrite Hdel, delete_insert_eq.
    rewrite (delete_id (delete device_name (onion_service_main_dir w)) new)
      by (rewrite lookup_delete_ne; [exact Hn|intros ->; congruence]).
    rewrite <- !app_assoc.
    repeat split; try reflexivity.
    rewrite dict_get_del, Hnew. destruct (String.eqb new device_name); reflexivity.
Qed.

End Ways.

(** ** The prompt for an onion address *)

Section Onion.

Lemma stored_onion_address devices device :
  registry_shaped devices = true ->
  In device (dict_keys devices) ->
  exists registered, stored_item devices device "onion_address" = Val registered.
Proof.
  intros Hs Hin. unfold stored_item, dict_item.
  destruct (dict_get device devices) as [v|] eqn:Hg.
  - apply dict_get_In in Hg. unfold registry_shaped in Hs.
    rewrite forallb_forall in Hs. specialize (Hs _ Hg). cbn in Hs.
    apply entry_shaped_inv in Hs as (ip & port & onion & clients & ->).
    exists onion. reflexivity.
  - apply dict_get_None in Hg. contradiction.
Qed.

Lemma prompt_onion_address_body_step devices onion_address duplicate warned device
  registered w :
  stored_item devices device "onion_address" = Val registered ->
  prompt_onion_address_body devices onion_address (duplicate, warned) device w
  = Ok (if py_eq (PStr onion_address) registered
        then (true, (warned ++ [OnionAddressRegistered onion_address device])%list)
        else (duplicate, warned)) w.
Proof.
  intros Hr. unfold prompt_onion_address_body. run. rewrite Hr.
  destruct (py_eq (PStr onion_address) registered); reflexivity.
Qed.

Lemma prompt_onion_address_scan devices onion_address keys :
  registry_shaped devices = true ->
  (forall device, In device keys -> In device (dict_keys devices)) ->
  forall duplicate warned w,
  for_fold keys (duplicate, warned) (prompt_onion_address_body devices onion_address) w
  = Ok (duplicate || existsb (onion_address_of devices onion_address) keys,
        (warned ++ map (OnionAddressRegistered onion_address)
                     (List.filter (onion_address_of devices onion_address) keys))%list)
       w.
Proof.
  intros Hs. induction keys as [|device keys IH]; intros Hk duplicate warned w.
  - cbn. rewrite orb_false_r, app_nil_r. reflexivity.
  - cbn [for_fold]. rewrite run_bind.
    destruct (stored_onion_address devices device Hs) as (registered & Hr);
      [apply Hk; left; reflexivity|].
    rewrite (prompt_onion_address_body_step _ _ _ _ _ _ _ Hr).
    cbn [existsb List.filter].
    assert (onion_address_of devices onion_address device
            = py_eq (PStr onion_address) registered) as ->
      by (unfold onion_address_of; rewrite Hr; reflexivity).
    destruct (py_eq (PStr onion_address) registered);
      rewrite IH by (intros d Hd; apply Hk; right; exact Hd).
    + cbn. rewrite orb_true_r, <- app_assoc. reflexivity.
    + reflexivity.
Qed.

Lemma onion_warnings_none devices onion_address :
  onion_assigned devices onion_address = false ->
  onion_warnings devices onion_address = [].
Proof.
  unfold onion_assigned, onion_warnings.
  induction (dict_keys devices) as [|device keys IH]; cbn; [reflexivity|].
  intros H. apply orb_false_iff in H as [-> H]. auto.
Qed.

Lemma prompt_onion_address_loop_result devices script :
  registry_shaped devices = true ->
  forall warned w onion_address warned' w',
  prompt_onion_address_loop devices script warned w = Ok (onion_address, warned') w' <->
  exists rejected rest,
    script = (rejected ++ onion_address :: rest)%list /\
    onion_assigned devices onion_address = false /\
    forallb (onion_assigned devices) rejected = true /\
    warned' = (warned ++ flat_map (onion_warnings devices) rejected)%list /\
    w' = with_answers rest w.
Proof.
  intros Hs. induction script as [|answer script IH]; intros warned w a warned' w'.
  - cbn. split; [discriminate|]. intros (rejected & rest & E & _).
    destruct rejected; discriminate.
  - cbn [prompt_onion_address_loop]. run.
    rewrite (prompt_onion_address_scan devices answer (dict_keys devices) Hs
               (fun d H => H)).
    cbn [orb]. fold (onion_assigned devices answer).
    fold (onion_warnings devices answer).
    destruct (onion_assigned devices answer) eqn:Ho.
    + rewrite IH. split.
      * intros (rejected & rest & -> & Ha & Hr & -> & ->).
        exists (answer :: rejected), rest. cbn. rewrite Ho, Hr, <- app_assoc. auto.
      * intros (rejected & rest & E & Ha & Hr & -> & ->).
        destruct rejected as [|r rejected]; cbn in E; injection E as <- ->.
        { congruence. }
        cbn in Hr. apply andb_true_iff in Hr as [_ Hr].
        exists rejected, rest. cbn. rewrite <- app_assoc. auto.
    + split.
      * intros [= <- <- <-]. exists [], script. cbn.
        rewrite (onion_warnings_none _ _ Ho). auto.
      * intros (rejected & rest & E & Ha & Hr & -> & ->).
        destruct rejected as [|r rejected]; cbn in E; injection E as <- ->.
        { cbn. rewrite (onion_warnings_none _ _ Ho). reflexivity. }
        cbn in Hr. apply andb_true_iff in Hr as [Hr _]. congruence.
Qed.

(** X18.  On a registry whose entries have the four fields,
    [prompt_onion_address] returns exactly the first answer that is the
    onion address of no registered device; for each answer before it, it
    warns once for each device that has this address; and it changes
    nothing but the answers that are left. *)
Theorem prompt_onion_address_takes_the_first_unregistered_address
  (devices : list (string * pyval)) (w : world)
  (onion_address : string) (warned : list onion_warning) (w' : world) :
  registry_shaped devices = true ->
  (prompt_onion_address devices w = Ok (onion_address, warned) w' <->
   exists rejected rest,
     answers w = (rejected ++ onion_address :: rest)%list /\
     onion_assigned devices onion_address = false /\
     forallb (onion_assigned devices) rejected = true /\
     warned = flat_map (onion_warnings devices) rejected /\
     w' = with_answers rest w).
Proof.
  intros Hs. unfold prompt_onion_address.
  apply (prompt_onion_address_loop_result devices (answers w) Hs []).
Qed.

End Onion.

(** ** The menus on the examples *)

Lemma manage_devices_performs_operations_witness :
  let w := Sample.world_A ["Manage registered smart home devices"; "A";
                           "View Onion address"; "Rename device"; "B";
                           "Back to main menu"; "Exit"] in
  let out := default (Raise KeyboardInterrupt w)
               (manage_devices (builtins := Sample.builtins)
                  (daemon := Sample.daemon_up Sample.onion_1)
                  (questionary := Keys.questionary) w) in
  match out with
  | Ok _ w' => managed (builtins := Sample.builtins)
                 (daemon := Sample.daemon_up Sample.onion_1) w w'
  | Raise e w' =>
      exists w1, managed (builtins := Sample.builtins)
                   (daemon := Sample.daemon_up Sample.onion_1) w w1 /\
                 (only_talked w1 w' \/
                  exists o, perform (builtins := Sample.builtins)
                              (daemon := Sample.daemon_up Sample.onion_1) o w1
                            = Raise e w')
  end.
Proof.
  intros w out.
  apply (manage_devices_performs_operations (builtins := Sample.builtins)
           (daemon := Sample.daemon_up Sample.onion_1)
           (questionary := Keys.questionary) w out).
  vm_compute. reflexivity.
Defined.

Lemma management_keeps_the_registry_in_order_witness :
  let w := Sample.world_A ["Add a new smart home device"; "B"; "10.0.0.5"; "8080";
                           "8081"; "c1"; "KEY2"; "Exit"] in
  let w' := final (default (Raise KeyboardInterrupt w)
                     (manage_devices (builtins := Sample.builtins)
                        (daemon := Sample.daemon_up Sample.onion_2)
                        (questionary := Keys.questionary) w)) in
  coherent w' = true /\
  pairs_distinct (registered_devices w') = true /\
  in_sync w'.
Proof.
  intros w w'.
  apply (management_keeps_the_registry_in_order (builtins := Sample.builtins)
           (daemon := Sample.daemon_up Sample.onion_2)
           (questionary := Keys.questionary) w [] w');
    vm_compute; reflexivity.
Defined.

Lemma deleting_the_last_client_leaves_the_menus_witness :
  let w := Sample.world_A ["Manage clients"; "Manage registered clients"; "c1";
                           "Delete client"; "y"; "Exit"] in
  exists w',
    _manage_registered_devices (builtins := Sample.builtins)
      (daemon := Sample.daemon_up Sample.onion_1)
      (questionary := Keys.questionary) "A" [] w = Some (Ok [] w') /\
    answers w' = ["Exit"] /\
    registered_devices w' = dict_del "A" (registered_devices w) /\
    registered_devices_file w' = Some (PDict (registered_devices w')) /\
    onion_service_main_dir w' = delete "A" (onion_service_main_dir w).
Proof.
  intros w.
  apply (deleting_the_last_client_leaves_the_menus (builtins := Sample.builtins)
           (daemon := Sample.daemon_up Sample.onion_1)
           (questionary := Keys.questionary)
           w "A" "c1" "KEY1" "y" (PStr "10.0.0.5") (PInt 8080)
           (PStr "abcd...onion") (PStr "KEY1") ["Exit"] []);
    try reflexivity.
  discriminate.
Defined.

Lemma deleting_after_a_rename_deletes_the_renamed_device_witness :
  let w := Sample.world_A ["Rename device"; " B "; "Delete device"; "y"; "Exit"] in
  exists w',
    _manage_registered_devices (builtins := Sample.builtins)
      (daemon := Sample.daemon_up Sample.onion_1)
      (questionary := Keys.questionary) "A" [] w = Some (Ok [] w') /\
    answers w' = ["Exit"] /\
    registered_devices w' = dict_del "A" (registered_devices w) /\
    dict_get "B" (registered_devices w') = None /\
    registered_devices_file w' = Some (PDict (registered_devices w')) /\
    onion_service_main_dir w' = delete "A" (onion_service_main_dir w) /\
    effects w'
    = (effects w ++
       [EvMoveDir "A" "B";
        EvSave (PDict (dict_set "B" Sample.device_A
                         (dict_del "A" (registered_devices w))));
        EvRmtree "B";
        EvSave (PDict (registered_devices w'))])%list.
Proof.
  intros w.
  apply (deleting_after_a_rename_deletes_the_renamed_device
           (builtins := Sample.builtins)
           (daemon := Sample.daemon_up Sample.onion_1)
           (questionary := Keys.questionary)
           w "A" " B " "y" {[ "c1" := "KEY1" ]} Sample.device_A ["Exit"] []);
    reflexivity.
Defined.

Lemma prompt_onion_address_takes_the_first_unregistered_address_witness :
  let w := Sample.file_world PNone in
  let script := [Sample.onion_1; "new.onion"; "next"] in
  prompt_onion_address Sample.devices_AB (with_answers script w)
  = Ok ("new.onion", [OnionAddressRegistered Sample.onion_1 "A"])
       (with_answers ["next"] (with_answers script w)).
Proof.
  intros w script.
  apply (proj2 (prompt_onion_address_takes_the_first_unregistered_address
                  Sample.devices_AB (with_answers script w) "new.onion"
                  [OnionAddressRegistered Sample.onion_1 "A"]
                  (with_answers ["next"] (with_answers script w)) eq_refl)).
  exists [Sample.onion_1], ["next"]. repeat split; reflexivity.
Defined.
